(** * kabi-dw: the __ksymtab_strings reader (ksymtab.c)

    A shallow embedding of [src/ksymtab.c] and the properties of its
    section reader, string-table splitter, global symbol enumerator and
    symbol registry.

    Conventions
    - C integers are [Z]; [size_t] and [uint64_t] arithmetic that can
      wrap is written with [wrap64].
    - A byte is an [ascii]; a char array is a [list ascii].
    - The C heap is a finite map from block addresses to objects; NULL is
      address 0.  [safe_malloc] hands out zeroed blocks (see the comment
      in [ksymtab_new] of the source).
    - A function that can call [fail()] / [exit(1)] or run into undefined
      behaviour lives in the monad [M]: [Ok] is a normal return, [Fatal]
      is process termination with the state at that point, [Undef] is
      undefined behaviour (NULL dereference, out-of-bounds read, ...). *)

From stdpp Require Import gmap strings list fin_maps.
From Stdlib Require Import ZArith Ascii Lia.

Open Scope Z_scope.

(** ** Bytes and C strings *)

Definition wrap64 (z : Z) : Z := z mod 2 ^ 64.

Definition NUL : ascii := Ascii.zero.

Definition is_nul (c : ascii) : bool := bool_decide (c = NUL).

(** String literal to char array (without the terminator). *)
Definition str (s : string) : list ascii := String.list_ascii_of_string s.

(** The C string stored at the start of a char array: the bytes before
    the first NUL (all of them when there is none). *)
Fixpoint c_prefix (bs : list ascii) : list ascii :=
  match bs with
  | [] => []
  | c :: r => if is_nul c then [] else c :: c_prefix r
  end.

(** Reading a C string out of an array: defined only when a terminator
    is met before the end of the array. *)
Definition c_str (bs : list ascii) : option (list ascii) :=
  if existsb is_nul bs then Some (c_prefix bs) else None.

(** ** The ELF image as libelf reports it

    libelf and the file system are external; an input file is described
    by what the calls made by [ksymtab.c] return on it. *)

Definition SHT_NOBITS : Z := 8.
Definition ELFCLASS64 : Z := 2.
Definition EV_NONE : Z := 0.
Definition STB_GLOBAL : Z := 1.
Definition STB_WEAK : Z := 2.
Definition ELFMAG : list ascii := ascii_of_nat 127 :: str "ELF".
Definition SELFMAG : nat := 4.

Inductive Elf_Kind := ELF_K_NONE | ELF_K_AR | ELF_K_COFF | ELF_K_ELF.

#[global] Instance Elf_Kind_eq_dec : EqDecision Elf_Kind.
Proof. solve_decision. Defined.

Record GElf_Shdr := { sh_type : Z }.

(** One section: the outcome of [gelf_getshdr], of [elf_strptr] on its
    header's name index, and of [elf_getdata] ([None] is a failing call /
    a NULL result).  [d_size] is the length of [d_buf]. *)
Record Elf_Scn := {
  scn_shdr : option GElf_Shdr;
  scn_name : option (list ascii);
  scn_data : option (list ascii)
}.

Record GElf_Ehdr := { e_ident : list ascii }.

Record Elf := {
  elf_kind : Elf_Kind;
  elf_ehdr : option GElf_Ehdr;
  elf_class : Z;
  elf_shdrstrndx : option Z;
  elf_scns : list Elf_Scn
}.

(** A file that [open] can open: [file_elf] is the result of [elf_begin]
    on it ([None] when [elf_begin] fails). *)
Record file := { file_elf : option Elf }.

(** The environment of a run: the version [elf_version] agrees on and
    the files that can be opened read-only. *)
Record env := {
  env_elf_version : Z;
  env_fs : string -> option file
}.

(** ** Pointers and heap objects *)

Abbreviation addr := N.

(** A [char *]: an integer that points to no live object ([Abs 0] is
    NULL), a pointer into a buffer owned by libelf (section contents,
    carried by value) or a pointer into a heap block. *)
Inductive ptr :=
  | Abs (a : Z)
  | Buf (bs : list ascii) (off : Z)
  | Heap (b : addr) (off : Z).

Definition NULL : ptr := Abs 0.

Definition is_null (p : ptr) : bool :=
  match p with Abs a => a =? 0 | _ => false end.

Definition ptr_add (p : ptr) (n : Z) : ptr :=
  match p with
  | Abs a => Abs (wrap64 (a + n))
  | Buf bs off => Buf bs (off + n)
  | Heap b off => Heap b (off + n)
  end.

(** [struct ksymtab_elf] *)
Record ksymtab_elf := {
  ke_elf : addr;
  ke_shstrndx : Z;
  ke_strtab : ptr;
  ke_strtab_size : Z;
  ke_fd : addr
}.

(** Modelled from the spec: [struct ksym] is declared in ksymtab.h, which
    is not part of the sources at hand.  The fields are the ones
    ksymtab.c reads and writes: the value, the mark flag, the malloc'ed
    link string, the back-reference to the owning table and the key (a
    flexible char array, stored with its terminator). *)
Record ksym := {
  ks_value : Z;
  ks_mark : bool;
  ks_link : ptr;
  ks_ksymtab : addr;
  ks_key : list ascii
}.

(** Modelled from the spec: [struct hash] of hash.h, an opaque
    associative container with unique keys; the key of an entry is the
    C string of the record's key array. *)
Abbreviation hash := (gmap (list ascii) addr).

(** [struct ksymtab]; the hash it owns is kept in place. *)
Record ksymtab := {
  kt_hash : hash;
  kt_mark_count : Z
}.

Inductive obj :=
  | OSym (s : ksym)
  | OTab (t : ksymtab)
  | OStr (bs : list ascii)
  | OKe (ke : ksymtab_elf)
  | OElf (e : Elf) (fd : addr)
  | OFd (f : file).

(** One line printed by [symtab_handler]: name, value, binding. *)
Definition line : Type := list ascii * Z * Z.

Record state := {
  st_heap : gmap addr obj;
  st_next : addr;
  st_out : list line
}.

Definition set_heap (f : gmap addr obj -> gmap addr obj) (st : state) : state :=
  {| st_heap := f (st_heap st); st_next := st_next st; st_out := st_out st |}.

Definition init_state : state :=
  {| st_heap := ∅; st_next := 1%N; st_out := [] |}.

(** ** The monad *)

(** The calls to [fail()] and [exit(1)] of the source, by their message. *)
Inductive fatal :=
  | F_elf_version          (* elf_version() failed *)
  | F_open                 (* Failed to open file *)
  | F_elf_begin            (* elf_begin() failed *)
  | F_getehdr              (* getehdr () failed *)
  | F_class (class : Z)    (* Unsupported elf class *)
  | F_getshdrstrndx        (* elf_getshdrstrndx() failed *)
  | F_getshdr              (* getshdr() failed *)
  | F_strptr               (* elf_strptr() failed *)
  | F_nobits (section : list ascii)   (* The section has type SHT_NOBITS *)
  | F_empty (section : list ascii)    (* section empty! *)
  | F_name_index           (* Symbol name index out of range *)
  | F_no_name              (* Could not find symbol name *)
  | F_malformed_strings.   (* Mallformed __ksymtab_strings section *)

Inductive res (A : Type) :=
  | Ok (a : A) (st : state)
  | Fatal (e : fatal) (st : state)
  | Undef.
Arguments Ok {A} a st.
Arguments Fatal {A} e st.
Arguments Undef {A}.

Definition M (A : Type) : Type := state -> res A.

Definition ret {A} (a : A) : M A := fun st => Ok a st.

Definition bind {A B} (m : M A) (k : A -> M B) : M B :=
  fun st =>
    match m st with
    | Ok a st' => k a st'
    | Fatal e st' => Fatal e st'
    | Undef => Undef
    end.

Definition fail {A} (e : fatal) : M A := fun st => Fatal e st.

Definition undef {A} : M A := fun _ => Undef.

Declare Scope c_scope.
Delimit Scope c_scope with C.
Notation "x <- m ;; k" := (bind m (fun x => k))
  (at level 100, m at next level, right associativity) : c_scope.
Notation "m ;;; k" := (bind m (fun _ => k))
  (at level 100, right associativity) : c_scope.
Open Scope c_scope.

Definition get_obj (a : addr) : M obj :=
  fun st => match st_heap st !! a with Some o => Ok o st | None => Undef end.

Definition put_obj (a : addr) (o : obj) : M unit :=
  fun st => Ok tt (set_heap <[a := o]> st).

(** ** libc *)

(** A fresh block holding [o]: the allocator hands out addresses in
    increasing order, starting at 1, so never NULL. *)
Definition alloc (o : obj) : M addr :=
  fun st =>
    let a := st_next st in
    Ok a {| st_heap := <[a := o]> (st_heap st);
            st_next := N.succ a;
            st_out := st_out st |}.

Definition free_block (a : addr) : M unit :=
  fun st =>
    match st_heap st !! a with
    | Some _ => Ok tt (set_heap (delete a) st)
    | None => Undef
    end.

(** [free(p)] for a [char *]: nothing for NULL, undefined unless [p] is
    the start of a live block. *)
Definition free (p : ptr) : M unit :=
  match p with
  | Abs a => if a =? 0 then ret tt else undef
  | Heap b off => if off =? 0 then free_block b else undef
  | Buf _ _ => undef
  end.

(** The char array a pointer points into, with the offset inside it. *)
Definition chars_of (st : state) (p : ptr) : option (list ascii * Z) :=
  match p with
  | Abs _ => None
  | Buf bs off => Some (bs, off)
  | Heap b off =>
      match st_heap st !! b with
      | Some (OStr bs) => Some (bs, off)
      | Some (OSym s) => Some (ks_key s, off)
      | _ => None
      end
  end.

(** [p[k]] *)
Definition load_byte (p : ptr) (k : Z) : M ascii :=
  fun st =>
    match chars_of st p with
    | Some (bs, off) =>
        if (0 <=? off + k) && (off + k <? Z.of_nat (length bs)) then
          match bs !! Z.to_nat (off + k) with
          | Some c => Ok c st
          | None => Undef
          end
        else Undef
    | None => Undef
    end.

(** The [len] bytes at [p] (the source of a [memcpy]). *)
Definition load_bytes (p : ptr) (len : Z) : M (list ascii) :=
  fun st =>
    match chars_of st p with
    | Some (bs, off) =>
        if (0 <=? off) && (0 <=? len) && (off + len <=? Z.of_nat (length bs)) then
          Ok (take (Z.to_nat len) (drop (Z.to_nat off) bs)) st
        else Undef
    | None => Undef
    end.

(** The C string at [p], as [strlen], [strdup], [strcmp] and [printf]
    read it. *)
Definition cstr_at (st : state) (p : ptr) : option (list ascii) :=
  match chars_of st p with
  | Some (bs, off) =>
      if (0 <=? off) then c_str (drop (Z.to_nat off) bs) else None
  | None => None
  end.

Definition load_cstr (p : ptr) : M (list ascii) :=
  fun st => match cstr_at st p with Some s => Ok s st | None => Undef end.

Definition strlen (p : ptr) : M Z :=
  s <- load_cstr p ;; ret (Z.of_nat (length s)).

(** Modelled from the spec: [safe_strdup_or_null] of utils.h, NULL for
    NULL and otherwise a freshly allocated copy of the string. *)
Definition safe_strdup_or_null (s : ptr) : M ptr :=
  if is_null s then ret NULL
  else
    bs <- load_cstr s ;;
    b <- alloc (OStr (bs ++ [NUL])) ;;
    ret (Heap b 0).

(** ** The hash table (hash.h)

    Modelled from the spec: the generic hash table is consumed as an
    associative container with unique keys: insertion under an existing
    key makes the new value the one found, lookup is by exact key,
    iteration is in the container's own order. *)

Definition hash_new : hash := ∅.

Definition hash_add (h : hash) (key : list ascii) (v : addr) : hash :=
  <[key := v]> h.

(** NULL (address 0) when the key is absent. *)
Definition hash_find (h : hash) (key : list ascii) : addr :=
  default 0%N (h !! key).

Definition hash_get_count (h : hash) : Z := Z.of_nat (size h).

(** The values in the order [hash_iter_next] yields them. *)
Definition hash_iter (h : hash) : list addr := (map_to_list h).*2.

(** ** The symbol registry *)

Definition KSYMTAB_SIZE : Z := 8192.

Definition get_sym (a : addr) : M ksym :=
  o <- get_obj a ;; match o with OSym s => ret s | _ => undef end.

Definition get_tab (a : addr) : M ksymtab :=
  o <- get_obj a ;; match o with OTab t => ret t | _ => undef end.

Definition get_ke (a : addr) : M ksymtab_elf :=
  o <- get_obj a ;; match o with OKe ke => ret ke | _ => undef end.

(** Modelled from the spec: the inline accessors of ksymtab.h. *)
Definition ksymtab_ksym_get_name (ksym : addr) : ptr := Heap ksym 0.

Definition ksymtab_ksym_get_value (ksym : addr) : M Z :=
  s <- get_sym ksym ;; ret (ks_value s).

Definition ksymtab_ksym_get_link (ksym : addr) : M ptr :=
  s <- get_sym ksym ;; ret (ks_link s).

Definition ksymtab_ksym_is_marked (ksym : addr) : M bool :=
  s <- get_sym ksym ;; ret (ks_mark s).

Definition set_mark (b : bool) (s : ksym) : ksym :=
  {| ks_value := ks_value s; ks_mark := b; ks_link := ks_link s;
     ks_ksymtab := ks_ksymtab s; ks_key := ks_key s |}.

Definition set_link (l : ptr) (s : ksym) : ksym :=
  {| ks_value := ks_value s; ks_mark := ks_mark s; ks_link := l;
     ks_ksymtab := ks_ksymtab s; ks_key := ks_key s |}.

Definition ksymtab_ksym_mark (ksym : addr) : M unit :=
  s <- get_sym ksym ;;
  (if negb (ks_mark s) then
     t <- get_tab (ks_ksymtab s) ;;
     put_obj (ks_ksymtab s)
       (OTab {| kt_hash := kt_hash t;
                kt_mark_count := wrap64 (kt_mark_count t + 1) |})
   else ret tt) ;;;
  put_obj ksym (OSym (set_mark true s)).

Definition ksymtab_ksym_set_link (ksym : addr) (link : ptr) : M unit :=
  s <- get_sym ksym ;;
  (if negb (is_null (ks_link s)) then free (ks_link s) else ret tt) ;;;
  l <- safe_strdup_or_null link ;;
  put_obj ksym (OSym (set_link l s)).

Definition ksymtab_new (size : Z) : M addr :=
  alloc (OTab {| kt_hash := hash_new; kt_mark_count := 0 |}).

Definition ksymtab_add_sym (ksymtab : addr) (s : ptr) (len : Z) (value : Z)
  : M addr :=
  t <- get_tab ksymtab ;;
  bs <- load_bytes s len ;;
  ksym <- alloc (OSym {| ks_value := value; ks_mark := false; ks_link := NULL;
                         ks_ksymtab := ksymtab; ks_key := bs ++ [NUL] |}) ;;
  put_obj ksymtab
    (OTab {| kt_hash := hash_add (kt_hash t) (c_prefix (bs ++ [NUL])) ksym;
             kt_mark_count := kt_mark_count t |}) ;;;
  ret ksym.

Definition ksymtab_copy_sym (ksymtab : addr) (ksym : addr) : M addr :=
  let name := ksymtab_ksym_get_name ksym in
  value <- ksymtab_ksym_get_value ksym ;;
  link <- ksymtab_ksym_get_link ksym ;;
  len <- strlen name ;;
  new <- ksymtab_add_sym ksymtab name len value ;;
  ksymtab_ksym_set_link new link ;;;
  ret new.

Definition ksymtab_find (ksymtab : addr) (name : ptr) : M addr :=
  t <- get_tab ksymtab ;;
  if is_null name then ret 0%N
  else
    key <- load_cstr name ;;
    ret (hash_find (kt_hash t) key).

Definition ksymtab_len (ksymtab : addr) : M Z :=
  if (ksymtab =? 0)%N then ret 0
  else t <- get_tab ksymtab ;; ret (hash_get_count (kt_hash t)).

Definition ksymtab_mark_count (ksymtab : addr) : M Z :=
  t <- get_tab ksymtab ;; ret (kt_mark_count t).

Section Iteration.
(** The [void *ctx] a visitor works on. *)
Context {C : Type}.

Fixpoint hash_iter_loop (f : addr -> C -> M C) (vs : list addr) (ctx : C)
  : M C :=
  match vs with
  | [] => ret ctx
  | v :: vs' => ctx' <- f v ctx ;; hash_iter_loop f vs' ctx'
  end.

Definition ksymtab_for_each (ksymtab : addr) (f : addr -> C -> M C) (ctx : C)
  : M C :=
  if (ksymtab =? 0)%N then ret ctx
  else
    t <- get_tab ksymtab ;;
    hash_iter_loop f (hash_iter (kt_hash t)) ctx.

Definition unmarked_callback (f : ptr -> Z -> C -> M C) (ksym : addr) (ctx : C)
  : M C :=
  m <- ksymtab_ksym_is_marked ksym ;;
  if m then ret ctx
  else
    let name := ksymtab_ksym_get_name ksym in
    idx <- ksymtab_ksym_get_value ksym ;;
    f name idx ctx.

Definition ksymtab_for_each_unmarked (ksymtab : addr)
    (f : ptr -> Z -> C -> M C) (u_ctx : C) : M C :=
  ksymtab_for_each ksymtab (unmarked_callback f) u_ctx.
End Iteration.

(** ** The string-table splitter *)

(** The loop of [parse_ksymtab_strings]: [size] is the loop counter (and
    [p - d_buf]), [oldp] the offset of the pending entry, [i] the next
    index.  The loop makes at most [d_size] rounds, which is the fuel the
    caller passes; the guard is the one of the source. *)
Fixpoint parse_loop (fuel : nat) (res : addr) (d_buf : ptr) (d_size : Z)
    (size oldp i : Z) : M unit :=
  if size <? d_size then
    match fuel with
    | O => undef
    | S fuel' =>
        c <- load_byte d_buf size ;;
        if is_nul c then
          let len := size - oldp in
          if len =? 0 then
            parse_loop fuel' res d_buf d_size (size + 1) (size + 1) i
          else
            ksymtab_add_sym res (ptr_add d_buf oldp) len i ;;;
            parse_loop fuel' res d_buf d_size (size + 1) (size + 1)
              (wrap64 (i + 1))
        else
          parse_loop fuel' res d_buf d_size (size + 1) oldp i
    end
  else ret tt.

(** The failure message is formatted with [%s] from [p], which still
    points to the start of the section: the section is read as a C
    string before the process stops. *)
Definition parse_ksymtab_strings (d_buf : ptr) (d_size : Z) : M addr :=
  res <- ksymtab_new KSYMTAB_SIZE ;;
  c <- load_byte d_buf (wrap64 (d_size - 1)) ;;
  if negb (is_nul c) then
    load_cstr d_buf ;;;
    fail F_malformed_strings
  else
    parse_loop (Z.to_nat d_size) res d_buf d_size 0 0 0 ;;;
    ret res.

(** ** The section locator *)

Definition KSYMTAB_STRINGS : list ascii := str "__ksymtab_strings".
Definition SYMTAB : list ascii := str ".symtab".
Definition STRTAB : list ascii := str ".strtab".

Definition get_elf (a : addr) : M Elf :=
  o <- get_obj a ;; match o with OElf e _ => ret e | _ => undef end.

(** The scan of [ksymtab_elf_get_section] over the sections
    [elf_nextscn] yields: the first one whose name is [section], with
    its header. *)
Fixpoint scan_sections (scns : list Elf_Scn) (section : list ascii)
  : M (option (Elf_Scn * GElf_Shdr)) :=
  match scns with
  | [] => ret None
  | scn :: scns' =>
      match scn_shdr scn with
      | None => fail F_getshdr
      | Some shdr =>
          match scn_name scn with
          | None => fail F_strptr
          | Some name =>
              if bool_decide (name = section) then ret (Some (scn, shdr))
              else scan_sections scns' section
          end
      end
  end.

(** [None] is the return value -1, with [*d_data] and [*size] left
    untouched; [Some (d_buf, d_size)] is the return value 0 with the two
    outputs written.  The second [gelf_getshdr] on the section found
    gives the header the scan already has. *)
Definition ksymtab_elf_get_section (ke : addr) (section : list ascii)
  : M (option (ptr * Z)) :=
  kev <- get_ke ke ;;
  elf <- get_elf (ke_elf kev) ;;
  found <- scan_sections (elf_scns elf) section ;;
  match found with
  | None => ret None
  | Some (scn, shdr) =>
      if sh_type shdr =? SHT_NOBITS then fail (F_nobits section)
      else
        match scn_data scn with
        | None => fail (F_empty section)
        | Some d_buf =>
            let d_size := Z.of_nat (length d_buf) in
            if d_size =? 0 then fail (F_empty section)
            else ret (Some (Buf d_buf 0, d_size))
        end
  end.

(** The locals that a function of the source reads without having
    written them on every path; their content at entry is whatever the
    stack holds. *)
Record indeterminate := {
  ind_strtab : ptr;
  ind_strtab_size : Z;
  ind_data : ptr;
  ind_size : Z
}.

(** A NULL result is address 0.  On the two [goto done] paths the
    descriptor and the Elf handle stay open. *)
Definition ksymtab_elf_open (e : env) (ind : indeterminate) (filename : string)
  : M addr :=
  if env_elf_version e =? EV_NONE then fail F_elf_version
  else
    match env_fs e filename with
    | None => fail F_open
    | Some f =>
        fd <- alloc (OFd f) ;;
        match file_elf f with
        | None => fail F_elf_begin
        | Some img =>
            elf <- alloc (OElf img fd) ;;
            if negb (bool_decide (elf_kind img = ELF_K_ELF)) then ret 0%N
            else
              match elf_ehdr img with
              | None => fail F_getehdr
              | Some ehdr =>
                  if negb (bool_decide (take SELFMAG (e_ident ehdr) = ELFMAG))
                  then ret 0%N
                  else if negb (elf_class img =? ELFCLASS64)
                  then fail (F_class (elf_class img))
                  else
                    match elf_shdrstrndx img with
                    | None => fail F_getshdrstrndx
                    | Some shstrndx =>
                        ke <- alloc (OKe {| ke_elf := elf;
                                            ke_shstrndx := shstrndx;
                                            ke_strtab := NULL;
                                            ke_strtab_size := 0;
                                            ke_fd := fd |}) ;;
                        r <- ksymtab_elf_get_section ke STRTAB ;;
                        let '(strtab, strtab_size) :=
                          match r with
                          | Some out => out
                          | None => (ind_strtab ind, ind_strtab_size ind)
                          end in
                        put_obj ke (OKe {| ke_elf := elf;
                                           ke_shstrndx := shstrndx;
                                           ke_strtab := strtab;
                                           ke_strtab_size := strtab_size;
                                           ke_fd := fd |}) ;;;
                        ret ke
                    end
              end
        end
    end.

Definition ksymtab_elf_close (ke : addr) : M unit :=
  kev <- get_ke ke ;;
  free_block (ke_elf kev) ;;;
  free_block (ke_fd kev) ;;;
  free_block ke.

(** ** The global symbol enumerator *)

(** An unsigned little-endian integer (the layout of the x86-64 host
    whose [Elf64_Sym] the section data is cast to). *)
Definition le (bs : list ascii) : Z :=
  fold_right (fun b acc => Z.of_N (N_of_ascii b) + 256 * acc) 0 bs.

Definition load_uint (p : ptr) (off : Z) (n : Z) : M Z :=
  bs <- load_bytes (ptr_add p off) n ;; ret (le bs).

(** [Elf64_Sym]: st_name at 0 (4 bytes), st_info at 4 (1), st_other at 5
    (1), st_shndx at 6 (2), st_value at 8 (8), st_size at 16 (8). *)
Definition sizeof_Elf64_Sym : Z := 24.

Definition ELF64_ST_BIND (info : Z) : Z := Z.shiftr info 4.

Section Enumerator.
Context {C : Type}.

(** The loop of [ksymtab_elf_for_each_global_sym]; [off] is
    [(char * )sym - data], the guard [sym < end] is [off < size].  Each
    round advances by one record, so [size] rounds of fuel are never
    used up. *)
Fixpoint sym_loop (fuel : nat) (ke : addr) (fn : ptr -> Z -> Z -> C -> M C)
    (data : ptr) (size : Z) (off : Z) (ctx : C) : M C :=
  if off <? size then
    match fuel with
    | O => undef
    | S fuel' =>
        st_info <- load_uint data (off + 4) 1 ;;
        let binding := ELF64_ST_BIND st_info in
        if negb ((binding =? STB_GLOBAL) || (binding =? STB_WEAK)) then
          sym_loop fuel' ke fn data size (off + sizeof_Elf64_Sym) ctx
        else
          st_name <- load_uint data off 4 ;;
          if st_name =? 0 then
            sym_loop fuel' ke fn data size (off + sizeof_Elf64_Sym) ctx
          else
            kev <- get_ke ke ;;
            if st_name >? ke_strtab_size kev then fail F_name_index
            else
              let name := ptr_add (ke_strtab kev) st_name in
              if is_null name then fail F_no_name
              else
                st_value <- load_uint data (off + 8) 8 ;;
                ctx' <- fn name st_value binding ctx ;;
                sym_loop fuel' ke fn data size (off + sizeof_Elf64_Sym) ctx'
    end
  else ret ctx.

Definition ksymtab_elf_for_each_global_sym (ind : indeterminate) (ke : addr)
    (fn : ptr -> Z -> Z -> C -> M C) (ctx : C) : M C :=
  r <- ksymtab_elf_get_section ke SYMTAB ;;
  let '(data, size) :=
    match r with
    | Some out => out
    | None => (ind_data ind, ind_size ind)
    end in
  sym_loop (Z.to_nat size) ke fn data size sizeof_Elf64_Sym ctx.
End Enumerator.

(** ** The top-level extraction *)

(** [printf("Symbol %s, value %lx, binding %d\n", ...)]: the name is read
    as a C string. *)
Definition symtab_handler (name : ptr) (value : Z) (binding : Z) (ctx : unit)
  : M unit :=
  s <- load_cstr name ;;
  fun st => Ok tt {| st_heap := st_heap st; st_next := st_next st;
                     st_out := st_out st ++ [(s, value, binding)] |}.

Definition ksymtab_read (e : env) (ind : indeterminate) (filename : string)
  : M addr :=
  elf <- ksymtab_elf_open e ind filename ;;
  if (elf =? 0)%N then ret 0%N
  else
    r <- ksymtab_elf_get_section elf KSYMTAB_STRINGS ;;
    match r with
    | None => ksymtab_elf_close elf ;;; ret 0%N
    | Some (data, size) =>
        res <- parse_ksymtab_strings data size ;;
        ksymtab_elf_for_each_global_sym ind elf symtab_handler tt ;;;
        ksymtab_elf_close elf ;;;
        ret res
    end.

(** ** Releasing a registry *)

Definition ksymtab_ksym_free (arg : addr) : M unit :=
  ksym <- get_sym arg ;;
  free (ks_link ksym) ;;;
  free_block arg.

(** Modelled from the spec: [hash_free] of hash.h calls the callback
    given to [hash_new] on every value, in the table's own order, and
    releases the table (which is kept in place in [struct ksymtab]
    here). *)
Fixpoint hash_free_values (free_value : addr -> M unit) (vs : list addr)
  : M unit :=
  match vs with
  | [] => ret tt
  | v :: vs' => free_value v ;;; hash_free_values free_value vs'
  end.

Definition hash_free (free_value : addr -> M unit) (h : hash) : M unit :=
  hash_free_values free_value (hash_iter h).

Definition ksymtab_free (ksymtab : addr) : M unit :=
  if (ksymtab =? 0)%N then ret tt
  else
    t <- get_tab ksymtab ;;
    hash_free ksymtab_ksym_free (kt_hash t) ;;;
    free_block ksymtab.

(** * Observations and specification-side definitions *)

(** ** The entries of a section text *)

(** The spans of a section text: each NUL byte ends the span that runs
    from the end of the previous one up to, and without, that byte.
    [cur] is the span under way. *)
Fixpoint spans_from (cur : list ascii) (bs : list ascii) : list (list ascii) :=
  match bs with
  | [] => []
  | c :: r =>
      if is_nul c then cur :: spans_from [] r else spans_from (cur ++ [c]) r
  end.

Definition spans (bs : list ascii) : list (list ascii) := spans_from [] bs.

(** The entries of a section text: its non-empty spans, in order. *)
Definition entries (bs : list ascii) : list (list ascii) :=
  filter (fun s => s ≠ []) (spans bs).

(** One [ksymtab_add_sym] per entry, in order, with the indices [i],
    [i + 1], ... *)
Fixpoint add_entries (res : addr) (es : list (list ascii)) (i : Z) : M unit :=
  match es with
  | [] => ret tt
  | e :: es' =>
      ksymtab_add_sym res (Buf e 0) (Z.of_nat (length e)) i ;;;
      add_entries res es' (i + 1)
  end.

(** ** Looking into the heap *)

(** The record, or the registry, stored at an address. *)
Definition sym_at (st : state) (a : addr) : option ksym :=
  match st_heap st !! a with Some (OSym s) => Some s | _ => None end.

Definition tab_at (st : state) (a : addr) : option ksymtab :=
  match st_heap st !! a with Some (OTab t) => Some t | _ => None end.

(** A registry as its users see it: the names the hash reaches, each
    with the value of its record. *)
Definition view_of (st : state) (t : ksymtab) : gmap (list ascii) Z :=
  omap (fun a => ks_value <$> sym_at st a) (kt_hash t).

Definition registry_view (st : state) (tab : addr)
  : option (gmap (list ascii) Z) :=
  t ← tab_at st tab; Some (view_of st t).

(** The map built by inserting the entries in order, each with its
    index, counted from [i]. *)
Fixpoint index_from (es : list (list ascii)) (i : Z) (m : gmap (list ascii) Z)
  : gmap (list ascii) Z :=
  match es with
  | [] => m
  | e :: es' => index_from es' (i + 1) (<[e := i]> m)
  end.

(** The state after [ksymtab_add_sym res _ _ i] has copied the bytes [e]:
    a new record at the next free address, entered in the hash under its
    name. *)
Definition added (res : addr) (e : list ascii) (i : Z) (t : ksymtab) (st : state)
  : state :=
  {| st_heap :=
       <[res := OTab {| kt_hash := hash_add (kt_hash t) (c_prefix (e ++ [NUL]))
                                     (st_next st);
                        kt_mark_count := kt_mark_count t |}]>
         (<[st_next st := OSym {| ks_value := i; ks_mark := false;
                                  ks_link := NULL; ks_ksymtab := res;
                                  ks_key := e ++ [NUL] |}]> (st_heap st));
     st_next := N.succ (st_next st);
     st_out := st_out st |}.

(** Every entry of the hash points to a record allocated after the
    registry itself. *)
Definition reaches_syms (res : addr) (st : state) (t : ksymtab) : Prop :=
  forall name a, kt_hash t !! name = Some a ->
    (res < a < st_next st)%N /\ is_Some (sym_at st a).

(** ** The registry invariant *)

(** The mark flag of the record at an address. *)
Definition is_marked_at (st : state) (a : addr) : bool :=
  match sym_at st a with Some s => ks_mark s | None => false end.

(** The number of records of a registry whose mark flag is set. *)
Definition marked_records (st : state) (t : ksymtab) : nat :=
  size (filter (fun na => is_marked_at st na.2 = true) (kt_hash t)).

(** A hash entry is sound when it points to a live record, handed out
    by the allocator, that names this registry as its owner and carries
    the entry's key as its name. *)
Definition record_ok (tab : addr) (st : state) (name : list ascii) (a : addr)
  : bool :=
  match sym_at st a with
  | Some s =>
      (ks_ksymtab s =? tab)%N && bool_decide (c_prefix (ks_key s) = name)
      && (a <? st_next st)%N
  | None => false
  end.

(** A well-formed registry: every hash entry is sound, and the number of
    records fits a [size_t]. *)
Definition registry_ok (st : state) (tab : addr) : bool :=
  match tab_at st tab with
  | Some t =>
      forallb (fun na => record_ok tab st na.1 na.2) (map_to_list (kt_hash t))
      && (Z.of_nat (size (kt_hash t)) <? 2 ^ 64)
      && (tab <? st_next st)%N
  | None => false
  end.

(** [mark_count] equals the number of marked records (as a test). *)
Definition mark_count_ok (st : state) (tab : addr) : bool :=
  match tab_at st tab with
  | Some t => kt_mark_count t =? Z.of_nat (marked_records st t)
  | None => false
  end.

(** [a] is one of the records of the registry [tab]. *)
Definition is_record (st : state) (tab a : addr) : bool :=
  match tab_at st tab with
  | Some t => existsb (fun na => (na.2 =? a)%N) (map_to_list (kt_hash t))
  | None => false
  end.

(** A sequence of calls of [ksymtab_ksym_mark]. *)
Fixpoint mark_all (ks : list addr) : M unit :=
  match ks with
  | [] => ret tt
  | k :: ks' => ksymtab_ksym_mark k ;;; mark_all ks'
  end.

(** The registry and the state after an unmarked record was marked. *)
Definition marked_tab (t : ksymtab) : ksymtab :=
  {| kt_hash := kt_hash t; kt_mark_count := wrap64 (kt_mark_count t + 1) |}.

Definition marked_state (tab a : addr) (t : ksymtab) (s : ksym) (st : state)
  : state :=
  set_heap <[a := OSym (set_mark true s)]>
    (set_heap <[tab := OTab (marked_tab t)]> st).

(** The number of marked records of the registry at [tab]. *)
Definition number_marked (st : state) (tab : addr) : nat :=
  match tab_at st tab with Some t => marked_records st t | None => O end.

(** [ksymtab_mark_count] returns the number of marked records. *)
Definition counts_marked (st : state) (tab : addr) : Prop :=
  ksymtab_mark_count tab st = Ok (Z.of_nat (number_marked st tab)) st.

(** The state a run ends in. *)
Definition state_of {A} (r : res A) : state :=
  match r with Ok _ st => st | Fatal _ st => st | Undef => init_state end.

(** ** Duplicating a record *)

(** A link as [ksymtab_ksym_set_link] leaves it: NULL, or the start of a
    live heap string. *)
Definition link_ready (st : state) (p : ptr) : bool :=
  match p with
  | Abs a => a =? 0
  | Buf _ _ => false
  | Heap b off =>
      (off =? 0) && (b <? st_next st)%N &&
      match st_heap st !! b with
      | Some (OStr bs) => existsb is_nul bs
      | _ => false
      end
  end.

(** Every live block lies below the allocation mark. *)
Definition heap_bounded (st : state) : bool :=
  forallb (fun ao => (ao.1 <? st_next st)%N) (map_to_list (st_heap st)).

(** What [ksymtab_copy_sym] needs: a registry, a source record whose key
    is terminated and whose link is as [ksymtab_ksym_set_link] leaves
    it. *)
Definition copy_ready (st : state) (tab src : addr) : bool :=
  match sym_at st src, tab_at st tab with
  | Some s, Some _ =>
      heap_bounded st &&
      existsb is_nul (ks_key s) && link_ready st (ks_link s)
  | _, _ => false
  end.

(** The copy, the registry and the state after [ksymtab_copy_sym]. *)
Definition copied_sym (tab : addr) (s : ksym) (link : ptr) : ksym :=
  {| ks_value := ks_value s; ks_mark := false; ks_link := link;
     ks_ksymtab := tab; ks_key := c_prefix (ks_key s) ++ [NUL] |}.

Definition copied_tab (t : ksymtab) (s : ksym) (new : addr) : ksymtab :=
  {| kt_hash := hash_add (kt_hash t) (c_prefix (ks_key s)) new;
     kt_mark_count := kt_mark_count t |}.

Definition copied_link (s : ksym) (new : addr) : ptr :=
  if is_null (ks_link s) then NULL else Heap (N.succ new) 0.

Definition copied_state (tab : addr) (t : ksymtab) (s : ksym) (st : state)
  : state :=
  let new := st_next st in
  if is_null (ks_link s) then
    {| st_heap := <[new := OSym (copied_sym tab s NULL)]>
                    (<[tab := OTab (copied_tab t s new)]>
                       (<[new := OSym (copied_sym tab s NULL)]> (st_heap st)));
       st_next := N.succ new;
       st_out := st_out st |}
  else
    {| st_heap := <[new := OSym (copied_sym tab s (Heap (N.succ new) 0))]>
                    (<[N.succ new :=
                         OStr (default [] (cstr_at st (ks_link s)) ++ [NUL])]>
                       (<[tab := OTab (copied_tab t s new)]>
                          (<[new := OSym (copied_sym tab s NULL)]>
                             (st_heap st))));
       st_next := N.succ (N.succ new);
       st_out := st_out st |}.

(** ** The symbol table as records *)

(** The fields of an [Elf64_Sym] that the enumerator reads. *)
Record Elf64_Sym := { st_name : Z; st_info : Z; st_value : Z }.

(** The [k]-th record of a symbol table section. *)
Definition sym_of (data : list ascii) (k : nat) : Elf64_Sym :=
  {| st_name := le (take 4 (drop (24 * k) data));
     st_info := le (take 1 (drop (24 * k + 4) data));
     st_value := le (take 8 (drop (24 * k + 8) data)) |}.

(** The records of a symbol table section. *)
Definition symtab_entries (data : list ascii) : list Elf64_Sym :=
  map (sym_of data) (seq 0 (length data / 24)).

(** The binding of a record, and the test the enumerator applies:
    global or weak binding and a non-zero name index. *)
Definition sym_binding (s : Elf64_Sym) : Z := ELF64_ST_BIND (st_info s).

Definition kept (s : Elf64_Sym) : bool :=
  ((sym_binding s =? STB_GLOBAL) || (sym_binding s =? STB_WEAK))
  && negb (st_name s =? 0).

(** The entries the enumerator keeps: all but the first, with global or
    weak binding and a name. *)
Definition kept_entries (data : list ascii) : list Elf64_Sym :=
  filter (fun s => kept s = true) (tail (symtab_entries data)).

(** One call of the handler: name pointer, value, binding. *)
Definition call : Type := ptr * Z * Z.

(** The call the enumerator makes for a record. *)
Definition call_of (kev : ksymtab_elf) (s : Elf64_Sym) : call :=
  (ptr_add (ke_strtab kev) (st_name s), st_value s, sym_binding s).

(** The record gets past the two guards of the enumerator. *)
Definition passes_check (kev : ksymtab_elf) (s : Elf64_Sym) : bool :=
  (st_name s <=? ke_strtab_size kev)
  && negb (is_null (ptr_add (ke_strtab kev) (st_name s))).

(** The enumeration over records instead of bytes: a kept record whose
    name index is beyond the string table length ends the run, any other
    kept record is handed to the handler. *)
Fixpoint enumerate {C} (kev : ksymtab_elf) (fn : ptr -> Z -> Z -> C -> M C)
    (ss : list Elf64_Sym) (ctx : C) : M C :=
  match ss with
  | [] => ret ctx
  | s :: ss' =>
      if kept s then
        if st_name s >? ke_strtab_size kev then fail F_name_index
        else if is_null (ptr_add (ke_strtab kev) (st_name s)) then fail F_no_name
        else
          ctx' <- fn (ptr_add (ke_strtab kev) (st_name s)) (st_value s)
                    (sym_binding s) ctx ;;
          enumerate kev fn ss' ctx'
      else enumerate kev fn ss' ctx
  end.

(** The handler called on each element of a list of calls, in order. *)
Fixpoint visit {C} (fn : ptr -> Z -> Z -> C -> M C) (cs : list call) (ctx : C)
  : M C :=
  match cs with
  | [] => ret ctx
  | (name, value, binding) :: cs' =>
      ctx' <- fn name value binding ctx ;; visit fn cs' ctx'
  end.

(** A handler that leaves the heap alone (it may print). *)
Definition keeps_heap {C} (fn : ptr -> Z -> Z -> C -> M C) : Prop :=
  forall name value binding ctx st,
    match fn name value binding ctx st with
    | Ok _ st' => st_heap st' = st_heap st
    | _ => True
    end.

(** A handler that records its calls in the context. *)
Definition record_call (name : ptr) (value binding : Z) (ctx : list call)
  : M (list call) :=
  ret (ctx ++ [(name, value, binding)]).

(** ** The image as the section locator sees it *)

(** Sections on which [gelf_getshdr] and [elf_strptr] succeed. *)
Definition readable (scn : Elf_Scn) : bool :=
  match scn_shdr scn, scn_name scn with
  | Some _, Some _ => true
  | _, _ => false
  end.

(** The first section of a given name, with its header. *)
Fixpoint find_scn (scns : list Elf_Scn) (section : list ascii)
  : option (Elf_Scn * GElf_Shdr) :=
  match scns with
  | [] => None
  | scn :: scns' =>
      match scn_shdr scn, scn_name scn with
      | Some shdr, Some name =>
          if bool_decide (name = section) then Some (scn, shdr)
          else find_scn scns' section
      | _, _ => None
      end
  end.

(** The contents of a named section that has some: not SHT_NOBITS, not
    empty. *)
Definition section_data (img : Elf) (section : list ascii)
  : option (list ascii) :=
  match find_scn (elf_scns img) section with
  | Some (scn, shdr) =>
      if sh_type shdr =? SHT_NOBITS then None
      else match scn_data scn with
           | Some d => if Z.of_nat (length d) =? 0 then None else Some d
           | None => None
           end
  | None => None
  end.

(** The image has no section of that name. *)
Definition lacks (img : Elf) (section : list ascii) : bool :=
  match find_scn (elf_scns img) section with Some _ => false | None => true end.

(** The section is absent, or present with contents. *)
Definition absent_or_loaded (img : Elf) (section : list ascii) : bool :=
  lacks img section ||
  match section_data img section with Some _ => true | None => false end.

(** A 64-bit ELF image on which every libelf call of the reader succeeds. *)
Definition valid_elf64 (img : Elf) : bool :=
  bool_decide (elf_kind img = ELF_K_ELF)
  && match elf_ehdr img with
     | Some ehdr => bool_decide (take SELFMAG (e_ident ehdr) = ELFMAG)
     | None => false
     end
  && (elf_class img =? ELFCLASS64)
  && match elf_shdrstrndx img with Some _ => true | None => false end
  && forallb readable (elf_scns img).

(** The two ways [ksymtab_elf_open] takes an input not to be ELF: the
    kind libelf reports, or the magic bytes of the header. *)
Definition not_elf (img : Elf) : bool :=
  negb (bool_decide (elf_kind img = ELF_K_ELF))
  || match elf_ehdr img with
     | Some ehdr => negb (bool_decide (take SELFMAG (e_ident ehdr) = ELFMAG))
     | None => false
     end.

(** The handle that [ksymtab_elf_open] builds on a valid image. *)
Definition opened_ke (ind : indeterminate) (img : Elf) (fd : addr)
  : ksymtab_elf :=
  {| ke_elf := N.succ fd;
     ke_shstrndx := default 0 (elf_shdrstrndx img);
     ke_strtab :=
       match section_data img STRTAB with
       | Some d => Buf d 0
       | None => ind_strtab ind
       end;
     ke_strtab_size :=
       match section_data img STRTAB with
       | Some d => Z.of_nat (length d)
       | None => ind_strtab_size ind
       end;
     ke_fd := fd |}.

(** The state after [ksymtab_elf_open] on a valid image: descriptor, Elf
    handle and handle structure at the next three addresses. *)
Definition opened_state (ind : indeterminate) (f : file) (img : Elf) (st : state)
  : state :=
  let fd := st_next st in
  {| st_heap := <[N.succ (N.succ fd) := OKe (opened_ke ind img fd)]>
                  (<[N.succ fd := OElf img fd]>
                     (<[fd := OFd f]> (st_heap st)));
     st_next := N.succ (N.succ (N.succ fd));
     st_out := st_out st |}.

(** * Test data *)

(** The section text "foo\0\0bar\0" (9 bytes). *)
Definition blob_foo_bar : list ascii :=
  str "foo" ++ [NUL; NUL] ++ str "bar" ++ [NUL].

(** The registry the splitter builds from it (at address 1, with the
    records at 2 and 3). *)
Definition registry_foo_bar : state :=
  state_of (parse_ksymtab_strings (Buf blob_foo_bar 0) 9 init_state).

(** The same after "foo" was given the link "alias". *)
Definition registry_linked : state :=
  state_of (ksymtab_ksym_set_link 2%N (Buf (str "alias" ++ [NUL]) 0)
              registry_foo_bar).

(** A registry with one record, whose key is the empty string. *)
Definition registry_anon : state :=
  state_of ((tab <- ksymtab_new KSYMTAB_SIZE ;;
             ksymtab_add_sym tab (Buf [NUL] 0) 0 7) init_state).

(** Integers and symbol records as little-endian bytes. *)
Fixpoint bytes_le (n : nat) (z : Z) : list ascii :=
  match n with
  | O => []
  | S n' => ascii_of_N (Z.to_N (z mod 256)) :: bytes_le n' (z / 256)
  end.

Definition ELF64_ST_INFO (bind type : Z) : Z := Z.shiftl bind 4 + Z.land type 15.

Definition Elf64_Sym_bytes (name info other shndx value size : Z) : list ascii :=
  bytes_le 4 name ++ bytes_le 1 info ++ bytes_le 1 other ++ bytes_le 2 shndx
  ++ bytes_le 8 value ++ bytes_le 8 size.

Definition STB_LOCAL : Z := 0.

(** .strtab of the test image: "\0alpha\0beta\0x\0" (14 bytes). *)
Definition strtab_fixture : list ascii :=
  [NUL] ++ str "alpha" ++ [NUL] ++ str "beta" ++ [NUL] ++ str "x" ++ [NUL].

(** .symtab of the test image: the null record, a local "x", a global
    "alpha", a weak "beta" and a global record without a name. *)
Definition symtab_fixture : list ascii :=
  Elf64_Sym_bytes 0 0 0 0 0 0
  ++ Elf64_Sym_bytes 12 (ELF64_ST_INFO STB_LOCAL 1) 0 1 4096 8
  ++ Elf64_Sym_bytes 1 (ELF64_ST_INFO STB_GLOBAL 2) 0 1 8192 16
  ++ Elf64_Sym_bytes 7 (ELF64_ST_INFO STB_WEAK 2) 0 1 12288 16
  ++ Elf64_Sym_bytes 0 (ELF64_ST_INFO STB_GLOBAL 0) 0 1 16384 0.

(** A symbol table whose only named record has st_name = 14, the length
    of [strtab_fixture]. *)
Definition symtab_name_at_end : list ascii :=
  Elf64_Sym_bytes 0 0 0 0 0 0
  ++ Elf64_Sym_bytes 14 (ELF64_ST_INFO STB_GLOBAL 2) 0 1 8192 16.

(** The same with st_name = 15. *)
Definition symtab_name_past_end : list ascii :=
  Elf64_Sym_bytes 0 0 0 0 0 0
  ++ Elf64_Sym_bytes 15 (ELF64_ST_INFO STB_GLOBAL 2) 0 1 8192 16.

(** A section with a readable header, name and data. *)
Definition section (name : list ascii) (type : Z) (data : list ascii) : Elf_Scn :=
  {| scn_shdr := Some {| sh_type := type |};
     scn_name := Some name;
     scn_data := Some data |}.

Definition SHT_PROGBITS : Z := 1.
Definition SHT_SYMTAB : Z := 2.
Definition SHT_STRTAB : Z := 3.

(** A 64-bit ELF image with the given sections. *)
Definition elf64 (scns : list Elf_Scn) : Elf :=
  {| elf_kind := ELF_K_ELF;
     elf_ehdr := Some {| e_ident := ELFMAG ++ [ascii_of_nat 2; ascii_of_nat 1] |};
     elf_class := ELFCLASS64;
     elf_shdrstrndx := Some 4;
     elf_scns := scns |}.

(** An image with all the sections the reader looks for. *)
Definition elf_fixture : Elf :=
  elf64 [section (str ".text") SHT_PROGBITS (str "code");
         section KSYMTAB_STRINGS SHT_PROGBITS
           (str "alpha" ++ [NUL] ++ str "beta" ++ [NUL]);
         section SYMTAB SHT_SYMTAB symtab_fixture;
         section STRTAB SHT_STRTAB strtab_fixture].

(** A 64-bit ELF image without __ksymtab_strings. *)
Definition elf_plain : Elf :=
  elf64 [section (str ".text") SHT_PROGBITS (str "code");
         section SYMTAB SHT_SYMTAB symtab_fixture;
         section STRTAB SHT_STRTAB strtab_fixture].

(** The same, with an empty string table (which the ELF format allows). *)
Definition elf_empty_strtab : Elf :=
  elf64 [section (str ".text") SHT_PROGBITS (str "code");
         section STRTAB SHT_STRTAB []].

(** The same, with a string table stripped to SHT_NOBITS. *)
Definition elf_nobits_strtab : Elf :=
  elf64 [section (str ".text") SHT_PROGBITS (str "code");
         section STRTAB SHT_NOBITS strtab_fixture].

Definition elf_with_symtab (symtab : list ascii) : Elf :=
  elf64 [section KSYMTAB_STRINGS SHT_PROGBITS (str "alpha" ++ [NUL]);
         section SYMTAB SHT_SYMTAB symtab;
         section STRTAB SHT_STRTAB strtab_fixture].

(** A 64-bit ELF image with a symbol table and no .strtab section. *)
Definition elf_no_strtab : Elf :=
  elf64 [section KSYMTAB_STRINGS SHT_PROGBITS (str "alpha" ++ [NUL]);
         section SYMTAB SHT_SYMTAB symtab_fixture].

(** An [ar] archive: readable, but not ELF. *)
Definition ar_fixture : Elf :=
  {| elf_kind := ELF_K_AR; elf_ehdr := None; elf_class := 0;
     elf_shdrstrndx := None; elf_scns := [] |}.

(** An environment with a single file, "module.ko". *)
Definition env_with (e : option Elf) : env :=
  {| env_elf_version := 1;
     env_fs := fun path =>
       if String.eqb path "module.ko" then Some {| file_elf := e |} else None |}.

(** Locals that happen to start out zeroed. *)
Definition no_ind : indeterminate :=
  {| ind_strtab := NULL; ind_strtab_size := 0; ind_data := NULL; ind_size := 0 |}.

(** Stack contents left by whatever ran before: a pointer to unrelated
    bytes and a length. *)
Definition stale_bytes : list ascii := str "AAAAAAA" ++ [NUL] ++ str "BBBB" ++ [NUL].

Definition stale_ind : indeterminate :=
  {| ind_strtab := Buf stale_bytes 0; ind_strtab_size := 4096;
     ind_data := NULL; ind_size := 0 |}.

(** The state after opening an image; the handle is at address 3. *)
Definition opened (img : Elf) (ind : indeterminate) : state :=
  state_of (ksymtab_elf_open (env_with (Some img)) ind "module.ko" init_state).

Definition opened_fixture : state :=
  state_of (ksymtab_elf_open (env_with (Some elf_fixture)) no_ind "module.ko"
              init_state).


(** A 32-bit ELF object. *)
Definition elf32_fixture : Elf :=
  {| elf_kind := ELF_K_ELF;
     elf_ehdr := Some {| e_ident := ELFMAG ++ [ascii_of_nat 1; ascii_of_nat 1] |};
     elf_class := 1;
     elf_shdrstrndx := Some 4;
     elf_scns := [] |}.

(** A 64-bit ELF image whose __ksymtab_strings lacks the final NUL:
    "alpha\0beta". *)
Definition elf_malformed : Elf :=
  elf64 [section KSYMTAB_STRINGS SHT_PROGBITS (str "alpha" ++ [NUL] ++ str "beta");
         section SYMTAB SHT_SYMTAB symtab_fixture;
         section STRTAB SHT_STRTAB strtab_fixture].

(** The same with a __ksymtab_strings that holds no NUL at all. *)
Definition elf_unterminated : Elf :=
  elf64 [section KSYMTAB_STRINGS SHT_PROGBITS (str "alpha");
         section SYMTAB SHT_SYMTAB symtab_fixture;
         section STRTAB SHT_STRTAB strtab_fixture].

(** A registry in which "foo" was inserted, marked, and inserted again:
    the registry is at address 1, the first record at 2, the second,
    which took its place in the hash, at 3. *)
Definition registry_displaced : state :=
  state_of ((tab <- ksymtab_new KSYMTAB_SIZE ;;
             foo <- ksymtab_add_sym tab (Buf (str "foo") 0) 3 0 ;;
             ksymtab_ksym_mark foo ;;;
             ksymtab_add_sym tab (Buf (str "foo") 0) 3 1) init_state).

(** The registry of "foo" and "bar" after "foo" was marked and then
    copied into the registry it is in: the copy, at address 4, took its
    place in the hash. *)
Definition registry_copied : state :=
  state_of ((ksymtab_ksym_mark 2%N ;;; ksymtab_copy_sym 1%N 2%N)
              registry_foo_bar).

(** * Further observations *)

(** A visitor for [ksymtab_for_each] that records the records it is
    given, and one for [ksymtab_for_each_unmarked]. *)
Definition record_visit (ksym : addr) (ctx : list addr) : M (list addr) :=
  ret (ctx ++ [ksym]).

Definition record_unmarked (name : ptr) (idx : Z) (ctx : list (ptr * Z))
  : M (list (ptr * Z)) :=
  ret (ctx ++ [(name, idx)]).

(** The value of the record at an address. *)
Definition value_at (st : state) (a : addr) : Z :=
  match sym_at st a with Some s => ks_value s | None => 0 end.

(** The names and values [ksymtab_for_each_unmarked] hands to its
    visitor for a list of records. *)
Definition unmarked_calls (st : state) (vs : list addr) : list (ptr * Z) :=
  map (fun a => (ksymtab_ksym_get_name a, value_at st a))
    (filter (fun a => is_marked_at st a = false) vs).


(** ** Releasing a registry *)

(** The block a record's link points into, if it has one. *)
Definition link_block (st : state) (a : addr) : list addr :=
  match sym_at st a with
  | Some s => match ks_link s with Heap b _ => [b] | _ => [] end
  | None => []
  end.

(** The blocks [hash_free] releases for the records [vs], in the order
    [ksymtab_ksym_free] releases them. *)
Fixpoint released_by (st : state) (vs : list addr) : list addr :=
  match vs with
  | [] => []
  | a :: vs' => link_block st a ++ a :: released_by st vs'
  end.

(** The blocks [ksymtab_free] releases. *)
Definition released (st : state) (tab : addr) : list addr :=
  match tab_at st tab with
  | Some t => released_by st (hash_iter (kt_hash t)) ++ [tab]
  | None => []
  end.

(** A pointer [free] accepts: NULL or the start of a live block. *)
Definition freeable (st : state) (p : ptr) : bool :=
  match p with
  | Abs a => a =? 0
  | Buf _ _ => false
  | Heap b off => (off =? 0) && bool_decide (is_Some (st_heap st !! b))
  end.

(** What [ksymtab_free] needs: the hash reaches live records whose links
    are null or own a block, and no block is reached twice. *)
Definition free_ready (st : state) (tab : addr) : bool :=
  match tab_at st tab with
  | Some t =>
      forallb (fun a => match sym_at st a with
                        | Some s => freeable st (ks_link s)
                        | None => false
                        end) (hash_iter (kt_hash t))
      && bool_decide (NoDup (released st tab))
  | None => false
  end.

(** A registry at [res] that was built on top of the heap [h0] and owns
    every block above itself: those blocks are exactly its records, each
    under its own name and without a link. *)
Definition built (h0 : gmap addr obj) (res : addr) (st : state) (t : ksymtab)
  : Prop :=
  st_heap st !! res = Some (OTab t) /\
  (res < st_next st)%N /\
  (forall x, (x < res)%N -> st_heap st !! x = h0 !! x) /\
  (forall x, (st_next st <= x)%N -> st_heap st !! x = None) /\
  (forall x, (res < x < st_next st)%N -> exists name, kt_hash t !! name = Some x) /\
  (forall name a, kt_hash t !! name = Some a ->
     (res < a < st_next st)%N /\
     exists s, sym_at st a = Some s /\ c_prefix (ks_key s) = name /\
               ks_link s = NULL).

(** ** Sections *)

(** A section whose header and name can be read and whose name is not
    [section]: the scan of [ksymtab_elf_get_section] steps over it. *)
Definition other_name (section : list ascii) (scn : Elf_Scn) : Prop :=
  is_Some (scn_shdr scn) /\
  exists name, scn_name scn = Some name /\ name <> section.

(** The outcome of a successful [ksymtab_elf_get_section]. *)
Definition section_found (st : state) (ke : addr) (section : list ascii)
    (r : option (ptr * Z)) : Prop :=
  exists kev img fd,
    st_heap st !! ke = Some (OKe kev) /\
    st_heap st !! ke_elf kev = Some (OElf img fd) /\
    match r with
    | None => Forall (other_name section) (elf_scns img)
    | Some (p, size) =>
        exists pre scn post shdr d,
          elf_scns img = pre ++ scn :: post /\
          Forall (other_name section) pre /\
          scn_name scn = Some section /\
          scn_shdr scn = Some shdr /\
          sh_type shdr <> SHT_NOBITS /\
          scn_data scn = Some d /\
          p = Buf d 0 /\
          size = Z.of_nat (length d) /\
          0 < size /\
          load_bytes p size st = Ok d st
    end.

(** ** The extraction as a whole *)

(** The name at the record's index can be read from the string table:
    the index is inside it and a terminator follows. *)
Definition named (strtab : list ascii) (s : Elf64_Sym) : bool :=
  (st_name s <=? Z.of_nat (length strtab))
  && existsb is_nul (drop (Z.to_nat (st_name s)) strtab).

(** The line [symtab_handler] prints for a record. *)
Definition line_of (strtab : list ascii) (s : Elf64_Sym) : line :=
  (c_prefix (drop (Z.to_nat (st_name s)) strtab), st_value s, sym_binding s).

Definition print (ls : list line) (st : state) : state :=
  {| st_heap := st_heap st; st_next := st_next st; st_out := st_out st ++ ls |}.

(** The section text that holds the given names, each followed by its
    terminator. *)
Definition strings_of (es : list (list ascii)) : list ascii :=
  flat_map (fun e => e ++ [NUL]) es.

(** A name as the section holds it: not empty and without NUL. *)
Definition is_name (e : list ascii) : bool :=
  negb (bool_decide (e = [])) && forallb (fun c => negb (is_nul c)) e.

(** The class libelf reports for the file of that name (0 when there is
    no such ELF descriptor). *)
Definition elf_class_of (e : env) (filename : string) : Z :=
  match env_fs e filename with
  | Some f => match file_elf f with Some img => elf_class img | None => 0 end
  | None => 0
  end.

(** A pointer into an object (a section or a heap block), as opposed to
    a bare address. *)
Definition is_object (p : ptr) : bool :=
  match p with Abs _ => false | _ => true end.

(** * Properties *)

(** Boolean comparisons in the hypotheses, as propositions for [lia]. *)
Ltac bool_to_prop :=
  repeat match goal with
  | H : (_ <? _) = true |- _ => apply Z.ltb_lt in H
  | H : (_ <? _) = false |- _ => apply Z.ltb_ge in H
  | H : (_ <=? _) = true |- _ => apply Z.leb_le in H
  | H : (_ <=? _) = false |- _ => apply Z.leb_gt in H
  | H : (_ =? _) = true |- _ => apply Z.eqb_eq in H
  | H : (_ =? _) = false |- _ => apply Z.eqb_neq in H
  | H : (_ >? _) = true |- _ => rewrite Z.gtb_ltb in H
  | H : (_ >? _) = false |- _ => rewrite Z.gtb_ltb in H
  end.

Ltac blia := bool_to_prop; lia.

Lemma bind_cong {A B} (m m' : M A) (k k' : A -> M B) st :
  m st = m' st ->
  (forall a st', m' st = Ok a st' -> k a st' = k' a st') ->
  bind m k st = bind m' k' st.
Proof.
  intros Hm Hk. unfold bind. rewrite Hm.
  destruct (m' st) as [a st'| |]; auto.
Qed.

Lemma load_byte_Buf bs n c st :
  bs !! n = Some c -> load_byte (Buf bs 0) (Z.of_nat n) st = Ok c st.
Proof.
  intros H. unfold load_byte; cbn [chars_of].
  pose proof (lookup_lt_Some _ _ _ H) as Hlt.
  rewrite Z.add_0_l, Nat2Z.id, H.
  destruct (0 <=? Z.of_nat n) eqn:E1; [|lia].
  destruct (Z.of_nat n <? Z.of_nat (length bs)) eqn:E2; [|lia].
  reflexivity.
Qed.

Lemma load_bytes_Buf bs o l st :
  (o + l <= length bs)%nat ->
  load_bytes (Buf bs (Z.of_nat o)) (Z.of_nat l) st = Ok (take l (drop o bs)) st.
Proof.
  intros H. unfold load_bytes; cbn [chars_of].
  rewrite !Nat2Z.id.
  destruct (0 <=? Z.of_nat o) eqn:E1; [|lia].
  destruct (0 <=? Z.of_nat l) eqn:E2; [|lia].
  destruct (Z.of_nat o + Z.of_nat l <=? Z.of_nat (length bs)) eqn:E3; [|lia].
  reflexivity.
Qed.

Lemma ksymtab_add_sym_bytes res p len p' len' v st :
  (forall st', load_bytes p len st' = load_bytes p' len' st') ->
  ksymtab_add_sym res p len v st = ksymtab_add_sym res p' len' v st.
Proof.
  intros H. unfold ksymtab_add_sym, bind.
  destruct (get_tab res st) as [t st'| |]; try reflexivity.
  rewrite H. reflexivity.
Qed.

Lemma spans_from_no_nul cur bs :
  Forall (fun c => is_nul c = false) cur ->
  Forall (Forall (fun c => is_nul c = false)) (spans_from cur bs).
Proof.
  revert cur. induction bs as [|c r IH]; intros cur Hc; simpl; [constructor|].
  destruct (is_nul c) eqn:E.
  - constructor; [exact Hc | apply IH; constructor].
  - apply IH. apply Forall_app; split; [exact Hc | repeat constructor; exact E].
Qed.

Lemma parse_loop_entries res bs : forall fuel n o i,
  (o <= n <= length bs)%nat ->
  (length bs - n <= fuel)%nat ->
  0 <= i <= Z.of_nat o ->
  Z.of_nat (length bs) < 2 ^ 64 ->
  forall st,
  parse_loop fuel res (Buf bs 0) (Z.of_nat (length bs))
    (Z.of_nat n) (Z.of_nat o) i st =
  add_entries res
    (filter (fun s => s ≠ []) (spans_from (take (n - o) (drop o bs)) (drop n bs)))
    i st.
Proof.
  induction fuel as [|fuel IH]; intros n o i Hn Hf Hi Hsz st0.
  - assert (n = length bs) by lia. subst n. simpl.
    destruct (Z.of_nat (length bs) <? Z.of_nat (length bs)) eqn:E; [lia|].
    rewrite drop_all. reflexivity.
  - simpl. destruct (Z.of_nat n <? Z.of_nat (length bs)) eqn:E.
    + assert (Hlt : (n < length bs)%nat) by lia.
      destruct (lookup_lt_is_Some_2 bs n Hlt) as [c Hc].
      rewrite (drop_S _ _ _ Hc). simpl.
      unfold bind at 1. rewrite (load_byte_Buf _ _ _ _ Hc).
      replace (Z.of_nat n + 1) with (Z.of_nat (S n)) by lia.
      destruct (is_nul c) eqn:Enul.
      * destruct (Z.of_nat n - Z.of_nat o =? 0) eqn:Elen.
        -- assert (n = o) by lia. subst o.
           rewrite Nat.sub_diag. simpl.
           rewrite filter_cons_False by (intros H; apply H; reflexivity).
           rewrite IH by lia.
           rewrite Nat.sub_diag. reflexivity.
        -- assert (Hne : take (n - o) (drop o bs) ≠ []).
           { intros H. apply (f_equal length) in H.
             rewrite length_take, length_drop in H. simpl in H. lia. }
           rewrite filter_cons_True by exact Hne.
           cbn [add_entries]. apply bind_cong.
           ++ apply ksymtab_add_sym_bytes. intros st'.
              rewrite Z.add_0_l.
              replace (Z.of_nat n - Z.of_nat o) with (Z.of_nat (n - o)) by lia.
              rewrite load_bytes_Buf by lia.
              rewrite (load_bytes_Buf _ 0).
              2:{ rewrite length_take, length_drop. lia. }
              rewrite drop_0, firstn_all. reflexivity.
           ++ intros _ st1 _.
              assert (Hw : wrap64 (i + 1) = i + 1).
              { unfold wrap64. apply Z.mod_small. lia. }
              rewrite Hw, IH by lia.
              rewrite Nat.sub_diag. reflexivity.
      * rewrite IH by lia.
        replace (S n - o)%nat with (S (n - o)) by lia.
        rewrite (take_S_r _ _ c).
        2:{ rewrite lookup_drop. rewrite <- Hc. f_equal. lia. }
        reflexivity.
    + assert (n = length bs) by lia. subst n.
      rewrite drop_all. reflexivity.
Qed.

Lemma get_tab_run st a t :
  st_heap st !! a = Some (OTab t) -> get_tab a st = Ok t st.
Proof. intros H. unfold get_tab, bind, get_obj. rewrite H. reflexivity. Qed.

Lemma get_sym_run st a s :
  st_heap st !! a = Some (OSym s) -> get_sym a st = Ok s st.
Proof. intros H. unfold get_sym, bind, get_obj. rewrite H. reflexivity. Qed.

Lemma c_prefix_no_nul e r :
  Forall (fun c => is_nul c = false) e -> c_prefix (e ++ NUL :: r) = e.
Proof.
  induction 1 as [|c e Hc _ IH]; simpl.
  - reflexivity.
  - rewrite Hc, IH. reflexivity.
Qed.

Lemma ksymtab_add_sym_run res e i st t :
  st_heap st !! res = Some (OTab t) ->
  ksymtab_add_sym res (Buf e 0) (Z.of_nat (length e)) i st =
  Ok (st_next st) (added res e i t st).
Proof.
  intros H. unfold ksymtab_add_sym.
  unfold bind at 1. rewrite (get_tab_run _ _ _ H).
  unfold bind at 1. rewrite (load_bytes_Buf e 0) by (simpl; lia).
  rewrite drop_0, firstn_all. reflexivity.
Qed.

Lemma view_of_size res st t :
  reaches_syms res st t -> size (view_of st t) = size (kt_hash t).
Proof.
  intros H. rewrite <- !size_dom. f_equal.
  apply set_eq. intros k. rewrite !elem_of_dom.
  unfold view_of. rewrite lookup_omap.
  destruct (kt_hash t !! k) as [a|] eqn:Ea; simpl.
  - destruct (H _ _ Ea) as [_ [s Hs]]. rewrite Hs. simpl.
    split; eauto.
  - split; intros [? ?]; discriminate.
Qed.

Lemma add_entries_view res : forall es i st t,
  st_heap st !! res = Some (OTab t) ->
  (res < st_next st)%N ->
  reaches_syms res st t ->
  Forall (Forall (fun c => is_nul c = false)) es ->
  exists st' t',
    add_entries res es i st = Ok tt st' /\
    st_heap st' !! res = Some (OTab t') /\
    kt_mark_count t' = kt_mark_count t /\
    st_out st' = st_out st /\
    reaches_syms res st' t' /\
    view_of st' t' = index_from es i (view_of st t).
Proof.
  induction es as [|e es IH]; intros i st t Ht Hres Hrange Hes.
  - exists st, t. simpl. auto 10.
  - inversion Hes as [|? ? He Hes']; subst.
    cbn [add_entries index_from]. unfold bind.
    rewrite (ksymtab_add_sym_run _ _ _ _ _ Ht).
    set (st1 := added res e i t st).
    set (t1 := {| kt_hash := hash_add (kt_hash t) (c_prefix (e ++ [NUL]))
                               (st_next st);
                  kt_mark_count := kt_mark_count t |}).
    assert (Ht1 : st_heap st1 !! res = Some (OTab t1)).
    { unfold st1, added; simpl. apply lookup_insert_eq. }
    assert (Hview : view_of st1 t1 = <[e := i]> (view_of st t)).
    { unfold view_of, t1; simpl. unfold hash_add.
      rewrite (c_prefix_no_nul e []) by exact He.
      apply map_eq. intros k. rewrite lookup_omap.
      destruct (decide (k = e)) as [->|Hk].
      - rewrite !lookup_insert_eq. simpl.
        unfold sym_at, st1, added; simpl.
        rewrite lookup_insert_ne by lia.
        rewrite lookup_insert_eq. reflexivity.
      - rewrite !lookup_insert_ne by congruence.
        rewrite lookup_omap.
        destruct (kt_hash t !! k) as [a|] eqn:Ea; simpl; [|reflexivity].
        destruct (Hrange _ _ Ea) as [Hr _].
        unfold sym_at, st1, added; simpl.
        rewrite !lookup_insert_ne by lia. reflexivity. }
    destruct (IH (i + 1) st1 t1) as (st' & t' & Hrun & Ht' & Hmc & Hout & Hr' & Hv).
    + exact Ht1.
    + unfold st1, added; simpl. lia.
    + intros name a. unfold t1, hash_add; simpl.
      rewrite (c_prefix_no_nul e []) by exact He.
      unfold sym_at, st1, added; simpl.
      destruct (decide (name = e)) as [->|Hk].
      * rewrite lookup_insert_eq. intros [= <-].
        rewrite lookup_insert_ne by lia. rewrite lookup_insert_eq.
        split; [lia | eauto].
      * rewrite lookup_insert_ne by congruence. intros Ha.
        destruct (Hrange _ _ Ha) as [Hr Hs].
        rewrite !lookup_insert_ne by lia.
        split; [lia | exact Hs].
    + exact Hes'.
    + exists st', t'. rewrite Hrun, Hv, Hview. auto 10.
Qed.

Lemma index_from_notin es : forall i m e,
  e ∉ es -> index_from es i m !! e = m !! e.
Proof.
  induction es as [|x es IH]; intros i m e Hn; simpl; [reflexivity|].
  rewrite not_elem_of_cons in Hn. destruct Hn as [Hx Hn].
  rewrite IH by exact Hn. apply lookup_insert_ne. congruence.
Qed.

Lemma index_from_lookup es : forall i m k e,
  NoDup es -> es !! k = Some e ->
  index_from es i m !! e = Some (i + Z.of_nat k).
Proof.
  induction es as [|x es IH]; intros i m k e Hnd Hk; [discriminate|].
  inversion Hnd as [|? ? Hx Hnd']; subst. simpl.
  destruct k as [|k]; simpl in Hk.
  - injection Hk as ->. rewrite index_from_notin by exact Hx.
    rewrite lookup_insert_eq. f_equal. lia.
  - rewrite (IH (i + 1) _ k e Hnd' Hk). f_equal. lia.
Qed.

Lemma index_from_size es : forall i m,
  NoDup es -> (forall e, e ∈ es -> m !! e = None) ->
  size (index_from es i m) = (size m + length es)%nat.
Proof.
  induction es as [|x es IH]; intros i m Hnd Hm; simpl; [lia|].
  inversion Hnd as [|? ? Hx Hnd']; subst.
  rewrite IH.
  - rewrite map_size_insert_None by (apply Hm; left). lia.
  - exact Hnd'.
  - intros e He. rewrite lookup_insert_ne.
    + apply Hm. right. exact He.
    + intros ->. contradiction.
Qed.

Lemma parse_ksymtab_strings_run bs st :
  Z.of_nat (length bs) < 2 ^ 64 ->
  last bs = Some NUL ->
  parse_ksymtab_strings (Buf bs 0) (Z.of_nat (length bs)) st =
  (res <- ksymtab_new KSYMTAB_SIZE ;;
   add_entries res (entries bs) 0 ;;;
   ret res) st.
Proof.
  intros Hsz Hlast. unfold parse_ksymtab_strings.
  apply bind_cong; [reflexivity|]. intros res st1 _.
  assert (Hlen : (0 < length bs)%nat).
  { destruct bs; [discriminate | simpl; lia]. }
  assert (Hw : wrap64 (Z.of_nat (length bs) - 1) = Z.of_nat (length bs - 1)).
  { unfold wrap64. rewrite Z.mod_small by lia. lia. }
  rewrite Hw. unfold bind at 1.
  rewrite (load_byte_Buf bs (length bs - 1) NUL).
  2:{ rewrite last_lookup in Hlast. rewrite <- Hlast. f_equal. lia. }
  change (is_nul NUL) with true. cbn [negb].
  apply bind_cong; [|reflexivity].
  rewrite Nat2Z.id.
  rewrite (parse_loop_entries res bs (length bs) 0 0 0) by lia.
  rewrite Nat.sub_0_r, drop_0. reflexivity.
Qed.


(** ** The splitter *)

Lemma entries_no_nul bs :
  Forall (Forall (fun c => is_nul c = false)) (entries bs).
Proof.
  unfold entries, spans. apply Forall_forall. intros e He.
  apply list_elem_of_filter in He as [_ He]. revert e He.
  apply Forall_forall. apply spans_from_no_nul. constructor.
Qed.

Lemma parse_ksymtab_strings_result bs st :
  Z.of_nat (length bs) < 2 ^ 64 ->
  last bs = Some NUL ->
  exists st' t',
    parse_ksymtab_strings (Buf bs 0) (Z.of_nat (length bs)) st =
      Ok (st_next st) st' /\
    st_heap st' !! st_next st = Some (OTab t') /\
    kt_mark_count t' = 0 /\
    st_out st' = st_out st /\
    reaches_syms (st_next st) st' t' /\
    view_of st' t' = index_from (entries bs) 0 ∅.
Proof.
  intros Hsz Hlast.
  rewrite (parse_ksymtab_strings_run bs st Hsz Hlast).
  unfold bind at 1. unfold ksymtab_new, alloc at 1.
  set (t0 := {| kt_hash := hash_new; kt_mark_count := 0 |}).
  set (st1 := {| st_heap := <[st_next st := OTab t0]> (st_heap st);
                 st_next := N.succ (st_next st);
                 st_out := st_out st |}).
  destruct (add_entries_view (st_next st) (entries bs) 0 st1 t0)
    as (st' & t' & Hadd & Ht' & Hmc & Hout & Hreach & Hview).
  - apply lookup_insert_eq.
  - simpl. lia.
  - intros name a Ha. unfold t0, hash_new in Ha. simpl in Ha.
    rewrite lookup_empty in Ha. discriminate.
  - apply entries_no_nul.
  - assert (Hv0 : view_of st1 t0 = ∅).
    { unfold view_of, t0, hash_new. simpl. apply omap_empty. }
    rewrite Hv0 in Hview.
    exists st', t'. unfold bind. rewrite Hadd. auto 10.
Qed.

Lemma parse_ksymtab_strings_returns bs st res st' :
  Z.of_nat (length bs) < 2 ^ 64 ->
  parse_ksymtab_strings (Buf bs 0) (Z.of_nat (length bs)) st = Ok res st' ->
  last bs = Some NUL.
Proof.
  intros Hsz Hrun. destruct (last bs) as [c|] eqn:Hlast.
  - destruct (decide (c = NUL)) as [->|Hc]; [reflexivity|].
    unfold parse_ksymtab_strings in Hrun.
    unfold bind at 1 in Hrun. unfold ksymtab_new, alloc at 1 in Hrun.
    assert (Hlen : (0 < length bs)%nat).
    { destruct bs; [discriminate | simpl; lia]. }
    assert (Hw : wrap64 (Z.of_nat (length bs) - 1) = Z.of_nat (length bs - 1)).
    { unfold wrap64. rewrite Z.mod_small by lia. lia. }
    rewrite Hw in Hrun. unfold bind at 1 in Hrun.
    rewrite (load_byte_Buf bs (length bs - 1) c) in Hrun.
    2:{ rewrite last_lookup in Hlast. rewrite <- Hlast. f_equal. lia. }
    unfold is_nul in Hrun. rewrite bool_decide_eq_false_2 in Hrun by exact Hc.
    cbn [negb] in Hrun. unfold bind, load_cstr in Hrun.
    match type of Hrun with
    | context [cstr_at ?s ?p] => destruct (cstr_at s p); discriminate
    end.
  - apply last_None in Hlast. subst bs. discriminate.
Qed.

(** C1: splitting the section text on NUL bytes emits one record per
    non-empty span ([ksymtab_add_sym] is called once for each, in order),
    keyed by the span's text and valued with a zero-based index that only
    counts emitted entries.  This is so whenever the splitter returns, and
    it returns for every text that ends in NUL; for the 9 bytes of
    "foo\0\0bar\0" the registry holds exactly "foo" with index 0 and
    "bar" with index 1. *)
Theorem parse_ksymtab_strings_entries :
  (forall bs st res st',
     Z.of_nat (length bs) < 2 ^ 64 ->
     parse_ksymtab_strings (Buf bs 0) (Z.of_nat (length bs)) st = Ok res st' ->
     parse_ksymtab_strings (Buf bs 0) (Z.of_nat (length bs)) st =
       (res <- ksymtab_new KSYMTAB_SIZE ;;
        add_entries res (entries bs) 0 ;;;
        ret res) st /\
     registry_view st' res = Some (index_from (entries bs) 0 ∅)) /\
  (forall bs st,
     Z.of_nat (length bs) < 2 ^ 64 ->
     last bs = Some NUL ->
     (0 < st_next st)%N ->
     exists st',
       parse_ksymtab_strings (Buf bs 0) (Z.of_nat (length bs)) st =
         Ok (st_next st) st' /\
       registry_view st' (st_next st) = Some (index_from (entries bs) 0 ∅) /\
       ksymtab_mark_count (st_next st) st' = Ok 0 st' /\
       (NoDup (entries bs) ->
        ksymtab_len (st_next st) st' =
          Ok (Z.of_nat (length (entries bs))) st' /\
        forall k e, entries bs !! k = Some e ->
          index_from (entries bs) 0 ∅ !! e = Some (Z.of_nat k))) /\
  (entries blob_foo_bar = [str "foo"; str "bar"] /\
   exists st',
     parse_ksymtab_strings (Buf blob_foo_bar 0) 9 init_state = Ok 1%N st' /\
     registry_view st' 1%N = Some (<[str "bar" := 1]> (<[str "foo" := 0]> ∅)) /\
     ksymtab_len 1%N st' = Ok 2 st').
Proof.
  split; [|split].
  - intros bs st res st' Hsz Hrun.
    pose proof (parse_ksymtab_strings_returns bs st res st' Hsz Hrun) as Hlast.
    split; [exact (parse_ksymtab_strings_run bs st Hsz Hlast)|].
    destruct (parse_ksymtab_strings_result bs st Hsz Hlast)
      as (st1 & t' & Hrun1 & Ht' & _ & _ & _ & Hview).
    rewrite Hrun1 in Hrun. injection Hrun as <- <-.
    unfold registry_view, tab_at. rewrite Ht'. simpl. congruence.
  - intros bs st Hsz Hlast Hnext.
    destruct (parse_ksymtab_strings_result bs st Hsz Hlast)
      as (st' & t' & Hrun & Ht' & Hmc & _ & Hreach & Hview).
    exists st'. split; [exact Hrun|].
    split; [unfold registry_view, tab_at; rewrite Ht'; simpl; congruence|].
    split.
    { unfold ksymtab_mark_count, bind. rewrite (get_tab_run _ _ _ Ht').
      unfold ret. rewrite Hmc. reflexivity. }
    intros Hnd. split.
    + unfold ksymtab_len.
      destruct (N.eqb_spec (st_next st) 0) as [E|E]; [lia|].
      unfold bind. rewrite (get_tab_run _ _ _ Ht'). unfold ret.
      unfold hash_get_count.
      rewrite <- (view_of_size _ _ _ Hreach), Hview.
      rewrite index_from_size.
      * rewrite map_size_empty. reflexivity.
      * exact Hnd.
      * intros e _. apply lookup_empty.
    + intros k e Hk.
      rewrite (index_from_lookup _ 0 ∅ k e Hnd Hk). reflexivity.
  - split; [vm_compute; reflexivity|].
    destruct (parse_ksymtab_strings (Buf blob_foo_bar 0) 9 init_state)
      as [a st'| |] eqn:E; [|vm_compute in E; discriminate..].
    exists st'.
    assert (E' := E). vm_compute in E'. injection E' as <- <-.
    split; [reflexivity|].
    split; vm_compute; reflexivity.
Qed.

Lemma parse_ksymtab_strings_entries_witness :
  Z.of_nat (length blob_foo_bar) < 2 ^ 64 /\
  last blob_foo_bar = Some NUL /\
  exists st',
    parse_ksymtab_strings (Buf blob_foo_bar 0) 9 init_state = Ok 1%N st' /\
    registry_view st' 1%N = Some (index_from (entries blob_foo_bar) 0 ∅).
Proof.
  split; [vm_compute; reflexivity|].
  split; [reflexivity|].
  destruct (proj1 (proj2 parse_ksymtab_strings_entries) blob_foo_bar init_state)
    as (st' & Hrun & Hview & _).
  - vm_compute. reflexivity.
  - reflexivity.
  - vm_compute. reflexivity.
  - exists st'. split; [exact Hrun | exact Hview].
Defined.

(** C6: the splitter tests the final byte, but the failure it then
    raises formats its message with [%s] from the start of the section.
    A section text that holds a NUL before its last byte stops with the
    "Mallformed __ksymtab_strings section" failure, the freshly created
    registry still empty and no record inserted; a section text that
    holds no NUL at all is read past its end while the message is
    printed, which is undefined behaviour and not that failure. *)
Theorem parse_ksymtab_strings_malformed_read bs c st :
  Z.of_nat (length bs) < 2 ^ 64 ->
  last bs = Some c ->
  c ≠ NUL ->
  parse_ksymtab_strings (Buf bs 0) (Z.of_nat (length bs)) st =
    if existsb is_nul bs then
      Fatal F_malformed_strings
        {| st_heap := <[st_next st := OTab {| kt_hash := ∅; kt_mark_count := 0 |}]>
                        (st_heap st);
           st_next := N.succ (st_next st);
           st_out := st_out st |}
    else Undef.
Proof.
  intros Hsz Hlast Hc. unfold parse_ksymtab_strings.
  unfold bind at 1. unfold ksymtab_new, alloc at 1.
  assert (Hlen : (0 < length bs)%nat).
  { destruct bs; [discriminate | simpl; lia]. }
  assert (Hw : wrap64 (Z.of_nat (length bs) - 1) = Z.of_nat (length bs - 1)).
  { unfold wrap64. rewrite Z.mod_small by lia. lia. }
  rewrite Hw. unfold bind at 1.
  rewrite (load_byte_Buf bs (length bs - 1) c).
  2:{ rewrite last_lookup in Hlast. rewrite <- Hlast. f_equal. lia. }
  unfold is_nul at 1. rewrite bool_decide_eq_false_2 by exact Hc.
  cbn [negb]. unfold bind, load_cstr, cstr_at. cbn [chars_of Z.leb Z.compare Z.to_nat].
  rewrite drop_0. unfold c_str.
  destruct (existsb is_nul bs); reflexivity.
Qed.

Lemma parse_ksymtab_strings_malformed_read_witness :
  parse_ksymtab_strings (Buf (str "foo") 0) 3 init_state = Undef /\
  parse_ksymtab_strings (Buf (str "foo" ++ [NUL] ++ str "bar") 0) 7 init_state =
    Fatal F_malformed_strings
      {| st_heap := <[1%N := OTab {| kt_hash := ∅; kt_mark_count := 0 |}]> ∅;
         st_next := 2%N;
         st_out := [] |}.
Proof.
  split.
  - apply (parse_ksymtab_strings_malformed_read (str "foo") "o"%char init_state).
    + vm_compute. reflexivity.
    + reflexivity.
    + discriminate.
  - apply (parse_ksymtab_strings_malformed_read
             (str "foo" ++ [NUL] ++ str "bar") "r"%char init_state).
    + vm_compute. reflexivity.
    + reflexivity.
    + discriminate.
Defined.

(** ** Marking a record *)

Lemma registry_ok_spec st tab :
  registry_ok st tab = true <->
  exists t, tab_at st tab = Some t /\
    (forall name a, kt_hash t !! name = Some a ->
       record_ok tab st name a = true) /\
    Z.of_nat (size (kt_hash t)) < 2 ^ 64 /\
    (tab < st_next st)%N.
Proof.
  unfold registry_ok. destruct (tab_at st tab) as [t|].
  - rewrite !andb_true_iff, forallb_forall, Z.ltb_lt, N.ltb_lt.
    split.
    + intros [[H1 H2] H3]. exists t. repeat split; try assumption.
      intros name a Ha. apply (H1 (name, a)).
      apply list_elem_of_In, elem_of_map_to_list. exact Ha.
    + intros (t' & [= <-] & H1 & H2 & H3). repeat split; try assumption.
      intros [name a] Hin. apply H1.
      apply list_elem_of_In, elem_of_map_to_list in Hin. exact Hin.
  - split; [discriminate | intros (t & H & _); discriminate].
Qed.

Lemma record_ok_spec tab st name a :
  record_ok tab st name a = true <->
  exists s, sym_at st a = Some s /\ ks_ksymtab s = tab /\
    c_prefix (ks_key s) = name /\ (a < st_next st)%N.
Proof.
  unfold record_ok. destruct (sym_at st a) as [s|].
  - rewrite !andb_true_iff, N.eqb_eq, bool_decide_eq_true, N.ltb_lt.
    split.
    + intros [[H1 H2] H3]. exists s. auto.
    + intros (s' & [= <-] & H1 & H2 & H3). auto.
  - split; [discriminate | intros (s & H & _); discriminate].
Qed.

Lemma is_record_spec st tab a :
  is_record st tab a = true <->
  exists t name, tab_at st tab = Some t /\ kt_hash t !! name = Some a.
Proof.
  unfold is_record. destruct (tab_at st tab) as [t|].
  - rewrite existsb_exists. split.
    + intros ([name a'] & Hin & Heq). apply N.eqb_eq in Heq. simpl in Heq.
      subst a'. apply list_elem_of_In, elem_of_map_to_list in Hin. eauto.
    + intros (t' & name & [= <-] & Ha). exists (name, a). split.
      * apply list_elem_of_In, elem_of_map_to_list. exact Ha.
      * apply N.eqb_refl.
  - split; [discriminate | intros (t & name & H & _); discriminate].
Qed.

Lemma sym_at_Some st a s :
  sym_at st a = Some s <-> st_heap st !! a = Some (OSym s).
Proof.
  unfold sym_at. destruct (st_heap st !! a) as [[]|]; split; congruence.
Qed.

Lemma tab_at_Some st a t :
  tab_at st a = Some t <-> st_heap st !! a = Some (OTab t).
Proof.
  unfold tab_at. destruct (st_heap st !! a) as [[]|]; split; congruence.
Qed.

Lemma ksymtab_ksym_mark_unmarked_run st tab a t s :
  tab_at st tab = Some t ->
  sym_at st a = Some s ->
  ks_ksymtab s = tab ->
  ks_mark s = false ->
  ksymtab_ksym_mark a st = Ok tt (marked_state tab a t s st).
Proof.
  intros Ht Hs Hown Hm. unfold ksymtab_ksym_mark.
  unfold bind at 1. rewrite (get_sym_run st a s) by (apply sym_at_Some; exact Hs).
  rewrite Hm, Hown. cbn [negb].
  unfold bind at 1. unfold bind at 1.
  rewrite (get_tab_run st tab t) by (apply tab_at_Some; exact Ht).
  reflexivity.
Qed.

Lemma ksymtab_ksym_mark_marked_run st a s :
  sym_at st a = Some s ->
  ks_mark s = true ->
  ksymtab_ksym_mark a st = Ok tt st.
Proof.
  intros Hs Hm. unfold ksymtab_ksym_mark.
  unfold bind at 1. rewrite (get_sym_run st a s) by (apply sym_at_Some; exact Hs).
  rewrite Hm. cbn [negb]. unfold bind, ret, put_obj, set_heap.
  f_equal. destruct st as [h n o]. simpl. f_equal.
  apply insert_id. apply sym_at_Some in Hs. simpl in Hs. rewrite Hs.
  destruct s; unfold set_mark; simpl in *; subst; reflexivity.
Qed.

Section MarkStep.
Variables (st : state) (tab a : addr) (t : ksymtab) (s : ksym).
Variable (name : list ascii).
Hypothesis Hok : registry_ok st tab = true.
Hypothesis Ht : tab_at st tab = Some t.
Hypothesis Ha : kt_hash t !! name = Some a.
Hypothesis Hs : sym_at st a = Some s.

Local Abbreviation st' := (marked_state tab a t s st).
Local Abbreviation t' := (marked_tab t).

Lemma marked_state_neq : a ≠ tab.
Proof.
  intros ->. apply sym_at_Some in Hs. apply tab_at_Some in Ht. congruence.
Qed.

Lemma marked_state_tab : tab_at st' tab = Some t'.
Proof.
  apply tab_at_Some. unfold marked_state, set_heap; simpl.
  rewrite lookup_insert_ne by apply marked_state_neq.
  apply lookup_insert_eq.
Qed.

Lemma marked_state_sym x :
  sym_at st' x = if decide (x = a) then Some (set_mark true s) else sym_at st x.
Proof.
  unfold sym_at at 1, marked_state, set_heap; simpl.
  case_decide as Hx.
  - subst x. rewrite lookup_insert_eq. reflexivity.
  - rewrite lookup_insert_ne by congruence.
    destruct (decide (x = tab)) as [->|Hx'].
    + rewrite lookup_insert_eq. unfold sym_at.
      apply tab_at_Some in Ht. rewrite Ht. reflexivity.
    + rewrite lookup_insert_ne by congruence. reflexivity.
Qed.

Lemma marked_state_is_marked x :
  is_marked_at st' x = if decide (x = a) then true else is_marked_at st x.
Proof.
  unfold is_marked_at. rewrite marked_state_sym.
  case_decide; reflexivity.
Qed.

Lemma registry_name_of_addr name' :
  kt_hash t !! name' = Some a -> name' = name.
Proof.
  intros Ha'. apply registry_ok_spec in Hok as (t0 & Ht0 & Hrec & _).
  rewrite Ht in Ht0. injection Ht0 as <-.
  apply Hrec, record_ok_spec in Ha as (s1 & Hs1 & _ & Hk1 & _).
  apply Hrec, record_ok_spec in Ha' as (s2 & Hs2 & _ & Hk2 & _).
  congruence.
Qed.

Lemma marked_state_ok : registry_ok st' tab = true.
Proof.
  apply registry_ok_spec. exists t'. split; [apply marked_state_tab|].
  apply registry_ok_spec in Hok as (t0 & Ht0 & Hrec & Hsz & Hlt).
  rewrite Ht in Ht0. injection Ht0 as <-.
  split; [|split; [exact Hsz | exact Hlt]].
  intros name' x Hx. simpl in Hx.
  apply Hrec, record_ok_spec in Hx as (sx & Hsx & Hown & Hkey & Hb).
  apply record_ok_spec. rewrite marked_state_sym.
  case_decide as Hxa.
  - subst x. rewrite Hs in Hsx. injection Hsx as <-.
    exists (set_mark true s). auto.
  - exists sx. auto.
Qed.

Lemma marked_state_count :
  ks_mark s = false ->
  marked_records st' t' = S (marked_records st t).
Proof.
  intros Hm. unfold marked_records. simpl.
  rewrite <- (insert_delete_id (kt_hash t) name a Ha).
  rewrite map_filter_insert_True.
  2:{ simpl. rewrite marked_state_is_marked. rewrite decide_True; auto. }
  rewrite map_filter_insert_False.
  2:{ simpl. unfold is_marked_at. rewrite Hs, Hm. discriminate. }
  rewrite delete_delete_eq.
  rewrite map_size_insert_None.
  2:{ apply map_lookup_filter_None. left. apply lookup_delete_eq. }
  f_equal. f_equal. apply map_filter_ext.
  intros name' x Hx. simpl.
  apply lookup_delete_Some in Hx as [Hne Hx].
  rewrite marked_state_is_marked. case_decide as Hxa; [|reflexivity].
  subst x. apply registry_name_of_addr in Hx. congruence.
Qed.

Lemma marked_state_mark_count :
  ks_mark s = false ->
  mark_count_ok st tab = true ->
  mark_count_ok st' tab = true /\
  kt_mark_count t' = kt_mark_count t + 1.
Proof.
  intros Hm Hmc. unfold mark_count_ok in *.
  rewrite marked_state_tab. rewrite Ht in Hmc.
  apply Z.eqb_eq in Hmc.
  pose proof (marked_state_count Hm) as Hc.
  assert (Hle : (marked_records st' t' <= size (kt_hash t))%nat).
  { unfold marked_records. apply map_size_filter. }
  apply registry_ok_spec in Hok as (t0 & Ht0 & _ & Hsz & _).
  rewrite Ht in Ht0. injection Ht0 as <-.
  assert (Hw : wrap64 (kt_mark_count t + 1) = kt_mark_count t + 1).
  { unfold wrap64. apply Z.mod_small. lia. }
  split.
  - apply Z.eqb_eq. simpl. rewrite Hw, Hc, Hmc. lia.
  - simpl. exact Hw.
Qed.
End MarkStep.

Lemma ksymtab_mark_count_run st tab t :
  tab_at st tab = Some t ->
  ksymtab_mark_count tab st = Ok (kt_mark_count t) st.
Proof.
  intros Ht. unfold ksymtab_mark_count, bind.
  rewrite (get_tab_run st tab t) by (apply tab_at_Some; exact Ht).
  reflexivity.
Qed.

Lemma counts_marked_spec st tab :
  is_Some (tab_at st tab) ->
  counts_marked st tab <-> mark_count_ok st tab = true.
Proof.
  intros [t Ht]. unfold counts_marked, mark_count_ok, number_marked.
  rewrite (ksymtab_mark_count_run _ _ _ Ht), Ht, Z.eqb_eq.
  split; [intros [= ->]; reflexivity | intros ->; reflexivity].
Qed.

Lemma ksymtab_ksym_mark_step st tab a :
  registry_ok st tab = true ->
  counts_marked st tab ->
  is_record st tab a = true ->
  exists st',
    ksymtab_ksym_mark a st = Ok tt st' /\
    registry_ok st' tab = true /\
    counts_marked st' tab /\
    (forall x, is_record st' tab x = is_record st tab x) /\
    (forall x, is_marked_at st' x =
               if decide (x = a) then true else is_marked_at st x) /\
    (is_marked_at st a = false ->
     forall n, ksymtab_mark_count tab st = Ok n st ->
               ksymtab_mark_count tab st' = Ok (n + 1) st') /\
    (is_marked_at st a = true -> st' = st).
Proof.
  intros Hok Hcnt Hrec.
  apply is_record_spec in Hrec as (t & name & Ht & Ha).
  pose proof Hok as Hok'.
  apply registry_ok_spec in Hok' as (t0 & Ht0 & Hrecs & Hsz & Hlt).
  rewrite Ht in Ht0. injection Ht0 as <-.
  pose proof (Hrecs _ _ Ha) as Hr.
  apply record_ok_spec in Hr as (s & Hs & Hown & Hkey & Hb).
  apply counts_marked_spec in Hcnt; [|eauto].
  destruct (ks_mark s) eqn:Hm.
  - exists st. split; [apply (ksymtab_ksym_mark_marked_run st a s Hs Hm)|].
    split; [exact Hok|].
    split; [apply counts_marked_spec; eauto|].
    split; [reflexivity|].
    split.
    { intros x. case_decide as Hx; [|reflexivity]. subst x.
      unfold is_marked_at. rewrite Hs. exact Hm. }
    split; [|reflexivity].
    unfold is_marked_at. rewrite Hs, Hm. discriminate.
  - exists (marked_state tab a t s st).
    split; [apply ksymtab_ksym_mark_unmarked_run; assumption|].
    pose proof (marked_state_tab st tab a t s name Ht Ha Hs) as Ht'.
    destruct (marked_state_mark_count st tab a t s name Hok Ht Ha Hs Hm Hcnt)
      as [Hcnt' Hinc].
    split; [apply (marked_state_ok st tab a t s name Hok Ht Ha Hs)|].
    split; [apply counts_marked_spec; eauto|].
    split.
    { intros x. unfold is_record. rewrite Ht', Ht. reflexivity. }
    split; [apply (marked_state_is_marked st tab a t s Ht)|].
    split.
    + intros _ n Hn. rewrite (ksymtab_mark_count_run _ _ _ Ht) in Hn.
      injection Hn as <-.
      rewrite (ksymtab_mark_count_run _ _ _ Ht'). f_equal. exact Hinc.
    + unfold is_marked_at. rewrite Hs, Hm. discriminate.
Qed.


(** ** Building a registry *)

Lemma ksymtab_add_sym_loaded st tab t p len bs v :
  tab_at st tab = Some t ->
  load_bytes p len st = Ok bs st ->
  ksymtab_add_sym tab p len v st = Ok (st_next st) (added tab bs v t st).
Proof.
  intros Ht Hl. unfold ksymtab_add_sym.
  unfold bind at 1. rewrite (get_tab_run st tab t) by (apply tab_at_Some; exact Ht).
  unfold bind at 1. rewrite Hl. reflexivity.
Qed.

Lemma ksymtab_new_ok size st :
  exists st',
    ksymtab_new size st = Ok (st_next st) st' /\
    registry_ok st' (st_next st) = true /\
    counts_marked st' (st_next st) /\
    ksymtab_len (st_next st) st' = Ok (if (st_next st =? 0)%N then 0 else 0) st'.
Proof.
  unfold ksymtab_new, alloc. eexists. split; [reflexivity|].
  assert (Ht : tab_at
            {| st_heap := <[st_next st := OTab {| kt_hash := hash_new;
                                                  kt_mark_count := 0 |}]>
                            (st_heap st);
               st_next := N.succ (st_next st);
               st_out := st_out st |} (st_next st)
          = Some {| kt_hash := hash_new; kt_mark_count := 0 |}).
  { apply tab_at_Some. apply lookup_insert_eq. }
  split.
  { apply registry_ok_spec. eexists. split; [exact Ht|].
    split; [|split].
    - intros name a Ha. unfold hash_new in Ha. simpl in Ha.
      rewrite lookup_empty in Ha. discriminate.
    - unfold hash_new. simpl. rewrite map_size_empty. reflexivity.
    - simpl. lia. }
  split.
  { unfold counts_marked, number_marked.
    rewrite (ksymtab_mark_count_run _ _ _ Ht), Ht.
    unfold marked_records, hash_new. simpl.
    rewrite map_filter_empty, map_size_empty. reflexivity. }
  unfold ksymtab_len.
  destruct (st_next st =? 0)%N; [reflexivity|].
  unfold bind. rewrite (get_tab_run _ _ _ (proj1 (tab_at_Some _ _ _) Ht)).
  unfold hash_get_count, hash_new. simpl. rewrite map_size_empty. reflexivity.
Qed.

Section AddSym.
Variables (st : state) (tab : addr) (t : ksymtab).
Variables (bs : list ascii) (v : Z).
Hypothesis Hok : registry_ok st tab = true.
Hypothesis Ht : tab_at st tab = Some t.
Hypothesis Hold : forall old,
  kt_hash t !! c_prefix (bs ++ [NUL]) = Some old -> is_marked_at st old = false.

Local Abbreviation st' := (added tab bs v t st).
Local Abbreviation key := (c_prefix (bs ++ [NUL])).
Local Abbreviation new_tab :=
  {| kt_hash := hash_add (kt_hash t) key (st_next st);
     kt_mark_count := kt_mark_count t |}.

Lemma added_tab : tab_at st' tab = Some new_tab.
Proof. apply tab_at_Some. apply lookup_insert_eq. Qed.

Lemma added_sym_old a :
  (a < st_next st)%N ->
  sym_at st' a = sym_at st a.
Proof.
  intros Ha. unfold sym_at, added. cbn [st_heap].
  destruct (decide (a = tab)) as [->|Hne].
  - rewrite lookup_insert_eq. apply tab_at_Some in Ht. rewrite Ht. reflexivity.
  - rewrite lookup_insert_ne by congruence.
    rewrite lookup_insert_ne by lia. reflexivity.
Qed.

Lemma added_sym_new :
  sym_at st' (st_next st) =
  Some {| ks_value := v; ks_mark := false; ks_link := NULL;
          ks_ksymtab := tab; ks_key := bs ++ [NUL] |}.
Proof.
  apply registry_ok_spec in Hok as (t0 & Ht0 & _ & _ & Hlt).
  apply sym_at_Some. unfold added. cbn [st_heap].
  rewrite lookup_insert_ne by lia. apply lookup_insert_eq.
Qed.

Lemma added_ok :
  Z.of_nat (size (kt_hash t)) + 1 < 2 ^ 64 ->
  registry_ok st' tab = true.
Proof.
  intros Hsz.
  pose proof Hok as Hok'.
  apply registry_ok_spec in Hok' as (t0 & Ht0 & Hrec & _ & Hlt).
  rewrite Ht in Ht0. injection Ht0 as <-.
  apply registry_ok_spec. exists new_tab. split; [apply added_tab|].
  split; [|split].
  - intros name a. cbn [kt_hash]. unfold hash_add.
    destruct (decide (name = key)) as [->|Hne].
    + rewrite lookup_insert_eq. intros [= <-].
      apply record_ok_spec. eexists. split; [apply added_sym_new|].
      cbn [ks_ksymtab ks_key added st_next]. repeat split. lia.
    + rewrite lookup_insert_ne by congruence. intros Ha.
      apply Hrec, record_ok_spec in Ha as (s & Hs & Hown & Hkey & Hb).
      apply record_ok_spec. exists s. rewrite added_sym_old by exact Hb.
      cbn [added st_next]. repeat split; try assumption. lia.
  - cbn [kt_hash]. unfold hash_add.
    pose proof (map_size_insert key (st_next st) (kt_hash t)) as Hi.
    rewrite Hi. destruct (kt_hash t !! key); unfold id; lia.
  - cbn [added st_next]. lia.
Qed.

Lemma added_marked_records :
  marked_records st' new_tab = marked_records st t.
Proof.
  pose proof Hok as Hok'.
  apply registry_ok_spec in Hok' as (t0 & Ht0 & Hrec & _ & Hlt).
  rewrite Ht in Ht0. injection Ht0 as <-.
  unfold marked_records. cbn [kt_hash]. unfold hash_add.
  rewrite map_filter_insert_False.
  2:{ cbn [snd]. unfold is_marked_at. rewrite added_sym_new. discriminate. }
  f_equal. apply map_filter_strong_ext_1. intros name a. cbn [snd].
  split.
  - intros [Hm Ha]. apply lookup_delete_Some in Ha as [Hne Ha].
    split; [|exact Ha].
    apply Hrec, record_ok_spec in Ha as (s & _ & _ & _ & Hb).
    unfold is_marked_at in *. rewrite added_sym_old in Hm by exact Hb. exact Hm.
  - intros [Hm Ha].
    assert (Hne : key ≠ name).
    { intros <-. rewrite (Hold _ Ha) in Hm. discriminate. }
    split; [|apply lookup_delete_Some; auto].
    apply Hrec, record_ok_spec in Ha as (s & _ & _ & _ & Hb).
    unfold is_marked_at in *. rewrite added_sym_old by exact Hb. exact Hm.
Qed.

Lemma added_counts :
  counts_marked st tab -> counts_marked st' tab.
Proof.
  unfold counts_marked, number_marked.
  rewrite (ksymtab_mark_count_run _ _ _ Ht), Ht.
  rewrite (ksymtab_mark_count_run _ _ _ added_tab), added_tab.
  rewrite added_marked_records. cbn [kt_mark_count].
  intros [= ->]. reflexivity.
Qed.
End AddSym.

(** ** The mark count invariant *)

(** C2 as stated fails: the equality does not hold for every registry.
    Inserting a name again displaces the record the hash held for it; if
    that record was marked, the mark count keeps counting it.  After
    "foo" was inserted, marked and inserted again, the registry is well
    formed and holds one record, unmarked, while the mark count is 1;
    marking the record makes it 2.  The same happens when a marked
    record is copied into its own registry with [ksymtab_copy_sym]:
    marking all records then gives a mark count of 3 for 2 records. *)
Lemma ksymtab_mark_count_displaced :
  registry_ok registry_displaced 1%N = true /\
  ksymtab_len 1%N registry_displaced = Ok 1 registry_displaced /\
  is_record registry_displaced 1%N 3%N = true /\
  ksymtab_ksym_is_marked 3%N registry_displaced = Ok false registry_displaced /\
  number_marked registry_displaced 1%N = 0%nat /\
  ksymtab_mark_count 1%N registry_displaced = Ok 1 registry_displaced /\
  ~ counts_marked registry_displaced 1%N /\
  (exists st',
     ksymtab_ksym_mark 3%N registry_displaced = Ok tt st' /\
     number_marked st' 1%N = 1%nat /\
     ksymtab_mark_count 1%N st' = Ok 2 st' /\
     ~ counts_marked st' 1%N) /\
  registry_ok registry_copied 1%N = true /\
  (exists st',
     mark_all [3%N; 4%N] registry_copied = Ok tt st' /\
     ksymtab_len 1%N st' = Ok 2 st' /\
     number_marked st' 1%N = 2%nat /\
     ksymtab_mark_count 1%N st' = Ok 3 st').
Proof.
  split; [vm_compute; reflexivity|].
  split; [vm_compute; reflexivity|].
  split; [vm_compute; reflexivity|].
  split; [vm_compute; reflexivity|].
  split; [vm_compute; reflexivity|].
  split; [vm_compute; reflexivity|].
  split; [vm_compute; discriminate|].
  split.
  { eexists. split; [vm_compute; reflexivity|].
    split; [vm_compute; reflexivity|].
    split; [vm_compute; reflexivity|].
    vm_compute. discriminate. }
  split; [vm_compute; reflexivity|].
  eexists. split; [vm_compute; reflexivity|].
  split; [vm_compute; reflexivity|].
  split; vm_compute; reflexivity.
Qed.

(** C2 (amended): the mark count of a registry equals the number of its
    marked records when the registry is created, stays so when a record
    is inserted that displaces no marked record, and, in a registry in
    which it holds, stays so under any sequence of marks of its records,
    during which it never decreases; marking an unmarked record sets its
    flag and adds one to the count, marking a marked record changes
    nothing at all. *)
Theorem ksymtab_ksym_mark_count_invariant :
  (forall size st,
     exists st',
       ksymtab_new size st = Ok (st_next st) st' /\
       registry_ok st' (st_next st) = true /\
       counts_marked st' (st_next st)) /\
  (forall st tab t p len bs v,
     registry_ok st tab = true ->
     counts_marked st tab ->
     tab_at st tab = Some t ->
     load_bytes p len st = Ok bs st ->
     (forall old, kt_hash t !! c_prefix (bs ++ [NUL]) = Some old ->
                  is_marked_at st old = false) ->
     Z.of_nat (size (kt_hash t)) + 1 < 2 ^ 64 ->
     exists new st',
       ksymtab_add_sym tab p len v st = Ok new st' /\
       registry_ok st' tab = true /\
       counts_marked st' tab /\
       is_marked_at st' new = false) /\
  (forall st tab,
     registry_ok st tab = true ->
     counts_marked st tab ->
     (forall a, is_record st tab a = true ->
        exists st',
          ksymtab_ksym_mark a st = Ok tt st' /\
          registry_ok st' tab = true /\
          counts_marked st' tab /\
          is_marked_at st' a = true /\
          (is_marked_at st a = false ->
           forall n, ksymtab_mark_count tab st = Ok n st ->
                     ksymtab_mark_count tab st' = Ok (n + 1) st') /\
          (is_marked_at st a = true -> st' = st)) /\
     (forall marks, forallb (is_record st tab) marks = true ->
        exists st',
          mark_all marks st = Ok tt st' /\
          registry_ok st' tab = true /\
          counts_marked st' tab /\
          (forall x, is_marked_at st x = true -> is_marked_at st' x = true) /\
          (number_marked st tab <= number_marked st' tab)%nat)).
Proof.
  split.
  { intros size st. destruct (ksymtab_new_ok size st) as (st' & H1 & H2 & H3 & _).
    eauto. }
  split.
  { intros st tab t p len bs v Hok Hcnt Ht Hl Hold Hsz.
    exists (st_next st), (added tab bs v t st).
    split; [apply ksymtab_add_sym_loaded; assumption|].
    split; [apply added_ok; assumption|].
    split; [apply added_counts; assumption|].
    unfold is_marked_at. erewrite added_sym_new by eassumption. reflexivity. }
  intros st tab Hok Hcnt. split.
  - intros a Ha.
    destruct (ksymtab_ksym_mark_step st tab a Hok Hcnt Ha)
      as (st' & Hrun & Hok' & Hcnt' & _ & Hmk & Hinc & Hid).
    exists st'. repeat split; try assumption.
    rewrite Hmk, decide_True; reflexivity.
  - intros marks. revert st Hok Hcnt.
    induction marks as [|a marks IH]; intros st Hok Hcnt Hall.
    + exists st. simpl. repeat split; auto.
    + simpl in Hall. apply andb_true_iff in Hall as [Ha Hall].
      destruct (ksymtab_ksym_mark_step st tab a Hok Hcnt Ha)
        as (st1 & Hrun & Hok1 & Hcnt1 & Hrec1 & Hmk & Hinc & Hid).
      destruct (IH st1 Hok1 Hcnt1) as (st' & Hrun' & Hok' & Hcnt' & Hmono & Hle).
      { rewrite forallb_forall in *. intros x Hx. rewrite Hrec1. auto. }
      exists st'. cbn [mark_all]. unfold bind. rewrite Hrun.
      split; [exact Hrun'|]. split; [exact Hok'|]. split; [exact Hcnt'|].
      split.
      * intros x Hx. apply Hmono. rewrite Hmk.
        case_decide; [reflexivity | exact Hx].
      * etransitivity; [|exact Hle].
        destruct (is_marked_at st a) eqn:Hm.
        -- rewrite (Hid eq_refl). reflexivity.
        -- specialize (Hinc eq_refl).
           unfold counts_marked in Hcnt, Hcnt1.
           specialize (Hinc _ Hcnt). rewrite Hinc in Hcnt1.
           injection Hcnt1 as Heq. lia.
Qed.

Lemma ksymtab_ksym_mark_count_invariant_witness :
  registry_ok registry_foo_bar 1%N = true /\
  counts_marked registry_foo_bar 1%N /\
  forallb (is_record registry_foo_bar 1%N) [2%N; 3%N; 2%N] = true /\
  exists st',
    mark_all [2%N; 3%N; 2%N] registry_foo_bar = Ok tt st' /\
    registry_ok st' 1%N = true /\
    counts_marked st' 1%N /\
    (forall x, is_marked_at registry_foo_bar x = true ->
               is_marked_at st' x = true) /\
    (number_marked registry_foo_bar 1%N <= number_marked st' 1%N)%nat.
Proof.
  split; [vm_compute; reflexivity|].
  split; [vm_compute; reflexivity|].
  split; [vm_compute; reflexivity|].
  apply (proj2 (proj2 (proj2 ksymtab_ksym_mark_count_invariant)
                  registry_foo_bar 1%N
                  ltac:(vm_compute; reflexivity)
                  ltac:(vm_compute; reflexivity))
           [2%N; 3%N; 2%N]).
  vm_compute. reflexivity.
Defined.

(** ** Duplicating a record *)

Lemma c_prefix_take bs :
  existsb is_nul bs = true ->
  take (length (c_prefix bs)) bs = c_prefix bs /\
  (length (c_prefix bs) < length bs)%nat.
Proof.
  induction bs as [|c r IH]; simpl; [discriminate|].
  destruct (is_nul c) eqn:E; simpl.
  - intros _. split; [reflexivity | lia].
  - intros H. destruct (IH H) as [H1 H2]. rewrite H1. split; [reflexivity | lia].
Qed.

Lemma c_prefix_terminated bs : c_prefix (c_prefix bs ++ [NUL]) = c_prefix bs.
Proof.
  induction bs as [|c r IH]; simpl; [reflexivity|].
  destruct (is_nul c) eqn:E; simpl; [reflexivity|].
  rewrite E, IH. reflexivity.
Qed.

Lemma existsb_is_nul_terminated bs : existsb is_nul (bs ++ [NUL]) = true.
Proof. rewrite existsb_app. simpl. apply orb_true_r. Qed.

Lemma heap_bounded_spec st a :
  heap_bounded st = true -> is_Some (st_heap st !! a) -> (a < st_next st)%N.
Proof.
  unfold heap_bounded. rewrite forallb_forall. intros H [o Ho].
  apply N.ltb_lt. apply (H (a, o)).
  apply list_elem_of_In, elem_of_map_to_list. exact Ho.
Qed.

Lemma copy_ready_spec st tab src :
  copy_ready st tab src = true ->
  exists s t,
    sym_at st src = Some s /\ tab_at st tab = Some t /\
    heap_bounded st = true /\
    (src < st_next st)%N /\ (tab < st_next st)%N /\
    existsb is_nul (ks_key s) = true /\ link_ready st (ks_link s) = true.
Proof.
  unfold copy_ready.
  destruct (sym_at st src) as [s|] eqn:Hs; [|discriminate].
  destruct (tab_at st tab) as [t|] eqn:Ht; [|discriminate].
  rewrite !andb_true_iff. intros [[H1 H3] H4].
  exists s, t. repeat split; try assumption.
  - apply heap_bounded_spec; [exact H1|].
    apply sym_at_Some in Hs. eauto.
  - apply heap_bounded_spec; [exact H1|].
    apply tab_at_Some in Ht. eauto.
Qed.

Lemma link_ready_spec st p :
  link_ready st p = true ->
  p = NULL \/
  exists b bs, p = Heap b 0 /\ (b < st_next st)%N /\
    st_heap st !! b = Some (OStr bs) /\ existsb is_nul bs = true.
Proof.
  destruct p as [a|bs off|b off]; simpl; [|discriminate|].
  - rewrite Z.eqb_eq. intros ->. left. reflexivity.
  - rewrite !andb_true_iff, Z.eqb_eq, N.ltb_lt. intros [[-> Hb] H].
    destruct (st_heap st !! b) as [[| |bs| | |]|] eqn:E; try discriminate.
    right. exists b, bs. auto.
Qed.

Lemma ksymtab_copy_sym_run st tab src s t :
  sym_at st src = Some s ->
  tab_at st tab = Some t ->
  (src < st_next st)%N ->
  (tab < st_next st)%N ->
  existsb is_nul (ks_key s) = true ->
  link_ready st (ks_link s) = true ->
  ksymtab_copy_sym tab src st = Ok (st_next st) (copied_state tab t s st).
Proof.
  intros Hs Ht Hsrc Htab Hkey Hlink.
  pose proof Hs as Hs'. apply sym_at_Some in Hs'.
  pose proof Ht as Ht'. apply tab_at_Some in Ht'.
  destruct (c_prefix_take _ Hkey) as [Htake Hlen].
  unfold ksymtab_copy_sym.
  unfold ksymtab_ksym_get_value, ksymtab_ksym_get_link, ksymtab_ksym_get_name.
  unfold bind at 1. unfold bind at 1. rewrite (get_sym_run _ _ _ Hs').
  unfold ret at 1.
  unfold bind at 1. unfold bind at 1. rewrite (get_sym_run _ _ _ Hs').
  unfold ret at 1.
  unfold bind at 1. unfold strlen, load_cstr, cstr_at, chars_of.
  unfold bind at 1. rewrite Hs'. cbn [Z.leb Z.compare Z.to_nat].
  rewrite drop_0. unfold c_str at 1. rewrite Hkey. unfold ret at 1.
  unfold bind at 1. unfold ksymtab_add_sym.
  unfold bind at 1. rewrite (get_tab_run _ _ _ Ht').
  unfold bind at 1. unfold load_bytes, chars_of. rewrite Hs'.
  destruct (0 <=? 0) eqn:E0; [|discriminate].
  destruct (0 <=? Z.of_nat (length (c_prefix (ks_key s)))) eqn:E1; [|lia].
  destruct (0 + Z.of_nat (length (c_prefix (ks_key s)))
            <=? Z.of_nat (length (ks_key s))) eqn:E2; [|lia].
  cbn [andb Z.to_nat]. rewrite drop_0, Nat2Z.id, Htake.
  unfold bind at 1. unfold alloc at 1.
  unfold bind at 1. unfold put_obj at 1. unfold ret at 1.
  rewrite c_prefix_terminated.
  unfold ksymtab_ksym_set_link.
  unfold bind at 1. unfold bind at 1.
  unfold get_sym, bind at 1, get_obj, set_heap. cbn [st_heap st_next st_out].
  rewrite lookup_insert_ne by lia. rewrite lookup_insert_eq.
  unfold ret at 1. cbn [ks_link is_null NULL Z.eqb negb].
  unfold bind at 1. unfold ret at 1.
  unfold copied_state.
  apply link_ready_spec in Hlink as [Hnull | (b & bs & Hb & Hblt & Hbs & Hnul)].
  - rewrite Hnull. cbn [is_null NULL Z.eqb].
    unfold safe_strdup_or_null. cbn [is_null NULL Z.eqb].
    unfold bind, ret, put_obj, set_heap. cbn [st_heap st_next st_out].
    reflexivity.
  - rewrite Hb. cbn [is_null].
    unfold safe_strdup_or_null. cbn [is_null].
    assert (Hbt : b ≠ tab) by (intros ->; congruence).
    unfold bind at 1. unfold bind at 1.
    unfold load_cstr, cstr_at, chars_of. cbn [st_heap].
    rewrite lookup_insert_ne by congruence.
    rewrite lookup_insert_ne by lia.
    rewrite Hbs. cbn [Z.leb Z.compare Z.to_nat]. rewrite drop_0.
    unfold c_str. rewrite Hnul.
    unfold bind at 1. unfold alloc. cbn [st_heap st_next st_out].
    unfold ret, put_obj, set_heap. cbn [st_heap st_next st_out default].
    reflexivity.
Qed.

Lemma cstr_at_frame st st2 p :
  (forall b off, p = Heap b off -> st_heap st2 !! b = st_heap st !! b) ->
  cstr_at st2 p = cstr_at st p.
Proof.
  intros H. unfold cstr_at, chars_of.
  destruct p as [a|bs off|b off]; try reflexivity.
  rewrite (H b off eq_refl). reflexivity.
Qed.

Lemma safe_strdup_or_null_frame l st p st2 a :
  safe_strdup_or_null l st = Ok p st2 ->
  (a < st_next st)%N ->
  st_heap st2 !! a = st_heap st !! a /\ (st_next st <= st_next st2)%N.
Proof.
  unfold safe_strdup_or_null. destruct (is_null l).
  - intros [= <- <-] _. split; [reflexivity | lia].
  - unfold bind, load_cstr. destruct (cstr_at st l); [|discriminate].
    unfold alloc, ret. intros [= <- <-] Ha. simpl.
    rewrite lookup_insert_ne by lia. split; [reflexivity | lia].
Qed.

Lemma free_frame p st st2 a :
  free p st = Ok tt st2 ->
  (forall off, p ≠ Heap a off) ->
  st_heap st2 !! a = st_heap st !! a /\ st_next st2 = st_next st.
Proof.
  destruct p as [z|bs off|b off]; simpl.
  - destruct (z =? 0); [|discriminate]. intros [= <-] _. auto.
  - discriminate.
  - destruct (off =? 0); [|discriminate].
    unfold free_block. destruct (st_heap st !! b); [|discriminate].
    intros [= <-] Hne. simpl. split; [|reflexivity].
    apply lookup_delete_ne. intros ->. apply (Hne off). reflexivity.
Qed.

Lemma ksymtab_ksym_set_link_frame x l st st2 sx a :
  sym_at st x = Some sx ->
  ksymtab_ksym_set_link x l st = Ok tt st2 ->
  a ≠ x ->
  (forall off, ks_link sx ≠ Heap a off) ->
  (a < st_next st)%N ->
  st_heap st2 !! a = st_heap st !! a.
Proof.
  intros Hsx Hrun Hax Hlink Ha.
  unfold ksymtab_ksym_set_link in Hrun.
  unfold bind at 1 in Hrun.
  rewrite (get_sym_run st x sx) in Hrun by (apply sym_at_Some; exact Hsx).
  unfold bind at 1 in Hrun.
  destruct ((if negb (is_null (ks_link sx)) then free (ks_link sx) else ret tt) st)
    as [[] st1| |] eqn:Hfree; try discriminate.
  assert (H1 : st_heap st1 !! a = st_heap st !! a /\ st_next st1 = st_next st).
  { destruct (negb (is_null (ks_link sx))).
    - apply (free_frame _ _ _ _ Hfree Hlink).
    - injection Hfree as <-. auto. }
  destruct H1 as [H1 Hn1].
  unfold bind at 1 in Hrun.
  destruct (safe_strdup_or_null l st1) as [p st1'| |] eqn:Hdup; try discriminate.
  destruct (safe_strdup_or_null_frame _ _ _ _ a Hdup) as [H2 _]; [lia|].
  unfold put_obj in Hrun. injection Hrun as <-. simpl.
  rewrite lookup_insert_ne by congruence. congruence.
Qed.

Section Copied.
Variables (st : state) (tab src : addr) (s : ksym) (t : ksymtab).
Hypothesis Hs : sym_at st src = Some s.
Hypothesis Ht : tab_at st tab = Some t.
Hypothesis Hsrc : (src < st_next st)%N.
Hypothesis Htab : (tab < st_next st)%N.
Hypothesis Hkey : existsb is_nul (ks_key s) = true.
Hypothesis Hlink : link_ready st (ks_link s) = true.

Local Abbreviation st' := (copied_state tab t s st).
Local Abbreviation new := (st_next st).

Lemma copied_state_old a :
  (a < st_next st)%N -> a ≠ tab ->
  st_heap st' !! a = st_heap st !! a.
Proof.
  intros Ha Hat. unfold copied_state.
  destruct (is_null (ks_link s)); simpl;
    repeat (rewrite lookup_insert_ne by (try congruence; lia)); reflexivity.
Qed.

Lemma copied_state_new :
  sym_at st' new = Some (copied_sym tab s (copied_link s new)).
Proof.
  apply sym_at_Some. unfold copied_state, copied_link.
  destruct (is_null (ks_link s)); simpl; apply lookup_insert_eq.
Qed.

Lemma copied_state_next : (N.succ new <= st_next st')%N.
Proof.
  unfold copied_state.
  destruct (is_null (ks_link s)); simpl; lia.
Qed.

Lemma copied_state_src : sym_at st' src = Some s.
Proof.
  apply sym_at_Some. rewrite copied_state_old.
  - apply sym_at_Some. exact Hs.
  - exact Hsrc.
  - intros ->. apply sym_at_Some in Hs. apply tab_at_Some in Ht. congruence.
Qed.

Lemma copied_state_name :
  cstr_at st' (ksymtab_ksym_get_name new) = Some (c_prefix (ks_key s)) /\
  cstr_at st (ksymtab_ksym_get_name src) = Some (c_prefix (ks_key s)).
Proof.
  unfold ksymtab_ksym_get_name, cstr_at, chars_of. split.
  - pose proof copied_state_new as H. apply sym_at_Some in H. rewrite H.
    simpl. rewrite drop_0. unfold c_str.
    rewrite existsb_is_nul_terminated, c_prefix_terminated. reflexivity.
  - apply sym_at_Some in Hs. rewrite Hs.
    simpl. rewrite drop_0. unfold c_str. rewrite Hkey. reflexivity.
Qed.

Lemma copied_state_link_text :
  cstr_at st' (copied_link s new) = cstr_at st (ks_link s).
Proof.
  unfold copied_link.
  destruct (link_ready_spec _ _ Hlink) as [Hn | (b & bs & Hb & Hblt & Hbs & Hnul)].
  - rewrite Hn. reflexivity.
  - rewrite Hb. cbn [is_null].
    unfold copied_state. rewrite Hb. cbn [is_null].
    unfold cstr_at at 1, chars_of. cbn [st_heap].
    rewrite lookup_insert_ne by lia. rewrite lookup_insert_eq.
    cbn [Z.leb Z.compare Z.to_nat]. rewrite drop_0.
    unfold cstr_at, chars_of. rewrite Hbs.
    cbn [Z.leb Z.compare Z.to_nat]. rewrite drop_0.
    unfold c_str. rewrite Hnul. cbn [default id].
    rewrite existsb_is_nul_terminated, c_prefix_terminated. reflexivity.
Qed.

Lemma copied_state_link_fresh b off :
  ks_link s = Heap b off -> (b < new)%N.
Proof.
  intros Hb.
  destruct (link_ready_spec _ _ Hlink) as [Hn | (b' & bs & Hb' & Hblt & _)].
  - rewrite Hn in Hb. discriminate.
  - rewrite Hb' in Hb. injection Hb as <- <-. exact Hblt.
Qed.

Lemma copied_state_src_mutation l st2 :
  ksymtab_ksym_set_link src l st' = Ok tt st2 ->
  sym_at st2 new = Some (copied_sym tab s (copied_link s new)) /\
  cstr_at st2 (copied_link s new) = cstr_at st' (copied_link s new).
Proof.
  intros Hrun.
  pose proof copied_state_next as Hnext.
  assert (Hnew : st_heap st2 !! new = st_heap st' !! new).
  { apply (ksymtab_ksym_set_link_frame src l st' st2 s new copied_state_src Hrun).
    - lia.
    - intros off Hoff. apply copied_state_link_fresh in Hoff. lia.
    - lia. }
  split.
  - unfold sym_at. rewrite Hnew. apply copied_state_new.
  - apply cstr_at_frame. intros b off Hb.
    unfold copied_link in Hb.
    destruct (is_null (ks_link s)) eqn:En; [discriminate|].
    injection Hb as <- <-.
    apply (ksymtab_ksym_set_link_frame src l st' st2 s _ copied_state_src Hrun).
    + lia.
    + intros off Hoff. apply copied_state_link_fresh in Hoff. lia.
    + unfold copied_state. rewrite En. simpl. lia.
Qed.

Lemma copied_state_copy_mutation l st2 :
  ksymtab_ksym_set_link new l st' = Ok tt st2 ->
  sym_at st2 src = Some s /\
  cstr_at st2 (ks_link s) = cstr_at st' (ks_link s).
Proof.
  intros Hrun.
  pose proof copied_state_next as Hnext.
  assert (Hfr : forall a, (a < new)%N ->
            st_heap st2 !! a = st_heap st' !! a).
  { intros a Ha.
    apply (ksymtab_ksym_set_link_frame new l st' st2 _ a copied_state_new Hrun).
    - lia.
    - simpl. unfold copied_link.
      destruct (is_null (ks_link s)); [discriminate|].
      intros off [= Heq _]. lia.
    - lia. }
  split.
  - unfold sym_at. rewrite Hfr by exact Hsrc. apply copied_state_src.
  - apply cstr_at_frame. intros b off Hb. apply Hfr.
    apply (copied_state_link_fresh b off Hb).
Qed.

Lemma copied_state_free_original :
  exists st2, ksymtab_ksym_set_link src NULL st' = Ok tt st2.
Proof.
  unfold ksymtab_ksym_set_link.
  unfold bind at 1.
  rewrite (get_sym_run st' src s) by (apply sym_at_Some, copied_state_src).
  destruct (link_ready_spec _ _ Hlink) as [Hn | (b & bs & Hb & Hblt & Hbs & _)].
  - rewrite Hn. cbn [is_null NULL Z.eqb negb].
    unfold bind, ret, safe_strdup_or_null, put_obj.
    cbn [is_null NULL Z.eqb]. eauto.
  - rewrite Hb. cbn [is_null negb free Z.eqb].
    unfold bind at 1. unfold free_block.
    rewrite copied_state_old.
    + rewrite Hbs. unfold bind, safe_strdup_or_null, ret, put_obj.
      cbn [is_null NULL Z.eqb]. eauto.
    + exact Hblt.
    + intros ->. apply tab_at_Some in Ht. congruence.
Qed.
End Copied.

(** C8: duplicating a record into a registry yields a record at a fresh
    address with the same name, value and link text, unmarked, whose link
    lives in a block of its own: replacing or freeing the original's link
    afterwards leaves the copy and its link text as they were, and the
    other way round. *)
Theorem ksymtab_copy_sym_independent st tab src :
  copy_ready st tab src = true ->
  exists new st' s s',
    ksymtab_copy_sym tab src st = Ok new st' /\
    sym_at st src = Some s /\ sym_at st' src = Some s /\
    sym_at st new = None /\ new ≠ src /\
    sym_at st' new = Some s' /\
    cstr_at st' (ksymtab_ksym_get_name new) =
      cstr_at st (ksymtab_ksym_get_name src) /\
    is_Some (cstr_at st' (ksymtab_ksym_get_name new)) /\
    ks_value s' = ks_value s /\
    ks_mark s' = false /\
    ks_ksymtab s' = tab /\
    cstr_at st' (ks_link s') = cstr_at st (ks_link s) /\
    is_null (ks_link s') = is_null (ks_link s) /\
    (is_null (ks_link s) = false ->
     is_Some (cstr_at st' (ks_link s')) /\ ks_link s' ≠ ks_link s) /\
    (forall l st2, ksymtab_ksym_set_link src l st' = Ok tt st2 ->
       sym_at st2 new = Some s' /\
       cstr_at st2 (ks_link s') = cstr_at st' (ks_link s')) /\
    (exists st2, ksymtab_ksym_set_link src NULL st' = Ok tt st2) /\
    (forall l st2, ksymtab_ksym_set_link new l st' = Ok tt st2 ->
       sym_at st2 src = Some s /\
       cstr_at st2 (ks_link s) = cstr_at st' (ks_link s)).
Proof.
  intros Hready.
  apply copy_ready_spec in Hready
    as (s & t & Hs & Ht & Hbound & Hsrc & Htab & Hkey & Hlink).
  exists (st_next st), (copied_state tab t s st), s,
    (copied_sym tab s (copied_link s (st_next st))).
  destruct (copied_state_name st tab src s t Hs Hkey) as [Hn1 Hn2].
  assert (Htext : cstr_at (copied_state tab t s st) (copied_link s (st_next st))
                  = cstr_at st (ks_link s)).
  { eapply copied_state_link_text; eassumption. }
  split; [apply ksymtab_copy_sym_run; assumption|].
  split; [exact Hs|].
  split; [eapply copied_state_src; eassumption|].
  split.
  { unfold sym_at. destruct (st_heap st !! st_next st) as [o|] eqn:E; [|reflexivity].
    assert (st_next st < st_next st)%N by (apply heap_bounded_spec; eauto).
    lia. }
  split; [lia|].
  split; [eapply copied_state_new; eassumption|].
  split; [congruence|].
  split; [rewrite Hn1; eauto|].
  split; [reflexivity|].
  split; [reflexivity|].
  split; [reflexivity|].
  split; [exact Htext|].
  split.
  { simpl. unfold copied_link. destruct (is_null (ks_link s)); reflexivity. }
  split.
  { intros Hnn. cbn [ks_link copied_sym]. rewrite Htext.
    destruct (link_ready_spec _ _ Hlink) as [Hn | (b & bs & Hb & Hblt & Hbs & Hnul)].
    - rewrite Hn in Hnn. discriminate.
    - split.
      + rewrite Hb. unfold cstr_at, chars_of. rewrite Hbs.
        cbn [Z.leb Z.compare Z.to_nat]. rewrite drop_0.
        unfold c_str. rewrite Hnul. eauto.
      + unfold copied_link. rewrite Hnn, Hb. intros [= Heq]. lia. }
  split.
  { intros l st2 Hrun.
    eapply copied_state_src_mutation; eassumption. }
  split.
  { eapply copied_state_free_original; eassumption. }
  intros l st2 Hrun.
  eapply copied_state_copy_mutation; eassumption.
Qed.

Lemma ksymtab_copy_sym_independent_witness :
  copy_ready registry_linked 1%N 2%N = true /\
  exists new st' s',
    ksymtab_copy_sym 1%N 2%N registry_linked = Ok new st' /\
    new ≠ 2%N /\
    sym_at st' new = Some s' /\
    cstr_at st' (ks_link s') = Some (str "alias").
Proof.
  split; [vm_compute; reflexivity|].
  destruct (ksymtab_copy_sym_independent registry_linked 1%N 2%N)
    as (new & st' & s & s' & Hrun & Hs & _ & _ & Hne & Hs' & _ & _ & _ & _ & _
        & Htext & _).
  - vm_compute. reflexivity.
  - exists new, st', s'. repeat split; try assumption.
    rewrite Htext. vm_compute in Hs. injection Hs as <-.
    vm_compute. reflexivity.
Defined.

(** ** Lookup *)

Lemma ksymtab_find_key st tab t name key :
  tab_at st tab = Some t ->
  is_null name = false ->
  cstr_at st name = Some key ->
  ksymtab_find tab name st = Ok (hash_find (kt_hash t) key) st.
Proof.
  intros Ht Hn Hk. unfold ksymtab_find, bind.
  rewrite (get_tab_run st tab t) by (apply tab_at_Some; exact Ht).
  rewrite Hn. unfold load_cstr. rewrite Hk. reflexivity.
Qed.

(** C9 as stated fails: a registry can hold a record whose key is the
    empty string ([ksymtab_add_sym] with [len = 0]), and looking up the
    empty string then finds it. *)
Lemma ksymtab_find_empty_key_found :
  is_Some (tab_at registry_anon 1%N) /\
  ksymtab_find 1%N (Buf [NUL] 0) registry_anon = Ok 2%N registry_anon /\
  is_Some (sym_at registry_anon 2%N) /\
  ksymtab_find 1%N (Buf [NUL] 0) registry_anon <> Ok 0%N registry_anon.
Proof.
  split; [vm_compute; eauto|].
  split; [vm_compute; reflexivity|].
  split; [vm_compute; eauto|].
  vm_compute. discriminate.
Qed.

(** C9 (amended): on every registry, [ksymtab_find] returns NULL for a
    NULL name and for a name that is not the key of a record, which
    covers the empty string whenever no record has the empty key, as in
    every registry the splitter builds; it returns the record of a key
    that is present; and none of these lookups fails. *)
Theorem ksymtab_find_total st tab t :
  tab_at st tab = Some t ->
  ksymtab_find tab NULL st = Ok 0%N st /\
  (forall name key,
     is_null name = false ->
     cstr_at st name = Some key ->
     (kt_hash t !! key = None -> ksymtab_find tab name st = Ok 0%N st) /\
     (forall a, kt_hash t !! key = Some a ->
                ksymtab_find tab name st = Ok a st)) /\
  (kt_hash t !! [] = None ->
   ksymtab_find tab (Buf [NUL] 0) st = Ok 0%N st) /\
  (forall bs st0,
     Z.of_nat (length bs) < 2 ^ 64 ->
     last bs = Some NUL ->
     exists res st1,
       parse_ksymtab_strings (Buf bs 0) (Z.of_nat (length bs)) st0 = Ok res st1 /\
       ksymtab_find res (Buf [NUL] 0) st1 = Ok 0%N st1).
Proof.
  intros Ht.
  assert (Hkey : forall name key, is_null name = false ->
            cstr_at st name = Some key ->
            (kt_hash t !! key = None -> ksymtab_find tab name st = Ok 0%N st) /\
            (forall a, kt_hash t !! key = Some a ->
                       ksymtab_find tab name st = Ok a st)).
  { intros name key Hn Hk.
    rewrite (ksymtab_find_key st tab t name key Ht Hn Hk).
    unfold hash_find. split.
    - intros ->. reflexivity.
    - intros a ->. reflexivity. }
  split.
  { unfold ksymtab_find, bind.
    rewrite (get_tab_run st tab t) by (apply tab_at_Some; exact Ht).
    reflexivity. }
  split; [exact Hkey|].
  split.
  { intros Hnone.
    apply (proj1 (Hkey (Buf [NUL] 0) [] eq_refl eq_refl) Hnone). }
  intros bs st0 Hsz Hlast.
  destruct (parse_ksymtab_strings_result bs st0 Hsz Hlast)
    as (st1 & t1 & Hrun & Ht1 & _ & _ & Hreach & Hview).
  exists (st_next st0), st1. split; [exact Hrun|].
  rewrite (ksymtab_find_key st1 (st_next st0) t1 (Buf [NUL] 0) []);
    [|apply tab_at_Some; exact Ht1|reflexivity|reflexivity].
  unfold hash_find.
  destruct (kt_hash t1 !! []) as [a|] eqn:Ea; [|reflexivity].
  exfalso.
  assert (Hv : view_of st1 t1 !! [] = None).
  { rewrite Hview. rewrite index_from_notin; [apply lookup_empty|].
    unfold entries. rewrite list_elem_of_filter. intros [Hne _].
    apply Hne. reflexivity. }
  unfold view_of in Hv. rewrite lookup_omap, Ea in Hv. simpl in Hv.
  destruct (Hreach _ _ Ea) as [_ [s Hs]]. rewrite Hs in Hv. discriminate.
Qed.

Lemma ksymtab_find_total_witness :
  tab_at registry_foo_bar 1%N <> None /\
  ksymtab_find 1%N NULL registry_foo_bar = Ok 0%N registry_foo_bar /\
  ksymtab_find 1%N (Buf (str "bar" ++ [NUL]) 0) registry_foo_bar =
    Ok 3%N registry_foo_bar /\
  ksymtab_find 1%N (Buf (str "baz" ++ [NUL]) 0) registry_foo_bar =
    Ok 0%N registry_foo_bar.
Proof.
  destruct (tab_at registry_foo_bar 1%N) as [t|] eqn:Ht;
    [|vm_compute in Ht; discriminate].
  split; [discriminate|].
  destruct (ksymtab_find_total registry_foo_bar 1%N t Ht) as (H1 & H2 & _).
  split; [exact H1|].
  vm_compute in Ht. injection Ht as <-.
  split.
  - apply (proj2 (H2 (Buf (str "bar" ++ [NUL]) 0) (str "bar") eq_refl eq_refl)).
    vm_compute. reflexivity.
  - apply (proj1 (H2 (Buf (str "baz" ++ [NUL]) 0) (str "baz") eq_refl eq_refl)).
    vm_compute. reflexivity.
Defined.

(** ** The absent handle *)

(** C10: on the NULL handle [ksymtab_len] returns 0, and neither
    [ksymtab_for_each] nor [ksymtab_for_each_unmarked] calls its visitor:
    they return with context and state untouched whatever the visitor
    is, even one that could not be run at all. *)
Theorem ksymtab_null_handle st :
  ksymtab_len 0%N st = Ok 0 st /\
  (forall (C : Type) (f : addr -> C -> M C) (ctx : C),
     ksymtab_for_each 0%N f ctx st = Ok ctx st) /\
  (forall (C : Type) (f : ptr -> Z -> C -> M C) (ctx : C),
     ksymtab_for_each_unmarked 0%N f ctx st = Ok ctx st) /\
  ksymtab_for_each 0%N (fun _ _ => undef) tt st = Ok tt st /\
  ksymtab_for_each_unmarked 0%N (fun _ _ _ => undef) tt st = Ok tt st.
Proof. repeat split. Qed.

(** ** The global symbol enumerator *)

Lemma load_uint_Buf data off n st :
  (off + n <= length data)%nat ->
  load_uint (Buf data 0) (Z.of_nat off) (Z.of_nat n) st =
  Ok (le (take n (drop off data))) st.
Proof.
  intros H. unfold load_uint, bind. cbn [ptr_add].
  rewrite Z.add_0_l, load_bytes_Buf by exact H. reflexivity.
Qed.

Lemma get_ke_run st a kev :
  st_heap st !! a = Some (OKe kev) -> get_ke a st = Ok kev st.
Proof. intros H. unfold get_ke, bind, get_obj. rewrite H. reflexivity. Qed.

Lemma symtab_entries_drop data k n :
  length data = (24 * n)%nat -> (k < n)%nat ->
  drop k (symtab_entries data) =
  sym_of data k :: drop (S k) (symtab_entries data).
Proof.
  intros Hlen Hk. apply drop_S. unfold symtab_entries.
  rewrite list_lookup_fmap, lookup_seq_lt.
  - reflexivity.
  - rewrite Hlen. replace (24 * n)%nat with (n * 24)%nat by lia.
    rewrite Nat.div_mul by lia. exact Hk.
Qed.

Lemma symtab_entries_length data n :
  length data = (24 * n)%nat -> length (symtab_entries data) = n.
Proof.
  intros Hlen. unfold symtab_entries. rewrite length_map, length_seq, Hlen.
  replace (24 * n)%nat with (n * 24)%nat by lia.
  apply Nat.div_mul. lia.
Qed.

Section Loop.
Context {C : Type}.
Variables (ke : addr) (kev : ksymtab_elf) (fn : ptr -> Z -> Z -> C -> M C).
Variables (data : list ascii) (n : nat).
Hypothesis Hlen : length data = (24 * n)%nat.
Hypothesis Hfn : keeps_heap fn.

Lemma sym_loop_enumerate : forall fuel k ctx st,
  (k <= n)%nat ->
  (n - k <= fuel)%nat ->
  st_heap st !! ke = Some (OKe kev) ->
  sym_loop fuel ke fn (Buf data 0) (Z.of_nat (length data))
    (Z.of_nat (24 * k)) ctx st =
  enumerate kev fn (drop k (symtab_entries data)) ctx st.
Proof.
  induction fuel as [|fuel IH]; intros k ctx st Hk Hfuel Hke.
  - assert (k = n) by lia. subst k. cbn [sym_loop].
    destruct (Z.of_nat (24 * n) <? Z.of_nat (length data)) eqn:E; [blia|].
    rewrite drop_ge
      by (pose proof (symtab_entries_length _ n Hlen); lia).
    reflexivity.
  - cbn [sym_loop].
    destruct (Z.of_nat (24 * k) <? Z.of_nat (length data)) eqn:E.
    + assert (Hkn : (k < n)%nat) by blia.
      rewrite (symtab_entries_drop data k n Hlen Hkn).
      replace (Z.of_nat (24 * k) + 4) with (Z.of_nat (24 * k + 4)) by lia.
      replace (Z.of_nat (24 * k) + 8) with (Z.of_nat (24 * k + 8)) by lia.
      replace (Z.of_nat (24 * k) + sizeof_Elf64_Sym)
        with (Z.of_nat (24 * S k)) by (unfold sizeof_Elf64_Sym; lia).
      cbn [enumerate]. unfold kept.
      unfold bind at 1.
      rewrite (load_uint_Buf data (24 * k + 4) 1) by lia.
      change (ELF64_ST_BIND (le (take 1 (drop (24 * k + 4) data))))
        with (sym_binding (sym_of data k)).
      destruct ((sym_binding (sym_of data k) =? STB_GLOBAL)
                || (sym_binding (sym_of data k) =? STB_WEAK)) eqn:Eb;
        cbn [negb andb]; [|apply IH; auto; lia].
      unfold bind at 1.
      rewrite (load_uint_Buf data (24 * k) 4) by lia.
      change (le (take 4 (drop (24 * k) data))) with (st_name (sym_of data k)).
      destruct (st_name (sym_of data k) =? 0) eqn:En;
        cbn [negb]; [apply IH; auto; lia|].
      unfold bind at 1. rewrite (get_ke_run _ _ _ Hke).
      destruct (st_name (sym_of data k) >? ke_strtab_size kev); [reflexivity|].
      destruct (is_null (ptr_add (ke_strtab kev) (st_name (sym_of data k))));
        [reflexivity|].
      unfold bind at 1.
      rewrite (load_uint_Buf data (24 * k + 8) 8) by lia.
      change (le (take 8 (drop (24 * k + 8) data)))
        with (st_value (sym_of data k)).
      apply bind_cong; [reflexivity|].
      intros ctx' st' Hrun.
      apply IH; auto; try lia.
      pose proof (Hfn (ptr_add (ke_strtab kev) (st_name (sym_of data k)))
                    (st_value (sym_of data k))
                    (sym_binding (sym_of data k)) ctx st) as Hh.
      rewrite Hrun in Hh. rewrite Hh. exact Hke.
    + assert (k = n) by blia. subst k.
      rewrite drop_ge
        by (pose proof (symtab_entries_length _ n Hlen); lia).
      reflexivity.
Qed.

End Loop.

Lemma enumerate_visit {C} kev (fn : ptr -> Z -> Z -> C -> M C) :
  forall ss ctx st,
  forallb (passes_check kev) (filter (fun s => kept s = true) ss) = true ->
  enumerate kev fn ss ctx st =
  visit fn (map (call_of kev) (filter (fun s => kept s = true) ss)) ctx st.
Proof.
  induction ss as [|s ss IH]; intros ctx st Hall; [reflexivity|].
  cbn [enumerate]. destruct (kept s) eqn:Ek.
  - rewrite filter_cons_True in * by exact Ek.
    cbn [forallb] in Hall. apply andb_true_iff in Hall as [Hp Hall].
    unfold passes_check in Hp. apply andb_true_iff in Hp as [Hr Hn].
    destruct (st_name s >? ke_strtab_size kev) eqn:Egt; [blia|].
    apply negb_true_iff in Hn. rewrite Hn.
    cbn [map visit call_of].
    apply bind_cong; [reflexivity|]. intros ctx' st' _. apply IH. exact Hall.
  - rewrite filter_cons_False in * by (rewrite Ek; discriminate).
    apply IH. exact Hall.
Qed.


Lemma bind_record_call {B} name value binding ctx (k : list call -> M B) st :
  bind (record_call name value binding ctx) k st =
  k (ctx ++ [(name, value, binding)]) st.
Proof. reflexivity. Qed.

Lemma enumerate_record_call kev : forall ss ctx st,
  (forallb (passes_check kev) (filter (fun s => kept s = true) ss) = true /\
   enumerate kev record_call ss ctx st =
     Ok (ctx ++ map (call_of kev) (filter (fun s => kept s = true) ss)) st) \/
  (forallb (passes_check kev) (filter (fun s => kept s = true) ss) = false /\
   (enumerate kev record_call ss ctx st = Fatal F_name_index st \/
    enumerate kev record_call ss ctx st = Fatal F_no_name st)).
Proof.
  induction ss as [|s ss IH]; intros ctx st.
  - left. split; [reflexivity|]. simpl. rewrite app_nil_r. reflexivity.
  - cbn [enumerate]. destruct (kept s) eqn:Ek.
    + rewrite filter_cons_True by exact Ek. cbn [forallb map].
      unfold passes_check at 1 3.
      destruct (st_name s >? ke_strtab_size kev) eqn:Egt.
      { right. split; [|left; reflexivity].
        destruct (st_name s <=? ke_strtab_size kev) eqn:Ele; [blia|]. reflexivity. }
      destruct (st_name s <=? ke_strtab_size kev) eqn:Ele; [|blia].
      destruct (is_null (ptr_add (ke_strtab kev) (st_name s))) eqn:En.
      { right. split; [reflexivity | right; reflexivity]. }
      cbn [negb andb]. rewrite !bind_record_call.
      fold (call_of kev s).
      destruct (IH (ctx ++ [call_of kev s]) st) as [[Hp Hr]|[Hp Hr]].
      * left. split; [exact Hp|].
        rewrite <- app_assoc in Hr. exact Hr.
      * right. split; [exact Hp|]. exact Hr.
    + rewrite filter_cons_False by (rewrite Ek; discriminate). apply IH.
Qed.

Lemma visit_record_call cs : forall ctx st,
  visit record_call cs ctx st = Ok (ctx ++ cs) st.
Proof.
  induction cs as [|[[name value] binding] cs IH]; intros ctx st; simpl.
  - rewrite app_nil_r. reflexivity.
  - unfold bind, record_call, ret. rewrite IH, <- app_assoc. reflexivity.
Qed.

Lemma keeps_heap_record_call : keeps_heap record_call.
Proof. intros name value binding ctx st. reflexivity. Qed.

Lemma keeps_heap_symtab_handler : keeps_heap symtab_handler.
Proof.
  intros name value binding ctx st. unfold symtab_handler, bind, load_cstr.
  destruct (cstr_at st name); reflexivity.
Qed.

(** C5: whenever the enumeration of a symbol table runs to its end, the
    handler has been called exactly once for each record that is not the
    first, has global or weak binding and a non-zero name index, in
    table order, and for no other record, with the name pointer
    [strtab + st_name], the value and the binding of that record; it
    runs to its end whenever every such record gets past the name index
    check, and otherwise stops with one of the two failures of that
    check. *)
Theorem ksymtab_elf_for_each_global_sym_calls
    (ind : indeterminate) (ke : addr) (kev : ksymtab_elf)
    (data : list ascii) (n : nat) (st : state) :
  st_heap st !! ke = Some (OKe kev) ->
  ksymtab_elf_get_section ke SYMTAB st =
    Ok (Some (Buf data 0, Z.of_nat (length data))) st ->
  length data = (24 * n)%nat ->
  (forall calls st',
     ksymtab_elf_for_each_global_sym ind ke record_call [] st = Ok calls st' ->
     calls = map (call_of kev) (kept_entries data) /\ st' = st) /\
  (forallb (passes_check kev) (kept_entries data) = true ->
   ksymtab_elf_for_each_global_sym ind ke record_call [] st =
     Ok (map (call_of kev) (kept_entries data)) st /\
   forall (C : Type) (fn : ptr -> Z -> Z -> C -> M C) (ctx : C),
     keeps_heap fn ->
     ksymtab_elf_for_each_global_sym ind ke fn ctx st =
     visit fn (map (call_of kev) (kept_entries data)) ctx st) /\
  (forallb (passes_check kev) (kept_entries data) = false ->
   ksymtab_elf_for_each_global_sym ind ke record_call [] st =
     Fatal F_name_index st \/
   ksymtab_elf_for_each_global_sym ind ke record_call [] st =
     Fatal F_no_name st).
Proof.
  intros Hke Hsec Hlen.
  assert (Hgen : forall (C : Type) (fn : ptr -> Z -> Z -> C -> M C) (ctx : C),
            keeps_heap fn ->
            ksymtab_elf_for_each_global_sym ind ke fn ctx st =
            enumerate kev fn (tail (symtab_entries data)) ctx st).
  { intros C fn ctx Hfn.
    unfold ksymtab_elf_for_each_global_sym, bind. rewrite Hsec.
    rewrite Nat2Z.id.
    destruct n as [|n'].
    - destruct data; [|discriminate]. reflexivity.
    - assert (Htail : tail (symtab_entries data) = drop 1 (symtab_entries data)).
      { destruct (symtab_entries data); reflexivity. }
      rewrite Htail.
      change sizeof_Elf64_Sym with (Z.of_nat (24 * 1)).
      apply (sym_loop_enumerate ke kev fn data (S n') Hlen Hfn); [lia|lia|exact Hke]. }
  pose proof (Hgen _ record_call [] keeps_heap_record_call) as Hrec.
  destruct (enumerate_record_call kev (tail (symtab_entries data)) [] st)
    as [[Hp Hr]|[Hp Hr]]; fold (kept_entries data) in Hp, Hr.
  - split; [|split].
    + intros calls st' Hrun. rewrite Hrec, Hr in Hrun.
      injection Hrun as <- <-. auto.
    + intros _. split; [rewrite Hrec; exact Hr|].
      intros C fn ctx Hfn. rewrite (Hgen C fn ctx Hfn).
      apply enumerate_visit. exact Hp.
    + intros Hf. rewrite Hp in Hf. discriminate.
  - split; [|split].
    + intros calls st' Hrun. rewrite Hrec in Hrun.
      destruct Hr as [Hr|Hr]; rewrite Hr in Hrun; discriminate.
    + intros Ht. rewrite Hp in Ht. discriminate.
    + intros _. rewrite Hrec. exact Hr.
Qed.

Lemma ksymtab_elf_for_each_global_sym_calls_witness :
  ksymtab_elf_for_each_global_sym no_ind 3%N record_call [] opened_fixture =
    Ok [(Buf strtab_fixture 1, 8192, STB_GLOBAL);
        (Buf strtab_fixture 7, 12288, STB_WEAK)] opened_fixture /\
  cstr_at opened_fixture (Buf strtab_fixture 1) = Some (str "alpha") /\
  cstr_at opened_fixture (Buf strtab_fixture 7) = Some (str "beta").
Proof.
  split; [|split; vm_compute; reflexivity].
  refine (proj1 (proj1 (proj2 (ksymtab_elf_for_each_global_sym_calls no_ind 3%N
                   {| ke_elf := 2%N; ke_shstrndx := 4;
                      ke_strtab := Buf strtab_fixture 0;
                      ke_strtab_size := 14; ke_fd := 1%N |}
                   symtab_fixture 5 opened_fixture _ _ _)) _));
    vm_compute; reflexivity.
Defined.

(** ** The section locator *)

Lemma scan_sections_run scns section st :
  forallb readable scns = true ->
  scan_sections scns section st = Ok (find_scn scns section) st.
Proof.
  induction scns as [|scn scns IH]; simpl; [reflexivity|].
  unfold readable at 1.
  destruct (scn_shdr scn) as [shdr|]; [|discriminate].
  destruct (scn_name scn) as [name|]; [|discriminate].
  cbn [andb]. intros H.
  case_bool_decide; [reflexivity | apply IH; exact H].
Qed.

Lemma get_elf_run st a img fd :
  st_heap st !! a = Some (OElf img fd) -> get_elf a st = Ok img st.
Proof. intros H. unfold get_elf, bind, get_obj. rewrite H. reflexivity. Qed.

Lemma ksymtab_elf_get_section_run st ke kev img fd section :
  st_heap st !! ke = Some (OKe kev) ->
  st_heap st !! ke_elf kev = Some (OElf img fd) ->
  forallb readable (elf_scns img) = true ->
  absent_or_loaded img section = true ->
  ksymtab_elf_get_section ke section st =
  Ok (match section_data img section with
      | Some d => Some (Buf d 0, Z.of_nat (length d))
      | None => None
      end) st.
Proof.
  intros Hke Helf Hread Hload.
  unfold ksymtab_elf_get_section.
  unfold bind at 1. rewrite (get_ke_run _ _ _ Hke).
  unfold bind at 1. rewrite (get_elf_run _ _ _ _ Helf).
  unfold bind at 1. rewrite (scan_sections_run _ _ _ Hread).
  unfold absent_or_loaded, lacks, section_data in *.
  destruct (find_scn (elf_scns img) section) as [[scn shdr]|]; [|reflexivity].
  cbn [orb] in Hload.
  destruct (sh_type shdr =? SHT_NOBITS); [discriminate|].
  destruct (scn_data scn) as [d|]; [|discriminate].
  destruct (Z.of_nat (length d) =? 0); [discriminate|].
  reflexivity.
Qed.

Lemma valid_elf64_spec img :
  valid_elf64 img = true ->
  elf_kind img = ELF_K_ELF /\
  (exists ehdr, elf_ehdr img = Some ehdr /\
                take SELFMAG (e_ident ehdr) = ELFMAG) /\
  elf_class img = ELFCLASS64 /\
  (exists shstrndx, elf_shdrstrndx img = Some shstrndx) /\
  forallb readable (elf_scns img) = true.
Proof.
  unfold valid_elf64. rewrite !andb_true_iff.
  intros [[[[H1 H2] H3] H4] H5].
  apply bool_decide_eq_true in H1.
  destruct (elf_ehdr img) as [ehdr|]; [|discriminate].
  apply bool_decide_eq_true in H2.
  apply Z.eqb_eq in H3.
  destruct (elf_shdrstrndx img) as [ndx|]; [|discriminate].
  eauto 10.
Qed.

Lemma ksymtab_elf_open_run e ind filename f img st :
  env_elf_version e <> EV_NONE ->
  env_fs e filename = Some f ->
  file_elf f = Some img ->
  valid_elf64 img = true ->
  absent_or_loaded img STRTAB = true ->
  ksymtab_elf_open e ind filename st =
  Ok (N.succ (N.succ (st_next st))) (opened_state ind f img st).
Proof.
  intros Hver Hfs Hf Hvalid Hstr.
  apply valid_elf64_spec in Hvalid
    as (Hkind & (ehdr & Hehdr & Hmag) & Hclass & (ndx & Hndx) & Hread).
  unfold ksymtab_elf_open.
  destruct (env_elf_version e =? EV_NONE) eqn:Ev; [blia|].
  rewrite Hfs. unfold bind at 1. unfold alloc at 1. rewrite Hf.
  unfold bind at 1. unfold alloc at 1. cbn [st_heap st_next st_out].
  rewrite Hkind, Hehdr, Hmag, Hclass, Hndx.
  rewrite !bool_decide_eq_true_2 by reflexivity.
  rewrite Z.eqb_refl. cbn [negb].
  unfold bind at 1. unfold alloc at 1. cbn [st_heap st_next st_out].
  unfold bind at 1.
  erewrite ksymtab_elf_get_section_run; cycle 1.
  - cbn [st_heap]. apply lookup_insert_eq.
  - cbn [st_heap ke_elf]. rewrite lookup_insert_ne by lia.
    apply lookup_insert_eq.
  - exact Hread.
  - exact Hstr.
  - unfold opened_state, opened_ke. rewrite Hndx. cbn [default].
    destruct (section_data img STRTAB) as [d|];
      unfold bind, put_obj, ret, set_heap; cbn [st_heap st_next st_out];
      rewrite insert_insert_eq; reflexivity.
Qed.

(** ** The top-level extraction *)

Lemma lacks_section_data img section :
  lacks img section = true -> section_data img section = None.
Proof.
  unfold lacks, section_data.
  destruct (find_scn (elf_scns img) section); [discriminate | reflexivity].
Qed.

Lemma free_block_run st a o :
  st_heap st !! a = Some o -> free_block a st = Ok tt (set_heap (delete a) st).
Proof. intros H. unfold free_block. rewrite H. reflexivity. Qed.

Lemma ksymtab_elf_close_opened ind f img st :
  heap_bounded st = true ->
  ksymtab_elf_close (N.succ (N.succ (st_next st))) (opened_state ind f img st) =
  Ok tt {| st_heap := st_heap st;
           st_next := N.succ (N.succ (N.succ (st_next st)));
           st_out := st_out st |}.
Proof.
  intros Hb.
  assert (Hfresh : forall a, (st_next st <= a)%N -> st_heap st !! a = None).
  { intros a Ha. destruct (st_heap st !! a) as [o|] eqn:E; [|reflexivity].
    assert (a < st_next st)%N by (apply heap_bounded_spec; eauto). lia. }
  unfold ksymtab_elf_close, opened_state.
  unfold bind at 1.
  erewrite get_ke_run by (cbn [st_heap]; apply lookup_insert_eq).
  cbn [ke_elf ke_fd opened_ke].
  unfold bind at 1.
  erewrite free_block_run.
  2:{ cbn [st_heap]. rewrite lookup_insert_ne by lia. apply lookup_insert_eq. }
  unfold bind at 1. unfold set_heap at 1. cbn [st_heap st_next st_out].
  erewrite free_block_run.
  2:{ cbn [st_heap]. rewrite lookup_delete_ne by lia.
      rewrite lookup_insert_ne by lia. rewrite lookup_insert_ne by lia.
      apply lookup_insert_eq. }
  unfold set_heap at 1. cbn [st_heap st_next st_out].
  erewrite free_block_run.
  2:{ cbn [st_heap]. rewrite lookup_delete_ne by lia.
      rewrite lookup_delete_ne by lia. apply lookup_insert_eq. }
  unfold set_heap. cbn [st_heap st_next st_out]. f_equal. f_equal.
  apply map_eq. intros a.
  destruct (decide (a = N.succ (N.succ (st_next st)))) as [->|H2].
  { rewrite lookup_delete_eq. symmetry. apply Hfresh. lia. }
  rewrite lookup_delete_ne by congruence.
  destruct (decide (a = st_next st)) as [->|H0].
  { rewrite lookup_delete_eq. symmetry. apply Hfresh. lia. }
  rewrite lookup_delete_ne by congruence.
  destruct (decide (a = N.succ (st_next st))) as [->|H1].
  { rewrite lookup_delete_eq. symmetry. apply Hfresh. lia. }
  rewrite lookup_delete_ne by congruence.
  rewrite !lookup_insert_ne by congruence. reflexivity.
Qed.

(** C4 as stated fails: a 64-bit ELF image without __ksymtab_strings
    whose .strtab is empty, or of type SHT_NOBITS, does not give "none":
    opening it already stops the process. *)
Lemma ksymtab_read_strtab_fatal :
  valid_elf64 elf_empty_strtab = true /\
  lacks elf_empty_strtab KSYMTAB_STRINGS = true /\
  (exists st',
     ksymtab_read (env_with (Some elf_empty_strtab)) no_ind "module.ko"
       init_state = Fatal (F_empty STRTAB) st') /\
  valid_elf64 elf_nobits_strtab = true /\
  lacks elf_nobits_strtab KSYMTAB_STRINGS = true /\
  (exists st',
     ksymtab_read (env_with (Some elf_nobits_strtab)) no_ind "module.ko"
       init_state = Fatal (F_nobits STRTAB) st').
Proof.
  split; [vm_compute; reflexivity|].
  split; [vm_compute; reflexivity|].
  split; [eexists; vm_compute; reflexivity|].
  split; [vm_compute; reflexivity|].
  split; [vm_compute; reflexivity|].
  eexists; vm_compute; reflexivity.
Qed.

(** C4 (amended): on a readable input that is not ELF the extraction
    returns NULL, not a failure; on a valid 64-bit ELF image that lacks
    __ksymtab_strings, and whose .strtab is absent or has contents, it
    returns NULL with the descriptor, the Elf handle and the handle
    structure released, the heap being what it was before the call. *)
Theorem ksymtab_read_none e ind filename f img st :
  env_elf_version e <> EV_NONE ->
  env_fs e filename = Some f ->
  file_elf f = Some img ->
  (not_elf img = true ->
   exists st', ksymtab_read e ind filename st = Ok 0%N st') /\
  (valid_elf64 img = true ->
   absent_or_loaded img STRTAB = true ->
   lacks img KSYMTAB_STRINGS = true ->
   heap_bounded st = true ->
   exists st',
     ksymtab_read e ind filename st = Ok 0%N st' /\
     st_heap st' = st_heap st /\
     st_out st' = st_out st).
Proof.
  intros Hver Hfs Hf. split.
  - intros Hnot. unfold ksymtab_read, ksymtab_elf_open.
    destruct (env_elf_version e =? EV_NONE) eqn:Ev; [blia|].
    rewrite Hfs. unfold bind at 1. unfold bind at 1. unfold alloc at 1.
    rewrite Hf. unfold bind at 1. unfold alloc at 1.
    unfold not_elf in Hnot.
    destruct (negb (bool_decide (elf_kind img = ELF_K_ELF))) eqn:Ek.
    + unfold ret at 1. rewrite N.eqb_refl. unfold ret. eauto.
    + cbn [orb] in Hnot.
      destruct (elf_ehdr img) as [ehdr|]; [|discriminate].
      rewrite Hnot. unfold ret at 1. rewrite N.eqb_refl. unfold ret. eauto.
  - intros Hvalid Hstr Hlacks Hb.
    unfold ksymtab_read. unfold bind at 1.
    rewrite (ksymtab_elf_open_run e ind filename f img st Hver Hfs Hf Hvalid Hstr).
    destruct (N.eqb_spec (N.succ (N.succ (st_next st))) 0) as [E|_]; [lia|].
    unfold bind at 1.
    erewrite ksymtab_elf_get_section_run; cycle 1.
    + unfold opened_state. cbn [st_heap]. apply lookup_insert_eq.
    + unfold opened_state. cbn [st_heap ke_elf opened_ke].
      rewrite lookup_insert_ne by lia. apply lookup_insert_eq.
    + apply valid_elf64_spec in Hvalid as (_ & _ & _ & _ & Hread). exact Hread.
    + unfold absent_or_loaded. rewrite Hlacks. reflexivity.
    + rewrite (lacks_section_data _ _ Hlacks).
      unfold bind. rewrite (ksymtab_elf_close_opened ind f img st Hb).
      unfold ret. eexists. split; [reflexivity|]. split; reflexivity.
Qed.

Lemma ksymtab_read_none_witness :
  (exists st',
     ksymtab_read (env_with (Some ar_fixture)) no_ind "module.ko" init_state =
       Ok 0%N st') /\
  (exists st',
     ksymtab_read (env_with (Some elf_plain)) no_ind "module.ko" init_state =
       Ok 0%N st' /\
     st_heap st' = st_heap init_state /\
     st_out st' = st_out init_state).
Proof.
  split.
  - apply (proj1 (ksymtab_read_none (env_with (Some ar_fixture)) no_ind
                    "module.ko" {| file_elf := Some ar_fixture |} ar_fixture
                    init_state
                    ltac:(discriminate) eq_refl eq_refl)).
    vm_compute. reflexivity.
  - apply (proj2 (ksymtab_read_none (env_with (Some elf_plain)) no_ind
                    "module.ko" {| file_elf := Some elf_plain |} elf_plain
                    init_state
                    ltac:(discriminate) eq_refl eq_refl));
      vm_compute; reflexivity.
Defined.

(** ** The name index check *)

(** C3: the check [st_name > strtab_size] lets the index [strtab_size]
    through, one past the last byte of the string table.  In general
    such a record passes the check while no name can be read at the
    pointer handed to the handler; on the test image the handler is
    called with that pointer, [symtab_handler] reads out of bounds, and
    so does the whole extraction, whereas the index [strtab_size + 1] is
    refused with "Symbol name index out of range". *)
Theorem ksymtab_elf_for_each_global_sym_name_at_end :
  (forall (bs : list ascii) (elf fd : addr) (ndx info value : Z) (st : state),
     let kev := {| ke_elf := elf; ke_shstrndx := ndx; ke_strtab := Buf bs 0;
                   ke_strtab_size := Z.of_nat (length bs); ke_fd := fd |} in
     let s := {| st_name := Z.of_nat (length bs); st_info := info;
                 st_value := value |} in
     passes_check kev s = true /\
     cstr_at st (ptr_add (ke_strtab kev) (st_name s)) = None) /\
  (let st := opened (elf_with_symtab symtab_name_at_end) no_ind in
   ksymtab_elf_for_each_global_sym no_ind 3%N record_call [] st =
     Ok [(Buf strtab_fixture 14, 8192, STB_GLOBAL)] st /\
   Z.of_nat (length strtab_fixture) = 14 /\
   cstr_at st (Buf strtab_fixture 14) = None /\
   load_byte (Buf strtab_fixture 14) 0 st = Undef /\
   ksymtab_elf_for_each_global_sym no_ind 3%N symtab_handler tt st = Undef) /\
  ksymtab_read (env_with (Some (elf_with_symtab symtab_name_at_end))) no_ind
    "module.ko" init_state = Undef /\
  (exists st',
     ksymtab_read (env_with (Some (elf_with_symtab symtab_name_past_end))) no_ind
       "module.ko" init_state = Fatal F_name_index st').
Proof.
  split.
  { intros bs elf fd ndx info value st kev s. split.
    - unfold passes_check, kev, s. cbn [st_name ke_strtab_size ke_strtab ptr_add is_null].
      rewrite Z.leb_refl. reflexivity.
    - unfold kev, s. cbn [st_name ke_strtab ptr_add].
      unfold cstr_at, chars_of. rewrite Z.add_0_l.
      destruct (0 <=? Z.of_nat (length bs)); [|reflexivity].
      rewrite Nat2Z.id, drop_all. reflexivity. }
  split.
  { cbv zeta. repeat split; vm_compute; reflexivity. }
  split; [vm_compute; reflexivity|].
  eexists. vm_compute. reflexivity.
Qed.

(** ** The cached string table *)

(** C7: when the image has no .strtab section, the handle's string table
    pointer and length are the indeterminate contents of two locals that
    were never written, not a defined empty state; with stale stack
    contents the enumeration then reads "names" out of unrelated memory
    and the extraction prints them instead of failing.  With a .strtab
    section present the handle caches its contents. *)
Theorem ksymtab_elf_open_strtab_indeterminate :
  (forall ind, exists st' kev,
     ksymtab_elf_open (env_with (Some elf_no_strtab)) ind "module.ko"
       init_state = Ok 3%N st' /\
     st_heap st' !! 3%N = Some (OKe kev) /\
     ke_strtab kev = ind_strtab ind /\
     ke_strtab_size kev = ind_strtab_size ind) /\
  ksymtab_elf_for_each_global_sym stale_ind 3%N record_call []
    (opened elf_no_strtab stale_ind) =
    Ok [(Buf stale_bytes 1, 8192, STB_GLOBAL);
        (Buf stale_bytes 7, 12288, STB_WEAK)]
       (opened elf_no_strtab stale_ind) /\
  (exists res st',
     ksymtab_read (env_with (Some elf_no_strtab)) stale_ind "module.ko"
       init_state = Ok res st' /\
     st_out st' = [(str "AAAAAA", 8192, STB_GLOBAL); ([], 12288, STB_WEAK)]) /\
  (exists kev,
     st_heap (opened elf_fixture stale_ind) !! 3%N = Some (OKe kev) /\
     ke_strtab kev = Buf strtab_fixture 0 /\
     ke_strtab_size kev = Z.of_nat (length strtab_fixture)).
Proof.
  split.
  { intros ind.
    exists (opened_state ind {| file_elf := Some elf_no_strtab |} elf_no_strtab
              init_state),
           (opened_ke ind elf_no_strtab 1%N).
    split.
    - apply (ksymtab_elf_open_run (env_with (Some elf_no_strtab)) ind "module.ko"
               {| file_elf := Some elf_no_strtab |} elf_no_strtab init_state);
        [discriminate | reflexivity | reflexivity
        | vm_compute; reflexivity | vm_compute; reflexivity].
    - split; [apply lookup_insert_eq|]. split; reflexivity. }
  split; [vm_compute; reflexivity|].
  split; [eexists _, _; split; vm_compute; reflexivity|].
  eexists. split; [vm_compute; reflexivity|]. split; vm_compute; reflexivity.
Qed.

(** * Further properties of the registry *)

Lemma c_prefix_app_nul bs : c_prefix (bs ++ [NUL]) = c_prefix bs.
Proof.
  induction bs as [|c r IH]; simpl; [reflexivity|].
  destruct (is_nul c); [reflexivity | rewrite IH; reflexivity].
Qed.

Lemma ksymtab_len_run st tab t :
  tab <> 0%N ->
  tab_at st tab = Some t ->
  ksymtab_len tab st = Ok (Z.of_nat (size (kt_hash t))) st.
Proof.
  intros Hn Ht. unfold ksymtab_len.
  destruct (N.eqb_spec tab 0) as [E|_]; [contradiction|].
  unfold bind. rewrite (get_tab_run st tab t) by (apply tab_at_Some; exact Ht).
  reflexivity.
Qed.

(** X1: a record inserted with [ksymtab_add_sym] is the one
    [ksymtab_find] returns for its name (the copied bytes up to their
    first NUL), with the value given, unmarked and without link; every
    other name is found as the hash held it before; the length grows by
    one when the name is new and stays when it was already there. *)
Theorem ksymtab_add_sym_find st tab t p len bs v :
  tab_at st tab = Some t ->
  (0 < tab < st_next st)%N ->
  load_bytes p len st = Ok bs st ->
  exists new st',
    ksymtab_add_sym tab p len v st = Ok new st' /\
    new <> 0%N /\
    (forall name,
       is_null name = false ->
       cstr_at st' name = Some (c_prefix bs) ->
       ksymtab_find tab name st' = Ok new st') /\
    cstr_at st' (ksymtab_ksym_get_name new) = Some (c_prefix bs) /\
    ksymtab_ksym_get_value new st' = Ok v st' /\
    ksymtab_ksym_is_marked new st' = Ok false st' /\
    ksymtab_ksym_get_link new st' = Ok NULL st' /\
    (forall name key,
       is_null name = false ->
       cstr_at st' name = Some key ->
       key <> c_prefix bs ->
       ksymtab_find tab name st' = Ok (hash_find (kt_hash t) key) st') /\
    ksymtab_len tab st' =
      Ok (Z.of_nat (size (kt_hash t)) +
          match kt_hash t !! c_prefix bs with Some _ => 0 | None => 1 end) st'.
Proof.
  intros Ht [Hpos Hlt] Hl.
  exists (st_next st), (added tab bs v t st).
  assert (Ht' : tab_at (added tab bs v t st) tab =
                Some {| kt_hash := hash_add (kt_hash t) (c_prefix (bs ++ [NUL]))
                                     (st_next st);
                        kt_mark_count := kt_mark_count t |}).
  { apply tab_at_Some. apply lookup_insert_eq. }
  assert (Hnew : st_heap (added tab bs v t st) !! st_next st =
                 Some (OSym {| ks_value := v; ks_mark := false; ks_link := NULL;
                               ks_ksymtab := tab; ks_key := bs ++ [NUL] |})).
  { unfold added. cbn [st_heap]. rewrite lookup_insert_ne by lia.
    apply lookup_insert_eq. }
  split; [apply ksymtab_add_sym_loaded; assumption|].
  split; [lia|].
  split.
  { intros name Hn Hk.
    rewrite (ksymtab_find_key _ tab _ name (c_prefix bs) Ht' Hn Hk).
    cbn [kt_hash]. unfold hash_find, hash_add.
    rewrite c_prefix_app_nul, lookup_insert_eq. reflexivity. }
  split.
  { unfold ksymtab_ksym_get_name, cstr_at, chars_of. rewrite Hnew.
    cbn [ks_key Z.leb Z.compare Z.to_nat]. rewrite drop_0. unfold c_str.
    rewrite existsb_is_nul_terminated, c_prefix_app_nul. reflexivity. }
  split.
  { unfold ksymtab_ksym_get_value, bind. rewrite (get_sym_run _ _ _ Hnew).
    reflexivity. }
  split.
  { unfold ksymtab_ksym_is_marked, bind. rewrite (get_sym_run _ _ _ Hnew).
    reflexivity. }
  split.
  { unfold ksymtab_ksym_get_link, bind. rewrite (get_sym_run _ _ _ Hnew).
    reflexivity. }
  split.
  { intros name key Hn Hk Hne.
    rewrite (ksymtab_find_key _ tab _ name key Ht' Hn Hk).
    cbn [kt_hash]. unfold hash_find, hash_add.
    rewrite c_prefix_app_nul, lookup_insert_ne by congruence. reflexivity. }
  rewrite (ksymtab_len_run _ tab _ ltac:(lia) Ht'). cbn [kt_hash].
  unfold hash_add. rewrite c_prefix_app_nul.
  rewrite map_size_insert.
  destruct (kt_hash t !! c_prefix bs); unfold id; f_equal; lia.
Qed.

Lemma ksymtab_add_sym_find_witness :
  exists new st',
    ksymtab_add_sym 1%N (Buf (str "baz" ++ [NUL] ++ str "tail") 0) 8 42
      registry_foo_bar = Ok new st' /\
    ksymtab_find 1%N (Buf (str "baz" ++ [NUL]) 0) st' = Ok new st' /\
    ksymtab_ksym_get_value new st' = Ok 42 st' /\
    ksymtab_len 1%N st' = Ok 3 st'.
Proof.
  destruct (tab_at registry_foo_bar 1%N) as [t|] eqn:Ht;
    [|vm_compute in Ht; discriminate].
  destruct (ksymtab_add_sym_find registry_foo_bar 1%N t
              (Buf (str "baz" ++ [NUL] ++ str "tail") 0) 8
              (str "baz" ++ [NUL] ++ str "tail") 42 Ht)
    as (new & st' & Hrun & _ & Hfind & _ & Hval & _ & _ & _ & Hlen).
  - vm_compute. split; reflexivity.
  - vm_compute. reflexivity.
  - exists new, st'. split; [exact Hrun|].
    split; [apply Hfind; [reflexivity | vm_compute; reflexivity]|].
    split; [exact Hval|].
    rewrite Hlen. vm_compute in Ht. injection Ht as <-.
    vm_compute. reflexivity.
Defined.

(** ** Iteration *)

Lemma registry_ok_values st tab t :
  registry_ok st tab = true ->
  tab_at st tab = Some t ->
  NoDup (hash_iter (kt_hash t)) /\
  (forall a, a ∈ hash_iter (kt_hash t) <-> is_record st tab a = true) /\
  (forall a, a ∈ hash_iter (kt_hash t) -> is_Some (sym_at st a)).
Proof.
  intros Hok Ht.
  apply registry_ok_spec in Hok as (t0 & Ht0 & Hrec & _ & _).
  rewrite Ht in Ht0. injection Ht0 as <-.
  unfold hash_iter. split; [|split].
  - apply NoDup_fmap_2_strong; [|apply NoDup_map_to_list].
    intros [n1 a1] [n2 a2] H1 H2 Heq. simpl in Heq. subst a2.
    apply elem_of_map_to_list in H1, H2.
    apply Hrec, record_ok_spec in H1 as (s1 & Hs1 & _ & Hk1 & _).
    apply Hrec, record_ok_spec in H2 as (s2 & Hs2 & _ & Hk2 & _).
    f_equal. congruence.
  - intros a. rewrite is_record_spec, list_elem_of_fmap. split.
    + intros ([name a'] & -> & Hin). apply elem_of_map_to_list in Hin.
      exists t, name. auto.
    + intros (t' & name & Ht' & Ha). rewrite Ht in Ht'. injection Ht' as <-.
      exists (name, a). split; [reflexivity|].
      apply elem_of_map_to_list. exact Ha.
  - intros a. rewrite list_elem_of_fmap.
    intros ([name a'] & -> & Hin). apply elem_of_map_to_list in Hin.
    apply Hrec, record_ok_spec in Hin as (s & Hs & _). simpl. eauto.
Qed.

Lemma hash_iter_loop_record_visit vs : forall ctx st,
  hash_iter_loop record_visit vs ctx st = Ok (ctx ++ vs) st.
Proof.
  induction vs as [|v vs IH]; intros ctx st; simpl.
  - rewrite app_nil_r. reflexivity.
  - unfold bind, record_visit, ret. rewrite IH, <- app_assoc. reflexivity.
Qed.

Lemma ksymtab_for_each_run {C} st tab t (f : addr -> C -> M C) ctx :
  tab <> 0%N ->
  tab_at st tab = Some t ->
  ksymtab_for_each tab f ctx st =
  hash_iter_loop f (hash_iter (kt_hash t)) ctx st.
Proof.
  intros Hn Ht. unfold ksymtab_for_each.
  destruct (N.eqb_spec tab 0) as [E|_]; [contradiction|].
  unfold bind. rewrite (get_tab_run st tab t) by (apply tab_at_Some; exact Ht).
  reflexivity.
Qed.

(** X2: [ksymtab_for_each] hands every record of a registry to the
    visitor exactly once, and nothing else; the number of visits is the
    length [ksymtab_len] reports. *)
Theorem ksymtab_for_each_records st tab :
  registry_ok st tab = true ->
  tab <> 0%N ->
  exists vs,
    ksymtab_for_each tab record_visit [] st = Ok vs st /\
    NoDup vs /\
    (forall a, a ∈ vs <-> is_record st tab a = true) /\
    ksymtab_len tab st = Ok (Z.of_nat (length vs)) st.
Proof.
  intros Hok Hn.
  destruct (tab_at st tab) as [t|] eqn:Ht.
  2:{ apply registry_ok_spec in Hok as (t & Ht' & _). congruence. }
  destruct (registry_ok_values st tab t Hok Ht) as (Hnd & Hmem & _).
  exists (hash_iter (kt_hash t)).
  split.
  { rewrite (ksymtab_for_each_run st tab t _ _ Hn Ht).
    apply hash_iter_loop_record_visit. }
  split; [exact Hnd|]. split; [exact Hmem|].
  rewrite (ksymtab_len_run st tab t Hn Ht).
  unfold hash_iter. rewrite length_fmap, length_map_to_list. reflexivity.
Qed.

Lemma ksymtab_for_each_records_witness :
  registry_ok registry_foo_bar 1%N = true /\
  exists vs,
    ksymtab_for_each 1%N record_visit [] registry_foo_bar =
      Ok vs registry_foo_bar /\
    NoDup vs /\
    ksymtab_len 1%N registry_foo_bar = Ok (Z.of_nat (length vs)) registry_foo_bar.
Proof.
  split; [vm_compute; reflexivity|].
  destruct (ksymtab_for_each_records registry_foo_bar 1%N)
    as (vs & Hrun & Hnd & _ & Hlen).
  - vm_compute. reflexivity.
  - discriminate.
  - exists vs. auto.
Defined.

Lemma hash_iter_loop_unmarked st vs : forall ctx,
  (forall a, a ∈ vs -> is_Some (sym_at st a)) ->
  hash_iter_loop (unmarked_callback record_unmarked) vs ctx st =
  Ok (ctx ++ unmarked_calls st vs) st.
Proof.
  induction vs as [|v vs IH]; intros ctx Hlive.
  - simpl. unfold unmarked_calls. simpl. rewrite app_nil_r. reflexivity.
  - destruct (Hlive v) as [s Hs]; [left|].
    cbn [hash_iter_loop]. unfold bind at 1.
    unfold unmarked_callback, ksymtab_ksym_is_marked, ksymtab_ksym_get_value.
    unfold bind at 1. unfold bind at 1.
    rewrite (get_sym_run st v s) by (apply sym_at_Some; exact Hs).
    unfold ret at 1.
    assert (Hm : is_marked_at st v = ks_mark s).
    { unfold is_marked_at. rewrite Hs. reflexivity. }
    unfold unmarked_calls in *.
    destruct (ks_mark s) eqn:Em.
    + unfold ret at 1.
      rewrite filter_cons_False by (rewrite Hm; discriminate).
      apply IH. intros a Ha. apply Hlive. right. exact Ha.
    + unfold bind at 1. unfold bind at 1.
      rewrite (get_sym_run st v s) by (apply sym_at_Some; exact Hs).
      unfold ret at 1. unfold record_unmarked at 1. unfold ret at 1.
      rewrite filter_cons_True by exact Hm.
      rewrite IH by (intros a Ha; apply Hlive; right; exact Ha).
      cbn [map]. rewrite <- app_assoc.
      unfold value_at at 2. rewrite Hs. reflexivity.
Qed.

Lemma length_filter_snd {A} (P : addr -> Prop) `{!forall a, Decision (P a)}
    (l : list (A * addr)) :
  length (filter P (l.*2)) = length (filter (fun na => P na.2) l).
Proof.
  induction l as [|[n a] l IH]; [reflexivity|].
  cbn [fmap list_fmap]. destruct (decide (P a)) as [Hp|Hp].
  - rewrite !filter_cons_True by exact Hp. simpl. rewrite IH. reflexivity.
  - rewrite !filter_cons_False by exact Hp. exact IH.
Qed.

Lemma marked_records_length st t :
  marked_records st t =
  length (filter (fun na : list ascii * addr => is_marked_at st na.2 = true)
            (map_to_list (kt_hash t))).
Proof.
  unfold marked_records. rewrite <- length_map_to_list.
  apply Permutation_length.
  rewrite map_filter_alt.
  apply map_to_list_to_map.
  apply NoDup_fmap_fst.
  - intros n a1 a2 H1 H2.
    apply list_elem_of_filter in H1 as [_ H1], H2 as [_ H2].
    apply elem_of_map_to_list in H1, H2. congruence.
  - apply NoDup_filter. apply NoDup_map_to_list.
Qed.

Lemma unmarked_calls_length st t :
  (length (unmarked_calls st (hash_iter (kt_hash t))) + marked_records st t
   = size (kt_hash t))%nat.
Proof.
  unfold unmarked_calls, hash_iter.
  rewrite length_map, length_filter_snd, marked_records_length.
  rewrite <- length_map_to_list.
  rewrite <- (Permutation_length
                (filter_app_complement
                   (fun na : list ascii * addr => is_marked_at st na.2 = true)
                   (map_to_list (kt_hash t)))).
  rewrite length_app, Nat.add_comm. f_equal. f_equal.
  apply list_filter_iff. intros [n a]. simpl.
  destruct (is_marked_at st a); split; congruence.
Qed.

(** X3: [ksymtab_for_each_unmarked] calls its visitor on the name and
    value of exactly the records whose mark flag is not set, each once;
    in a registry whose mark count is right, the number of calls is the
    length minus the mark count. *)
Theorem ksymtab_for_each_unmarked_complement st tab t :
  registry_ok st tab = true ->
  tab_at st tab = Some t ->
  tab <> 0%N ->
  exists calls,
    ksymtab_for_each_unmarked tab record_unmarked [] st = Ok calls st /\
    calls = unmarked_calls st (hash_iter (kt_hash t)) /\
    NoDup calls /\
    (forall a, is_record st tab a = true ->
       ((ksymtab_ksym_get_name a, value_at st a) ∈ calls <->
        is_marked_at st a = false)) /\
    (forall call, call ∈ calls ->
       exists a, is_record st tab a = true /\ is_marked_at st a = false /\
                 call = (ksymtab_ksym_get_name a, value_at st a)) /\
    (counts_marked st tab ->
     Z.of_nat (length calls) = Z.of_nat (size (kt_hash t)) - kt_mark_count t).
Proof.
  intros Hok Ht Hn.
  destruct (registry_ok_values st tab t Hok Ht) as (Hnd & Hmem & Hlive).
  exists (unmarked_calls st (hash_iter (kt_hash t))).
  assert (Hin : forall a,
            (ksymtab_ksym_get_name a, value_at st a)
              ∈ unmarked_calls st (hash_iter (kt_hash t)) <->
            is_marked_at st a = false /\ a ∈ hash_iter (kt_hash t)).
  { intros a. unfold unmarked_calls. rewrite list_elem_of_fmap. split.
    - intros (a' & Heq & Ha'). injection Heq as <-.
      apply list_elem_of_filter in Ha'. exact Ha'.
    - intros Ha. exists a. split; [reflexivity|].
      apply list_elem_of_filter. exact Ha. }
  split.
  { unfold ksymtab_for_each_unmarked.
    rewrite (ksymtab_for_each_run st tab t _ _ Hn Ht).
    apply (hash_iter_loop_unmarked st _ [] Hlive). }
  split; [reflexivity|].
  split.
  { unfold unmarked_calls. apply NoDup_fmap_2.
    - intros a1 a2 Heq. injection Heq as ->. reflexivity.
    - apply NoDup_filter. exact Hnd. }
  split.
  { intros a Ha. rewrite Hin. apply Hmem in Ha. tauto. }
  split.
  { intros call Hc. unfold unmarked_calls in Hc.
    apply list_elem_of_fmap in Hc as (a & -> & Ha).
    apply list_elem_of_filter in Ha as [Hm Ha].
    exists a. split; [apply Hmem; exact Ha|]. auto. }
  intros Hcnt. unfold counts_marked, number_marked in Hcnt.
  rewrite (ksymtab_mark_count_run _ _ _ Ht), Ht in Hcnt.
  injection Hcnt as Hcnt. rewrite Hcnt.
  pose proof (unmarked_calls_length st t). lia.
Qed.

Lemma ksymtab_for_each_unmarked_complement_witness :
  exists calls,
    ksymtab_for_each_unmarked 1%N record_unmarked []
      (state_of (ksymtab_ksym_mark 3%N registry_foo_bar))
    = Ok calls (state_of (ksymtab_ksym_mark 3%N registry_foo_bar)) /\
    Z.of_nat (length calls) = 2 - 1.
Proof.
  destruct (ksymtab_for_each_unmarked_complement
              (state_of (ksymtab_ksym_mark 3%N registry_foo_bar)) 1%N
              (default (Build_ksymtab ∅ 0)
                 (tab_at (state_of (ksymtab_ksym_mark 3%N registry_foo_bar)) 1%N)))
    as (calls & Hrun & _ & _ & _ & _ & Hlen).
  - vm_compute. reflexivity.
  - vm_compute. reflexivity.
  - discriminate.
  - exists calls. split; [exact Hrun|].
    rewrite Hlen by (vm_compute; reflexivity).
    vm_compute. reflexivity.
Defined.





(** * Releasing a registry *)

Lemma released_by_records st vs a : a ∈ vs -> a ∈ released_by st vs.
Proof.
  induction vs as [|v vs IH]; intros Ha; [inversion Ha|].
  cbn [released_by]. rewrite elem_of_app, elem_of_cons.
  apply elem_of_cons in Ha as [->|Ha]; auto.
Qed.

Lemma released_by_links st vs a b :
  a ∈ vs -> b ∈ link_block st a -> b ∈ released_by st vs.
Proof.
  induction vs as [|v vs IH]; intros Ha Hb; [inversion Ha|].
  cbn [released_by]. rewrite elem_of_app, elem_of_cons.
  apply elem_of_cons in Ha as [->|Ha]; auto.
Qed.

Lemma released_by_spec st vs x :
  x ∈ released_by st vs <->
  x ∈ vs \/ exists a, a ∈ vs /\ x ∈ link_block st a.
Proof.
  split.
  - induction vs as [|v vs IH]; [intros H; inversion H|].
    cbn [released_by]. rewrite elem_of_app, !elem_of_cons.
    intros [H|[->|H]].
    + right. exists v. split; [left|exact H].
    + left. left. reflexivity.
    + destruct (IH H) as [H'|(a & Ha & Hx)].
      * left. right. exact H'.
      * right. exists a. split; [right; exact Ha | exact Hx].
  - intros [H|(a & Ha & Hx)].
    + apply released_by_records. exact H.
    + apply (released_by_links st vs a x Ha Hx).
Qed.

Lemma released_by_ext st st' vs :
  (forall a, a ∈ vs -> sym_at st' a = sym_at st a) ->
  released_by st' vs = released_by st vs.
Proof.
  induction vs as [|v vs IH]; intros H; [reflexivity|].
  cbn [released_by]. unfold link_block.
  rewrite (H v) by left. rewrite IH; [reflexivity|].
  intros a Ha. apply H. right. exact Ha.
Qed.

(** [ksymtab_ksym_free] on a live record with a freeable link that is
    not the record itself. *)
Lemma ksymtab_ksym_free_run st a s :
  sym_at st a = Some s ->
  freeable st (ks_link s) = true ->
  a ∉ link_block st a ->
  exists st',
    ksymtab_ksym_free a st = Ok tt st' /\
    st_next st' = st_next st /\
    st_out st' = st_out st /\
    forall x, st_heap st' !! x =
              if bool_decide (x ∈ link_block st a ++ [a]) then None
              else st_heap st !! x.
Proof.
  intros Hs Hfree Hself.
  pose proof Hs as Hs'. apply sym_at_Some in Hs'.
  unfold ksymtab_ksym_free. unfold bind at 1.
  rewrite (get_sym_run st a s Hs').
  unfold link_block in *. rewrite Hs in *.
  destruct (ks_link s) as [z|bs off|b off]; simpl in Hfree; [|discriminate|].
  - apply Z.eqb_eq in Hfree. subst z. unfold bind, free. simpl.
    unfold ret. rewrite (free_block_run st a _ Hs').
    eexists. split; [reflexivity|]. split; [reflexivity|].
    split; [reflexivity|]. intros x. simpl.
    case_bool_decide as Hx.
    + apply list_elem_of_singleton in Hx. subst x. apply lookup_delete_eq.
    + rewrite lookup_delete_ne; [reflexivity|].
      intros ->. apply Hx. left.
  - apply andb_true_iff in Hfree as [Hoff Hlive].
    apply Z.eqb_eq in Hoff. subst off.
    apply bool_decide_eq_true in Hlive as [o Ho].
    assert (Hne : a <> b).
    { intros ->. apply Hself. left. }
    unfold bind, free. simpl.
    rewrite (free_block_run st b _ Ho).
    rewrite (free_block_run (set_heap (delete b) st) a (OSym s)).
    2:{ simpl. rewrite lookup_delete_ne by congruence. exact Hs'. }
    eexists. split; [reflexivity|]. split; [reflexivity|].
    split; [reflexivity|]. intros x. simpl.
    case_bool_decide as Hx.
    + apply elem_of_cons in Hx as [->|Hx].
      * rewrite lookup_delete_ne by congruence. apply lookup_delete_eq.
      * apply list_elem_of_singleton in Hx. subst x. apply lookup_delete_eq.
    + rewrite !lookup_delete_ne; [reflexivity| |].
      * intros ->. apply Hx. left.
      * intros ->. apply Hx. right. left.
Qed.

Lemma hash_free_values_run vs : forall st,
  (forall a, a ∈ vs ->
     exists s, sym_at st a = Some s /\ freeable st (ks_link s) = true) ->
  NoDup (released_by st vs) ->
  exists st',
    hash_free_values ksymtab_ksym_free vs st = Ok tt st' /\
    st_next st' = st_next st /\
    st_out st' = st_out st /\
    forall x, st_heap st' !! x =
              if bool_decide (x ∈ released_by st vs) then None
              else st_heap st !! x.
Proof.
  induction vs as [|v vs IH]; intros st Hall Hnd.
  - exists st. split; [reflexivity|]. split; [reflexivity|].
    split; [reflexivity|]. intros x. cbn [released_by].
    rewrite bool_decide_eq_false_2; [reflexivity | apply not_elem_of_nil].
  - cbn [released_by] in Hnd.
    apply NoDup_app in Hnd as (Hnd1 & Hdisj & Hnd2).
    apply NoDup_cons in Hnd2 as [Hv Hnd2].
    destruct (Hall v) as (s & Hs & Hfree); [left|].
    destruct (ksymtab_ksym_free_run st v s Hs Hfree)
      as (st1 & Hrun1 & Hnext1 & Hout1 & Hheap1).
    { intros Hin. apply (Hdisj _ Hin). left. }
    assert (Hkeep : forall x, x ∈ released_by st vs ->
                              st_heap st1 !! x = st_heap st !! x).
    { intros x Hx. rewrite Hheap1. rewrite bool_decide_eq_false_2; [reflexivity|].
      rewrite elem_of_app, list_elem_of_singleton. intros [Hl| ->].
      - apply (Hdisj _ Hl). right. exact Hx.
      - apply Hv. exact Hx. }
    assert (Hsym : forall a, a ∈ vs -> sym_at st1 a = sym_at st a).
    { intros a Ha. unfold sym_at. rewrite Hkeep; [reflexivity|].
      apply released_by_records. exact Ha. }
    pose proof (released_by_ext st st1 vs Hsym) as Hrel.
    destruct (IH st1) as (st' & Hrun & Hnext & Hout & Hheap).
    { intros a Ha. destruct (Hall a) as (sa & Hsa & Hfa); [right; exact Ha|].
      exists sa. split; [rewrite Hsym; assumption|].
      destruct (ks_link sa) as [z|bs off|b off] eqn:El; simpl in *;
        [exact Hfa | discriminate|].
      apply andb_true_iff in Hfa as [Hoff Hlive].
      apply andb_true_iff. split; [exact Hoff|].
      apply bool_decide_eq_true. apply bool_decide_eq_true in Hlive.
      rewrite Hkeep; [exact Hlive|].
      apply (released_by_links st vs a b Ha).
      unfold link_block. rewrite Hsa, El. left. }
    { rewrite Hrel. exact Hnd2. }
    exists st'. split.
    { cbn [hash_free_values]. unfold bind. rewrite Hrun1. exact Hrun. }
    split; [congruence|]. split; [congruence|].
    intros x. rewrite Hheap, Hrel, Hheap1. cbn [released_by].
    destruct (bool_decide_reflect (x ∈ released_by st vs)) as [H1|H1];
      destruct (bool_decide_reflect (x ∈ link_block st v ++ [v])) as [H2|H2];
      destruct (bool_decide_reflect
                  (x ∈ link_block st v ++ v :: released_by st vs)) as [H3|H3];
      try reflexivity; exfalso; revert H1 H2 H3; clear;
      rewrite ?elem_of_app, ?elem_of_cons, ?elem_of_nil; tauto.
Qed.

Lemma free_ready_spec st tab :
  free_ready st tab = true ->
  exists t,
    tab_at st tab = Some t /\
    (forall a, a ∈ hash_iter (kt_hash t) ->
       exists s, sym_at st a = Some s /\ freeable st (ks_link s) = true) /\
    NoDup (released_by st (hash_iter (kt_hash t)) ++ [tab]).
Proof.
  unfold free_ready, released. destruct (tab_at st tab) as [t|]; [|discriminate].
  rewrite andb_true_iff, forallb_forall, bool_decide_eq_true.
  intros [Hall Hnd]. exists t. split; [reflexivity|]. split; [|exact Hnd].
  intros a Ha. apply list_elem_of_In in Ha. specialize (Hall a Ha).
  destruct (sym_at st a) as [s|]; [eauto | discriminate].
Qed.

Lemma hash_iter_records st tab t :
  tab_at st tab = Some t ->
  forall a, a ∈ hash_iter (kt_hash t) <-> is_record st tab a = true.
Proof.
  intros Ht a. rewrite is_record_spec. unfold hash_iter.
  rewrite list_elem_of_fmap. split.
  - intros ([name a'] & -> & Hin). apply elem_of_map_to_list in Hin. eauto.
  - intros (t' & name & Ht' & Ha). rewrite Ht in Ht'. injection Ht' as <-.
    exists (name, a). split; [reflexivity|].
    apply elem_of_map_to_list. exact Ha.
Qed.

Lemma ksymtab_free_run st tab t :
  tab <> 0%N ->
  tab_at st tab = Some t ->
  (forall a, a ∈ hash_iter (kt_hash t) ->
     exists s, sym_at st a = Some s /\ freeable st (ks_link s) = true) ->
  NoDup (released_by st (hash_iter (kt_hash t)) ++ [tab]) ->
  exists st',
    ksymtab_free tab st = Ok tt st' /\
    st_next st' = st_next st /\
    st_out st' = st_out st /\
    (forall x, st_heap st' !! x =
               if bool_decide (x ∈ released_by st (hash_iter (kt_hash t)) ++ [tab])
               then None else st_heap st !! x).
Proof.
  intros Hn Ht Hall Hnd.
  apply NoDup_app in Hnd as (Hnd & Hdisj & _).
  destruct (hash_free_values_run _ st Hall Hnd)
    as (st1 & Hrun & Hnext & Hout & Hheap).
  assert (Htab1 : st_heap st1 !! tab = Some (OTab t)).
  { rewrite Hheap, bool_decide_eq_false_2.
    - apply tab_at_Some. exact Ht.
    - intros Hin. apply (Hdisj _ Hin). left. }
  exists (set_heap (delete tab) st1).
  split.
  { unfold ksymtab_free. destruct (N.eqb_spec tab 0) as [E|_]; [contradiction|].
    unfold bind at 1.
    rewrite (get_tab_run st tab t) by (apply tab_at_Some; exact Ht).
    unfold bind, hash_free. rewrite Hrun.
    apply (free_block_run st1 tab _ Htab1). }
  split; [exact Hnext|]. split; [exact Hout|].
  intros x. simpl.
  destruct (decide (x = tab)) as [->|Hx].
  - rewrite lookup_delete_eq, bool_decide_eq_true_2; [reflexivity|].
    apply elem_of_app. right. left.
  - rewrite lookup_delete_ne by congruence. rewrite Hheap.
    destruct (bool_decide_reflect (x ∈ released_by st (hash_iter (kt_hash t))))
      as [H1|H1];
      destruct (bool_decide_reflect
                  (x ∈ released_by st (hash_iter (kt_hash t)) ++ [tab]))
        as [H2|H2];
      try reflexivity; exfalso; revert H1 H2 Hx; clear;
      rewrite ?elem_of_app, ?elem_of_cons, ?elem_of_nil; tauto.
Qed.

(** X5: [ksymtab_free] on a registry none of whose blocks is reached
    twice releases the registry, every record the hash reaches and every
    block a record's link owns, and touches nothing else: all other
    blocks, the allocation mark and the output are as before.  A second
    [ksymtab_free] of the same handle is undefined, and
    [ksymtab_free (NULL)] does nothing. *)
Theorem ksymtab_free_releases st tab :
  free_ready st tab = true ->
  tab <> 0%N ->
  exists st',
    ksymtab_free tab st = Ok tt st' /\
    st_next st' = st_next st /\
    st_out st' = st_out st /\
    (forall x, st_heap st' !! x =
               if bool_decide (x ∈ released st tab) then None
               else st_heap st !! x) /\
    (forall x, x ∈ released st tab <->
               x = tab \/ is_record st tab x = true \/
               exists a, is_record st tab a = true /\ x ∈ link_block st a) /\
    ksymtab_free tab st' = Undef /\
    ksymtab_free 0 st' = Ok tt st'.
Proof.
  intros Hready Hn.
  destruct (free_ready_spec st tab Hready) as (t & Ht & Hall & Hnd).
  destruct (ksymtab_free_run st tab t Hn Ht Hall Hnd)
    as (st' & Hrun & Hnext & Hout & Hheap).
  pose proof (hash_iter_records st tab t Ht) as Hrec.
  exists st'. split; [exact Hrun|].
  split; [exact Hnext|]. split; [exact Hout|].
  split; [unfold released; rewrite Ht; exact Hheap|].
  split.
  { intros x. unfold released. rewrite Ht.
    rewrite elem_of_app, list_elem_of_singleton, released_by_spec.
    setoid_rewrite Hrec. tauto. }
  split; [|reflexivity].
  unfold ksymtab_free. destruct (N.eqb_spec tab 0) as [E|_]; [contradiction|].
  unfold bind, get_tab, bind, get_obj.
  rewrite Hheap, bool_decide_eq_true_2; [reflexivity|].
  apply elem_of_app. right. left.
Qed.

Lemma ksymtab_free_releases_witness :
  exists st',
    ksymtab_free 1%N registry_linked = Ok tt st' /\
    st_heap registry_linked !! 4%N = Some (OStr (str "alias" ++ [NUL])) /\
    st_heap st' !! 4%N = None.
Proof.
  destruct (ksymtab_free_releases registry_linked 1%N)
    as (st' & Hrun & _ & _ & Hheap & _).
  - vm_compute. reflexivity.
  - discriminate.
  - exists st'. split; [exact Hrun|]. split; [vm_compute; reflexivity|].
    rewrite Hheap. vm_compute. reflexivity.
Defined.

(** ** Building and releasing *)

Lemma add_entries_built h0 res : forall es i st t,
  built h0 res st t ->
  NoDup es ->
  (forall e, e ∈ es -> kt_hash t !! e = None) ->
  Forall (Forall (fun c => is_nul c = false)) es ->
  exists st' t',
    add_entries res es i st = Ok tt st' /\
    built h0 res st' t' /\
    st_out st' = st_out st /\
    st_next st' = (st_next st + N.of_nat (length es))%N /\
    size (kt_hash t') = (size (kt_hash t) + length es)%nat.
Proof.
  induction es as [|e es IH]; intros i st t Hb Hnd Hnew Hes.
  - exists st, t. simpl. rewrite N.add_0_r, Nat.add_0_r. auto 10.
  - inversion Hes as [|? ? He Hes']; subst.
    apply NoDup_cons in Hnd as [Hne Hnd].
    destruct Hb as (Ht & Hlt & Hlow & Hhigh & Hcover & Hrec).
    cbn [add_entries]. unfold bind.
    rewrite (ksymtab_add_sym_run _ _ _ _ _ Ht).
    assert (Hkey : c_prefix (e ++ [NUL]) = e) by (apply c_prefix_no_nul; exact He).
    set (st1 := added res e i t st).
    set (t1 := {| kt_hash := hash_add (kt_hash t) (c_prefix (e ++ [NUL]))
                               (st_next st);
                  kt_mark_count := kt_mark_count t |}).
    assert (Hb1 : built h0 res st1 t1).
    { unfold built, st1, added. cbn [st_heap st_next].
      split; [apply lookup_insert_eq|].
      split; [lia|].
      split.
      { intros x Hx. rewrite !lookup_insert_ne by lia. apply Hlow. exact Hx. }
      split.
      { intros x Hx. rewrite !lookup_insert_ne by lia. apply Hhigh. lia. }
      split.
      { intros x Hx. unfold t1, hash_add. cbn [kt_hash].
        destruct (decide (x = st_next st)) as [->|Hxn].
        - exists (c_prefix (e ++ [NUL])). apply lookup_insert_eq.
        - destruct (Hcover x) as [name Hname]; [lia|].
          exists name. rewrite lookup_insert_ne; [exact Hname|].
          intros <-. rewrite Hkey in Hname. rewrite Hnew in Hname by left.
          discriminate. }
      intros name a. unfold t1, hash_add. cbn [kt_hash].
      destruct (decide (c_prefix (e ++ [NUL]) = name)) as [<-|Hname].
      - rewrite lookup_insert_eq. intros [= <-]. split; [lia|].
        unfold sym_at. cbn [st_heap].
        rewrite lookup_insert_ne by lia. rewrite lookup_insert_eq.
        eexists. split; [reflexivity|]. cbn [ks_key ks_link]. auto.
      - rewrite lookup_insert_ne by exact Hname. intros Ha.
        destruct (Hrec _ _ Ha) as (Hr & s & Hs & Hk & Hl).
        split; [lia|]. exists s. split; [|auto].
        unfold sym_at in *. cbn [st_heap].
        rewrite !lookup_insert_ne by lia. exact Hs. }
    destruct (IH (i + 1) st1 t1 Hb1 Hnd)
      as (st' & t' & Hrun & Hb' & Hout & Hnext & Hsize).
    { intros e' He'. unfold t1, hash_add. cbn [kt_hash].
      rewrite Hkey, lookup_insert_ne; [apply Hnew; right; exact He'|].
      intros ->. contradiction. }
    { exact Hes'. }
    exists st', t'. split; [exact Hrun|]. split; [exact Hb'|].
    split; [rewrite Hout; reflexivity|].
    split; [rewrite Hnext; unfold st1, added; cbn [st_next length]; lia|].
    rewrite Hsize. unfold t1, hash_add. cbn [kt_hash length].
    rewrite Hkey, map_size_insert_None by (apply Hnew; left). lia.
Qed.

Lemma built_released h0 res st t :
  built h0 res st t ->
  released_by st (hash_iter (kt_hash t)) = hash_iter (kt_hash t) /\
  NoDup (hash_iter (kt_hash t)) /\
  (forall x, x ∈ hash_iter (kt_hash t) <-> (res < x < st_next st)%N).
Proof.
  intros (Ht & Hlt & Hlow & Hhigh & Hcover & Hrec).
  assert (Hin : forall x, x ∈ hash_iter (kt_hash t) <->
                          exists name, kt_hash t !! name = Some x).
  { intros x. unfold hash_iter. rewrite list_elem_of_fmap. split.
    - intros ([name a] & -> & H). apply elem_of_map_to_list in H. eauto.
    - intros [name H]. exists (name, x). split; [reflexivity|].
      apply elem_of_map_to_list. exact H. }
  split; [|split].
  - assert (Hnull : forall vs, (forall a, a ∈ vs -> link_block st a = []) ->
                               released_by st vs = vs).
    { induction vs as [|v vs IH]; intros H; [reflexivity|].
      cbn [released_by]. rewrite (H v) by left. simpl. f_equal.
      apply IH. intros a Ha. apply H. right. exact Ha. }
    apply Hnull. intros a Ha. apply Hin in Ha as [name Ha].
    destruct (Hrec _ _ Ha) as (_ & s & Hs & _ & Hl).
    unfold link_block. rewrite Hs, Hl. reflexivity.
  - unfold hash_iter. apply NoDup_fmap_2_strong; [|apply NoDup_map_to_list].
    intros [n1 a1] [n2 a2] H1 H2 Heq. simpl in Heq. subst a2.
    apply elem_of_map_to_list in H1, H2.
    destruct (Hrec _ _ H1) as (_ & s1 & Hs1 & Hk1 & _).
    destruct (Hrec _ _ H2) as (_ & s2 & Hs2 & Hk2 & _).
    f_equal. congruence.
  - intros x. rewrite Hin. split.
    + intros [name Ha]. apply (Hrec _ _ Ha).
    + apply Hcover.
Qed.

(** X6: a registry built by [parse_ksymtab_strings] from a section text
    whose entries are pairwise distinct is released in full by
    [ksymtab_free]: the heap is again the one before the parse, and
    nothing was printed; the allocator handed out one block for the
    registry and one per entry. *)
Theorem parse_ksymtab_strings_free bs st :
  heap_bounded st = true ->
  (0 < st_next st)%N ->
  Z.of_nat (length bs) < 2 ^ 64 ->
  last bs = Some NUL ->
  NoDup (entries bs) ->
  exists tab st1 st2,
    parse_ksymtab_strings (Buf bs 0) (Z.of_nat (length bs)) st = Ok tab st1 /\
    ksymtab_len tab st1 = Ok (Z.of_nat (length (entries bs))) st1 /\
    ksymtab_free tab st1 = Ok tt st2 /\
    st_heap st2 = st_heap st /\
    st_out st2 = st_out st /\
    st_next st2 = (st_next st + 1 + N.of_nat (length (entries bs)))%N.
Proof.
  intros Hbound Hpos Hsz Hlast Hnd.
  rewrite (parse_ksymtab_strings_run bs st Hsz Hlast).
  unfold bind at 1. unfold ksymtab_new, alloc at 1.
  set (t0 := {| kt_hash := hash_new; kt_mark_count := 0 |}).
  set (st0 := {| st_heap := <[st_next st := OTab t0]> (st_heap st);
                 st_next := N.succ (st_next st);
                 st_out := st_out st |}).
  assert (Hfresh : forall x, (st_next st <= x)%N -> st_heap st !! x = None).
  { intros x Hx. destruct (st_heap st !! x) eqn:E; [|reflexivity].
    assert (x < st_next st)%N by (apply heap_bounded_spec; eauto). lia. }
  assert (Hb0 : built (st_heap st) (st_next st) st0 t0).
  { unfold built, st0. cbn [st_heap st_next].
    split; [apply lookup_insert_eq|]. split; [lia|].
    split; [intros x Hx; rewrite lookup_insert_ne by lia; reflexivity|].
    split; [intros x Hx; rewrite lookup_insert_ne by lia; apply Hfresh; lia|].
    split; [intros x Hx; lia|].
    intros name a Ha. unfold t0, hash_new in Ha. simpl in Ha.
    rewrite lookup_empty in Ha. discriminate. }
  destruct (add_entries_built (st_heap st) (st_next st) (entries bs) 0 st0 t0
              Hb0 Hnd) as (st1 & t1 & Hrun & Hb1 & Hout & Hnext & Hsize).
  { intros e _. apply lookup_empty. }
  { apply entries_no_nul. }
  destruct (built_released _ _ _ _ Hb1) as (Hrel & Hndv & Hrange).
  pose proof Hb1 as (Ht1 & Hlt1 & Hlow1 & Hhigh1 & Hcover1 & Hrec1).
  assert (Htab : st_next st <> 0%N) by lia.
  destruct (ksymtab_free_run st1 (st_next st) t1 Htab)
    as (st2 & Hfree & Hnext2 & Hout2 & Hheap2).
  { apply tab_at_Some. exact Ht1. }
  { intros a Ha. unfold hash_iter in Ha. apply list_elem_of_fmap in Ha
      as ([name a'] & -> & Ha). apply elem_of_map_to_list in Ha.
    destruct (Hrec1 _ _ Ha) as (_ & s & Hs & _ & Hl).
    exists s. split; [exact Hs|]. simpl. rewrite Hl. reflexivity. }
  { rewrite Hrel. apply NoDup_app. split; [exact Hndv|].
    split; [|apply NoDup_singleton].
    intros x Hx Hx'. apply list_elem_of_singleton in Hx'. subst x.
    apply Hrange in Hx. lia. }
  exists (st_next st), st1, st2.
  split; [unfold bind; rewrite Hrun; reflexivity|].
  split.
  { rewrite (ksymtab_len_run st1 (st_next st) t1 Htab)
      by (apply tab_at_Some; exact Ht1).
    rewrite Hsize. unfold t0, hash_new. cbn [kt_hash].
    rewrite map_size_empty. reflexivity. }
  split; [exact Hfree|].
  split.
  { apply map_eq. intros x. rewrite Hheap2, Hrel.
    case_bool_decide as Hx.
    - symmetry. apply Hfresh.
      apply elem_of_app in Hx as [Hx|Hx].
      + apply Hrange in Hx. lia.
      + apply list_elem_of_singleton in Hx. lia.
    - destruct (N.lt_ge_cases x (st_next st)) as [Hlo|Hhi]; [apply Hlow1; exact Hlo|].
      destruct (N.lt_ge_cases x (st_next st1)) as [Hin|Hout'].
      + exfalso. apply Hx. apply elem_of_app.
        destruct (decide (x = st_next st)) as [->|Hne].
        * right. left.
        * left. apply Hrange. lia.
      + rewrite Hhigh1 by exact Hout'. symmetry. apply Hfresh. exact Hhi. }
  split; [rewrite Hout2, Hout; reflexivity|].
  rewrite Hnext2, Hnext. unfold st0. cbn [st_next]. lia.
Qed.

Lemma parse_ksymtab_strings_free_witness :
  exists tab st1 st2,
    parse_ksymtab_strings (Buf blob_foo_bar 0) 9 init_state = Ok tab st1 /\
    ksymtab_free tab st1 = Ok tt st2 /\
    st_heap st2 = ∅.
Proof.
  destruct (parse_ksymtab_strings_free blob_foo_bar init_state)
    as (tab & st1 & st2 & Hrun & _ & Hfree & Hheap & _).
  - vm_compute. reflexivity.
  - reflexivity.
  - vm_compute. reflexivity.
  - reflexivity.
  - apply (bool_decide_eq_true_1 (NoDup (entries blob_foo_bar))).
    vm_compute. reflexivity.
  - exists tab, st1, st2. auto.
Defined.

(** * Links *)

Lemma set_link_free_step st a s :
  sym_at st a = Some s ->
  link_ready st (ks_link s) = true ->
  exists st1,
    (if negb (is_null (ks_link s)) then free (ks_link s) else ret tt) st
      = Ok tt st1 /\
    st_next st1 = st_next st /\
    st_out st1 = st_out st /\
    (a ∉ link_block st a) /\
    forall x, st_heap st1 !! x =
              if bool_decide (x ∈ link_block st a) then None
              else st_heap st !! x.
Proof.
  intros Hs Hready. unfold link_block. rewrite Hs.
  destruct (link_ready_spec _ _ Hready) as [Hnull|(b & bs & Hl & Hb & Hlive & _)].
  - rewrite Hnull. exists st. simpl. repeat split; try reflexivity.
    apply not_elem_of_nil.
  - rewrite Hl. cbn [is_null negb free]. rewrite Z.eqb_refl.
    rewrite (free_block_run st b _ Hlive).
    exists (set_heap (delete b) st).
    split; [reflexivity|]. split; [reflexivity|]. split; [reflexivity|].
    split.
    { intros Hin. apply list_elem_of_singleton in Hin. subst b.
      apply sym_at_Some in Hs. congruence. }
    intros x. simpl. case_bool_decide as Hx.
    + apply list_elem_of_singleton in Hx. subst x. apply lookup_delete_eq.
    + apply lookup_delete_ne. intros ->. apply Hx. left.
Qed.

(** X7: [ksymtab_ksym_set_link] on a record whose link is null or owns
    a block.  With a null argument the link becomes null; with a string
    that does not lie in the record's link block the link becomes a
    fresh block holding a copy of the string.  In both cases the old
    link block is released and every other block is untouched.  With a
    pointer into the record's own link block the behaviour is undefined:
    the block is freed before it is copied. *)
Theorem ksymtab_ksym_set_link_outcome st a s link :
  sym_at st a = Some s ->
  link_ready st (ks_link s) = true ->
  (a < st_next st)%N ->
  (is_null link = true ->
   exists st',
     ksymtab_ksym_set_link a link st = Ok tt st' /\
     sym_at st' a = Some (set_link NULL s) /\
     st_next st' = st_next st /\
     (forall b, b ∈ link_block st a -> st_heap st' !! b = None) /\
     (forall x, x <> a -> x ∉ link_block st a ->
                st_heap st' !! x = st_heap st !! x)) /\
  (forall text,
     is_null link = false ->
     cstr_at st link = Some text ->
     (forall b off, link = Heap b off -> b ∉ link_block st a) ->
     exists st',
       ksymtab_ksym_set_link a link st = Ok tt st' /\
       sym_at st' a = Some (set_link (Heap (st_next st) 0) s) /\
       cstr_at st' (Heap (st_next st) 0) = Some text /\
       st_next st' = N.succ (st_next st) /\
       (forall b, b ∈ link_block st a -> st_heap st' !! b = None) /\
       (forall x, x <> a -> x <> st_next st -> x ∉ link_block st a ->
                  st_heap st' !! x = st_heap st !! x)) /\
  (forall b off, link = Heap b off -> b ∈ link_block st a ->
     ksymtab_ksym_set_link a link st = Undef).
Proof.
  intros Hs Hready Ha.
  destruct (set_link_free_step st a s Hs Hready)
    as (st1 & Hfree & Hnext1 & Hout1 & Hself & Hheap1).
  assert (Hrun : ksymtab_ksym_set_link a link st =
                 (l <- safe_strdup_or_null link ;;
                  put_obj a (OSym (set_link l s))) st1).
  { unfold ksymtab_ksym_set_link. unfold bind at 1.
    rewrite (get_sym_run st a s) by (apply sym_at_Some; exact Hs).
    unfold bind at 1. rewrite Hfree. reflexivity. }
  assert (Hold : forall b, b ∈ link_block st a -> b <> a /\ (b < st_next st)%N).
  { intros b Hb. split; [intros ->; contradiction|].
    unfold link_block in Hb. rewrite Hs in Hb.
    destruct (link_ready_spec _ _ Hready) as [Hnull|(b' & bs & Hl & Hb' & _)].
    - rewrite Hnull in Hb. inversion Hb.
    - rewrite Hl in Hb. apply list_elem_of_singleton in Hb. subst. exact Hb'. }
  split; [|split].
  - intros Hnull. rewrite Hrun. unfold bind, safe_strdup_or_null.
    rewrite Hnull. unfold ret, put_obj.
    eexists. split; [reflexivity|].
    split; [unfold sym_at; simpl; rewrite lookup_insert_eq; reflexivity|].
    split; [exact Hnext1|].
    split.
    + intros b Hb. simpl. destruct (Hold b Hb) as [Hne _].
      rewrite lookup_insert_ne by congruence.
      rewrite Hheap1, bool_decide_eq_true_2; [reflexivity | exact Hb].
    + intros x Hx Hnl. simpl. rewrite lookup_insert_ne by congruence.
      rewrite Hheap1, bool_decide_eq_false_2; [reflexivity | exact Hnl].
  - intros text Hnn Htext Hsep. rewrite Hrun.
    unfold bind, safe_strdup_or_null. rewrite Hnn.
    unfold bind, load_cstr.
    assert (Htext1 : cstr_at st1 link = Some text).
    { rewrite <- Htext. apply cstr_at_frame. intros b off Hl.
      rewrite Hheap1, bool_decide_eq_false_2; [reflexivity|].
      apply (Hsep b off Hl). }
    rewrite Htext1. unfold alloc, ret, put_obj. rewrite Hnext1.
    eexists. split; [reflexivity|].
    split; [unfold sym_at; simpl; rewrite lookup_insert_eq; reflexivity|].
    split.
    { unfold cstr_at, chars_of. simpl.
      rewrite lookup_insert_ne by lia. rewrite lookup_insert_eq.
      simpl. rewrite drop_0. unfold c_str.
      rewrite existsb_is_nul_terminated. f_equal.
      unfold cstr_at in Htext. destruct (chars_of st link) as [[bs off]|];
        [|discriminate].
      destruct (0 <=? off); [|discriminate]. unfold c_str in Htext.
      destruct (existsb is_nul (drop (Z.to_nat off) bs)); [|discriminate].
      injection Htext as <-. apply c_prefix_terminated. }
    split; [reflexivity|].
    split.
    + intros b Hb. simpl. destruct (Hold b Hb) as [Hne Hlt].
      rewrite lookup_insert_ne by congruence.
      rewrite lookup_insert_ne by lia.
      rewrite Hheap1, bool_decide_eq_true_2; [reflexivity | exact Hb].
    + intros x Hx Hxn Hnl. simpl. rewrite !lookup_insert_ne by congruence.
      rewrite Hheap1, bool_decide_eq_false_2; [reflexivity | exact Hnl].
  - intros b off -> Hb. rewrite Hrun.
    unfold bind, safe_strdup_or_null. cbn [is_null].
    unfold bind, load_cstr, cstr_at, chars_of.
    rewrite Hheap1, bool_decide_eq_true_2 by exact Hb. reflexivity.
Qed.

Lemma ksymtab_ksym_set_link_outcome_witness :
  (exists st',
     ksymtab_ksym_set_link 2%N (Buf (str "other" ++ [NUL]) 0) registry_linked
       = Ok tt st' /\
     cstr_at st' (Heap 5%N 0) = Some (str "other") /\
     st_heap st' !! 4%N = None) /\
  ksymtab_ksym_set_link 2%N (Heap 4%N 0) registry_linked = Undef.
Proof.
  destruct (ksymtab_ksym_set_link_outcome registry_linked 2%N
              (default (Build_ksym 0 false NULL 0%N [])
                 (sym_at registry_linked 2%N))
              (Buf (str "other" ++ [NUL]) 0))
    as (_ & Hreplace & _); [vm_compute; reflexivity ..|].
  destruct (ksymtab_ksym_set_link_outcome registry_linked 2%N
              (default (Build_ksym 0 false NULL 0%N [])
                 (sym_at registry_linked 2%N))
              (Heap 4%N 0))
    as (_ & _ & Halias); [vm_compute; reflexivity ..|].
  split.
  - destruct (Hreplace (str "other")) as (st' & Hrun & _ & Htext & _ & Hold & _).
    + reflexivity.
    + vm_compute. reflexivity.
    + discriminate.
    + exists st'. split; [exact Hrun|]. split; [exact Htext|].
      apply Hold. vm_compute. left.
  - apply (Halias 4%N 0 eq_refl). vm_compute. left.
Defined.

(** * Further properties of the ELF reader *)

Lemma scan_sections_inv section scns st :
  match scan_sections scns section st with
  | Ok None st' => st' = st /\ Forall (other_name section) scns
  | Ok (Some (scn, shdr)) st' =>
      st' = st /\
      exists pre post,
        scns = pre ++ scn :: post /\
        Forall (other_name section) pre /\
        scn_shdr scn = Some shdr /\ scn_name scn = Some section
  | Fatal e st' => st' = st /\ (e = F_getshdr \/ e = F_strptr)
  | Undef => False
  end.
Proof.
  induction scns as [|scn scns IH]; cbn [scan_sections].
  - split; [reflexivity | constructor].
  - destruct (scn_shdr scn) as [shdr|] eqn:Eh; [|split; auto].
    destruct (scn_name scn) as [name|] eqn:En; [|split; auto].
    case_bool_decide as Hname.
    + subst name. split; [reflexivity|].
      exists [], scns. split; [reflexivity|]. split; [constructor|]. auto.
    + destruct (scan_sections scns section st) as [[[scn' shdr']|] st'|e st'|];
        try exact IH.
      * destruct IH as (-> & pre & post & -> & Hpre & Hs & Hn).
        split; [reflexivity|].
        exists (scn :: pre), post. split; [reflexivity|].
        split; [|auto]. constructor; [|exact Hpre].
        split; [rewrite Eh; eauto | eauto].
      * destruct IH as [-> Hall]. split; [reflexivity|].
        constructor; [|exact Hall]. split; [rewrite Eh; eauto | eauto].
Qed.

Lemma ksymtab_elf_get_section_inv st ke section :
  match ksymtab_elf_get_section ke section st with
  | Ok r st' => st' = st /\ section_found st ke section r
  | Fatal e st' =>
      st' = st /\
      (e = F_getshdr \/ e = F_strptr \/ e = F_nobits section \/
       e = F_empty section)
  | Undef => True
  end.
Proof.
  unfold ksymtab_elf_get_section.
  unfold bind at 1. unfold get_ke, bind at 1, get_obj.
  destruct (st_heap st !! ke) as [[?|?|?|kev|? ?|?]|] eqn:Hke; try exact I.
  unfold ret at 1.
  unfold bind at 1. unfold get_elf, bind at 1, get_obj.
  destruct (st_heap st !! ke_elf kev) as [[?|?|?|?|img fd|?]|] eqn:Helf;
    try exact I.
  unfold ret at 1. unfold bind at 1.
  pose proof (scan_sections_inv section (elf_scns img) st) as Hscan.
  destruct (scan_sections (elf_scns img) section st)
    as [[[scn shdr]|] st1|e1 st1|]; [| | |contradiction].
  - destruct Hscan as (-> & pre & post & Hscns & Hpre & Hs & Hn).
    destruct (sh_type shdr =? SHT_NOBITS) eqn:Et; [unfold fail; auto|].
    destruct (scn_data scn) as [d|] eqn:Ed; [|unfold fail; auto 6].
    destruct (Z.of_nat (length d) =? 0) eqn:El; [unfold fail; auto 6|].
    unfold ret. split; [reflexivity|].
    exists kev, img, fd. split; [exact Hke|]. split; [exact Helf|].
    exists pre, scn, post, shdr, d.
    repeat (split; [first [assumption | reflexivity | blia]|]).
    rewrite (load_bytes_Buf d 0) by (simpl; lia).
    rewrite drop_0, firstn_all. reflexivity.
  - destruct Hscan as [-> Hall]. unfold ret. split; [reflexivity|].
    exists kev, img, fd. auto.
  - destruct Hscan as [-> He]. split; [reflexivity|]. tauto.
Qed.

(** X8: what [ksymtab_elf_get_section] can do.  It never changes the
    state.  When it reports a section, that section is the first one of
    the image with the name asked for, its type is not SHT_NOBITS, and
    the pointer and size returned are the start and the (non-zero)
    length of its contents, all of which can be read.  When it reports
    none, no section of the image has that name.  When it stops the
    process, it is with one of its four messages. *)
Theorem ksymtab_elf_get_section_returns st ke section :
  (forall r st',
     ksymtab_elf_get_section ke section st = Ok r st' ->
     st' = st /\ section_found st ke section r) /\
  (forall e st',
     ksymtab_elf_get_section ke section st = Fatal e st' ->
     st' = st /\
     (e = F_getshdr \/ e = F_strptr \/ e = F_nobits section \/
      e = F_empty section)).
Proof.
  pose proof (ksymtab_elf_get_section_inv st ke section) as H.
  split.
  - intros r st' Hrun. rewrite Hrun in H. exact H.
  - intros e st' Hrun. rewrite Hrun in H. exact H.
Qed.

Lemma ksymtab_elf_get_section_returns_witness :
  ksymtab_elf_get_section 3%N STRTAB opened_fixture =
    Ok (Some (Buf strtab_fixture 0, 14)) opened_fixture /\
  load_bytes (Buf strtab_fixture 0) 14 opened_fixture =
    Ok strtab_fixture opened_fixture.
Proof.
  assert (Hrun : ksymtab_elf_get_section 3%N STRTAB opened_fixture =
                 Ok (Some (Buf strtab_fixture 0, 14)) opened_fixture)
    by (vm_compute; reflexivity).
  split; [exact Hrun|].
  destruct (proj1 (ksymtab_elf_get_section_returns opened_fixture 3%N STRTAB)
              _ _ Hrun)
    as (_ & kev & img & fd & _ & _ & pre & scn & post & shdr & d & _ & _ & _ & _
        & _ & _ & Hp & _ & _ & Hload).
  injection Hp as <-. exact Hload.
Defined.

Lemma other_name_find_scn section pre :
  Forall (other_name section) pre ->
  forall rest, find_scn (pre ++ rest) section = find_scn rest section.
Proof.
  induction 1 as [|scn pre [[shdr Hs] (name & Hn & Hne)] _ IH]; intros rest;
    [reflexivity|].
  cbn [app find_scn]. rewrite Hs, Hn.
  rewrite bool_decide_eq_false_2 by exact Hne. apply IH.
Qed.

Lemma section_found_data st ke kev img fd section r :
  st_heap st !! ke = Some (OKe kev) ->
  st_heap st !! ke_elf kev = Some (OElf img fd) ->
  section_found st ke section r ->
  match r with
  | None => lacks img section = true
  | Some (p, size) =>
      exists d, section_data img section = Some d /\
                p = Buf d 0 /\ size = Z.of_nat (length d)
  end.
Proof.
  intros Hke Helf (kev' & img' & fd' & Hke' & Helf' & Hr).
  rewrite Hke in Hke'. injection Hke' as <-.
  rewrite Helf in Helf'. injection Helf' as <- <-.
  destruct r as [[p size]|].
  - destruct Hr as (pre & scn & post & shdr & d & Hscns & Hpre & Hn & Hs & Ht
                    & Hd & Hp & Hsize & Hpos & _).
    exists d. split; [|auto].
    unfold section_data. rewrite Hscns, (other_name_find_scn _ _ Hpre).
    cbn [find_scn]. rewrite Hs, Hn, bool_decide_eq_true_2 by reflexivity.
    destruct (sh_type shdr =? SHT_NOBITS) eqn:E; [blia|].
    rewrite Hd. destruct (Z.of_nat (length d) =? 0) eqn:E0; [blia | reflexivity].
  - unfold lacks.
    rewrite <- (app_nil_r (elf_scns img)), (other_name_find_scn _ _ Hr).
    reflexivity.
Qed.

(** X9: what [ksymtab_elf_open] has done when it returns.  The file was
    opened and [elf_begin] succeeded; the descriptor and the Elf handle
    are two new blocks, nothing older was touched and nothing was
    printed.  A NULL result means the input is not ELF (by kind or by
    magic), and then both blocks stay open.  A handle means a 64-bit ELF
    image; it is a third new block that refers to the other two, and its
    string table is the contents of the first .strtab section when there
    is one, and otherwise whatever the two locals held. *)
Theorem ksymtab_elf_open_returns e ind filename st ke st' :
  ksymtab_elf_open e ind filename st = Ok ke st' ->
  exists f img,
    env_elf_version e <> EV_NONE /\
    env_fs e filename = Some f /\
    file_elf f = Some img /\
    st_out st' = st_out st /\
    (forall x, (x < st_next st)%N -> st_heap st' !! x = st_heap st !! x) /\
    st_heap st' !! st_next st = Some (OFd f) /\
    st_heap st' !! N.succ (st_next st) = Some (OElf img (st_next st)) /\
    if (ke =? 0)%N then
      not_elf img = true /\
      st_next st' = N.succ (N.succ (st_next st))
    else
      ke = N.succ (N.succ (st_next st)) /\
      st_next st' = N.succ ke /\
      elf_kind img = ELF_K_ELF /\
      elf_class img = ELFCLASS64 /\
      exists kev,
        st_heap st' !! ke = Some (OKe kev) /\
        ke_elf kev = N.succ (st_next st) /\
        ke_fd kev = st_next st /\
        match section_data img STRTAB with
        | Some d =>
            ke_strtab kev = Buf d 0 /\ ke_strtab_size kev = Z.of_nat (length d)
        | None =>
            lacks img STRTAB = true /\
            ke_strtab kev = ind_strtab ind /\
            ke_strtab_size kev = ind_strtab_size ind
        end.
Proof.
  unfold ksymtab_elf_open.
  destruct (env_elf_version e =? EV_NONE) eqn:Ev; [discriminate|].
  destruct (env_fs e filename) as [f|] eqn:Hfs; [|discriminate].
  unfold bind at 1. unfold alloc at 1.
  destruct (file_elf f) as [img|] eqn:Hf; [|discriminate].
  unfold bind at 1. unfold alloc at 1. cbn [st_heap st_next st_out].
  set (fd := st_next st).
  intros Hrun. exists f, img.
  split; [blia|]. split; [reflexivity|]. split; [exact Hf|].
  destruct (negb (bool_decide (elf_kind img = ELF_K_ELF))) eqn:Ek.
  { injection Hrun as <- <-. cbn [st_heap st_next st_out].
    split; [reflexivity|].
    split; [intros x Hx; rewrite !lookup_insert_ne by (unfold fd; lia); reflexivity|].
    split; [rewrite lookup_insert_ne by lia; apply lookup_insert_eq|].
    split; [apply lookup_insert_eq|].
    rewrite N.eqb_refl. unfold not_elf. rewrite Ek. auto. }
  destruct (elf_ehdr img) as [ehdr|] eqn:Hehdr; [|discriminate].
  destruct (negb (bool_decide (take SELFMAG (e_ident ehdr) = ELFMAG))) eqn:Em.
  { injection Hrun as <- <-. cbn [st_heap st_next st_out].
    split; [reflexivity|].
    split; [intros x Hx; rewrite !lookup_insert_ne by (unfold fd; lia); reflexivity|].
    split; [rewrite lookup_insert_ne by lia; apply lookup_insert_eq|].
    split; [apply lookup_insert_eq|].
    rewrite N.eqb_refl. unfold not_elf. rewrite Hehdr, Em, orb_true_r. auto. }
  destruct (negb (elf_class img =? ELFCLASS64)) eqn:Ec; [discriminate|].
  destruct (elf_shdrstrndx img) as [ndx|] eqn:Hndx; [|discriminate].
  unfold bind at 1 in Hrun. unfold alloc at 1 in Hrun.
  cbn [st_heap st_next st_out] in Hrun.
  unfold bind at 1 in Hrun.
  match type of Hrun with
  | context [ksymtab_elf_get_section ?k ?s ?st2] =>
      pose proof (ksymtab_elf_get_section_inv st2 k s) as Hinv;
      destruct (ksymtab_elf_get_section k s st2) as [r st3|e3 st3|] eqn:Hsec;
      [|discriminate|discriminate]
  end.
  destruct Hinv as [-> Hfound].
  eapply section_found_data in Hfound; cycle 1.
  { cbn [st_heap]. apply lookup_insert_eq. }
  { cbn [st_heap ke_elf]. rewrite lookup_insert_ne by lia. apply lookup_insert_eq. }
  assert (Hke : (ke =? 0)%N = false /\ ke = N.succ (N.succ fd)).
  { destruct r as [[p size]|]; unfold bind, put_obj, ret in Hrun;
      injection Hrun as <- _; (split; [apply N.eqb_neq; lia | reflexivity]). }
  destruct Hke as [Hke0 Hke]. rewrite Hke0.
  apply negb_false_iff, bool_decide_eq_true in Ek.
  apply negb_false_iff in Ec. apply Z.eqb_eq in Ec.
  destruct r as [[p size]|]; unfold bind, put_obj, ret in Hrun;
    injection Hrun as _ <-; unfold set_heap; cbn [st_heap st_next st_out];
    (split; [reflexivity|]);
    (split; [intros x Hx; rewrite !lookup_insert_ne by (unfold fd; lia);
             reflexivity|]);
    (split; [rewrite !lookup_insert_ne by lia; apply lookup_insert_eq|]);
    (split; [rewrite !lookup_insert_ne by lia; apply lookup_insert_eq|]);
    (split; [exact Hke|]); (split; [rewrite Hke; reflexivity|]);
    (split; [exact Ek|]); (split; [exact Ec|]);
    eexists; (split; [rewrite Hke; apply lookup_insert_eq|]);
    cbn [ke_elf ke_fd ke_strtab ke_strtab_size];
    (split; [reflexivity|]); (split; [reflexivity|]).
  - destruct Hfound as (d & Hd & -> & ->). rewrite Hd. auto.
  - rewrite (lacks_section_data _ _ Hfound). auto.
Qed.

Lemma ksymtab_elf_open_returns_witness :
  exists f img,
    env_fs (env_with (Some elf_fixture)) "module.ko" = Some f /\
    file_elf f = Some img /\
    st_heap opened_fixture !! 1%N = Some (OFd f) /\
    st_heap opened_fixture !! 2%N = Some (OElf img 1%N).
Proof.
  destruct (ksymtab_elf_open_returns (env_with (Some elf_fixture)) no_ind
              "module.ko" init_state 3%N opened_fixture)
    as (f & img & _ & Hfs & Hf & _ & _ & Hfd & Helf & _).
  - vm_compute. reflexivity.
  - exists f, img. auto.
Defined.

Lemma heap_bounded_fresh st a :
  heap_bounded st = true -> (st_next st <= a)%N -> st_heap st !! a = None.
Proof.
  intros Hb Ha. destruct (st_heap st !! a) as [o|] eqn:E; [|reflexivity].
  assert (a < st_next st)%N by (apply heap_bounded_spec; eauto). lia.
Qed.

(** X10: on a 64-bit ELF image on which the libelf calls succeed and
    whose .strtab is absent or has contents, [ksymtab_elf_open] returns a
    handle, and [ksymtab_elf_close] on it releases the descriptor, the
    Elf handle and the handle structure: the heap is again the one
    before the open.  Using the handle after that, for a second close or
    a section lookup, is undefined. *)
Theorem ksymtab_elf_open_close e ind filename f img st :
  env_elf_version e <> EV_NONE ->
  env_fs e filename = Some f ->
  file_elf f = Some img ->
  valid_elf64 img = true ->
  absent_or_loaded img STRTAB = true ->
  heap_bounded st = true ->
  exists ke st1 st2,
    ksymtab_elf_open e ind filename st = Ok ke st1 /\
    ke <> 0%N /\
    ksymtab_elf_close ke st1 = Ok tt st2 /\
    st_heap st2 = st_heap st /\
    st_out st2 = st_out st /\
    ksymtab_elf_close ke st2 = Undef /\
    (forall section, ksymtab_elf_get_section ke section st2 = Undef).
Proof.
  intros Hver Hfs Hf Hvalid Hstr Hb.
  exists (N.succ (N.succ (st_next st))), (opened_state ind f img st).
  eexists.
  split; [apply ksymtab_elf_open_run; assumption|].
  split; [lia|].
  split; [apply ksymtab_elf_close_opened; exact Hb|].
  cbn [st_heap st_out].
  split; [reflexivity|]. split; [reflexivity|].
  assert (Hgone : st_heap st !! N.succ (N.succ (st_next st)) = None)
    by (apply heap_bounded_fresh; [exact Hb | lia]).
  split.
  - unfold ksymtab_elf_close, bind, get_ke, bind, get_obj. cbn [st_heap].
    rewrite Hgone. reflexivity.
  - intros section.
    unfold ksymtab_elf_get_section, bind, get_ke, bind, get_obj. cbn [st_heap].
    rewrite Hgone. reflexivity.
Qed.

Lemma ksymtab_elf_open_close_witness :
  exists ke st1 st2,
    ksymtab_elf_open (env_with (Some elf_fixture)) no_ind "module.ko" init_state
      = Ok ke st1 /\
    ksymtab_elf_close ke st1 = Ok tt st2 /\
    st_heap st2 = ∅ /\
    ksymtab_elf_close ke st2 = Undef.
Proof.
  destruct (ksymtab_elf_open_close (env_with (Some elf_fixture)) no_ind
              "module.ko" {| file_elf := Some elf_fixture |} elf_fixture
              init_state)
    as (ke & st1 & st2 & Hopen & _ & Hclose & Hheap & _ & Hagain & _).
  - discriminate.
  - reflexivity.
  - reflexivity.
  - vm_compute. reflexivity.
  - vm_compute. reflexivity.
  - vm_compute. reflexivity.
  - exists ke, st1, st2. auto.
Defined.

(** X11: on an input that is not ELF, [ksymtab_read] returns NULL and
    leaves the descriptor and the Elf handle open: they are two blocks
    more on the heap than before the call, and the NULL result gives the
    caller nothing to release them with. *)
Theorem ksymtab_read_not_elf_open e ind filename f img st :
  env_elf_version e <> EV_NONE ->
  env_fs e filename = Some f ->
  file_elf f = Some img ->
  not_elf img = true ->
  heap_bounded st = true ->
  exists st',
    ksymtab_read e ind filename st = Ok 0%N st' /\
    st_heap st' = <[N.succ (st_next st) := OElf img (st_next st)]>
                    (<[st_next st := OFd f]> (st_heap st)) /\
    size (st_heap st') = S (S (size (st_heap st))) /\
    st_out st' = st_out st.
Proof.
  intros Hver Hfs Hf Hnot Hb.
  assert (Hrun : ksymtab_elf_open e ind filename st =
                 Ok 0%N {| st_heap := <[N.succ (st_next st) := OElf img (st_next st)]>
                                        (<[st_next st := OFd f]> (st_heap st));
                           st_next := N.succ (N.succ (st_next st));
                           st_out := st_out st |}).
  { unfold ksymtab_elf_open.
    destruct (env_elf_version e =? EV_NONE) eqn:Ev; [blia|].
    rewrite Hfs. unfold bind at 1. unfold alloc at 1.
    rewrite Hf. unfold bind at 1. unfold alloc at 1.
    unfold not_elf in Hnot.
    destruct (negb (bool_decide (elf_kind img = ELF_K_ELF))) eqn:Ek;
      [reflexivity|].
    cbn [orb] in Hnot.
    destruct (elf_ehdr img) as [ehdr|]; [|discriminate].
    rewrite Hnot. reflexivity. }
  eexists. split.
  { unfold ksymtab_read, bind. rewrite Hrun. reflexivity. }
  cbn [st_heap st_out]. split; [reflexivity|]. split; [|reflexivity].
  rewrite !map_size_insert_None; [reflexivity| |].
  - apply heap_bounded_fresh; [exact Hb | lia].
  - rewrite lookup_insert_ne by lia.
    apply heap_bounded_fresh; [exact Hb | lia].
Qed.

Lemma ksymtab_read_not_elf_open_witness :
  exists st',
    ksymtab_read (env_with (Some ar_fixture)) no_ind "module.ko" init_state
      = Ok 0%N st' /\
    size (st_heap st') = 2%nat.
Proof.
  destruct (ksymtab_read_not_elf_open (env_with (Some ar_fixture)) no_ind
              "module.ko" {| file_elf := Some ar_fixture |} ar_fixture
              init_state)
    as (st' & Hrun & _ & Hsize & _).
  - discriminate.
  - reflexivity.
  - reflexivity.
  - vm_compute. reflexivity.
  - vm_compute. reflexivity.
  - exists st'. split; [exact Hrun|]. rewrite Hsize. reflexivity.
Defined.

(** * The extraction as a whole *)

Lemma add_entries_frame res : forall es i st t st',
  st_heap st !! res = Some (OTab t) ->
  (res < st_next st)%N ->
  add_entries res es i st = Ok tt st' ->
  (forall x, (x < res)%N -> st_heap st' !! x = st_heap st !! x) /\
  (st_next st <= st_next st')%N.
Proof.
  induction es as [|e es IH]; intros i st t st' Ht Hres Hrun.
  - injection Hrun as <-. split; [reflexivity | lia].
  - cbn [add_entries] in Hrun. unfold bind in Hrun.
    rewrite (ksymtab_add_sym_run _ _ _ _ _ Ht) in Hrun.
    eapply IH in Hrun as [Hframe Hnext].
    + split.
      * intros x Hx. rewrite (Hframe x Hx). unfold added. cbn [st_heap].
        rewrite !lookup_insert_ne by lia. reflexivity.
      * unfold added in Hnext. cbn [st_next] in Hnext. lia.
    + unfold added. cbn [st_heap]. apply lookup_insert_eq.
    + unfold added. cbn [st_next]. lia.
Qed.

Lemma le_nonneg bs : 0 <= le bs.
Proof.
  unfold le. induction bs as [|b bs IH]; simpl; [lia|].
  pose proof (N2Z.is_nonneg (N_of_ascii b)). lia.
Qed.

Lemma visit_symtab_handler strtab kev :
  ke_strtab kev = Buf strtab 0 ->
  forall ss st,
  Forall (fun s => 0 <= st_name s) ss ->
  forallb (named strtab) ss = true ->
  visit symtab_handler (map (call_of kev) ss) tt st =
  Ok tt (print (map (line_of strtab) ss) st).
Proof.
  intros Hstr. induction ss as [|s ss IH]; intros st Hpos Hall.
  - simpl. unfold ret, print. rewrite app_nil_r. destruct st; reflexivity.
  - inversion Hpos as [|? ? Hs Hpos']; subst.
    cbn [forallb] in Hall. apply andb_true_iff in Hall as [Hn Hall].
    unfold named in Hn. apply andb_true_iff in Hn as [Hle Hnul].
    cbn [map visit call_of]. unfold bind at 1.
    unfold symtab_handler at 1. unfold bind at 1.
    unfold load_cstr, cstr_at. rewrite Hstr. cbn [ptr_add chars_of].
    rewrite Z.add_0_l.
    destruct (0 <=? st_name s) eqn:E0; [|blia].
    unfold c_str. rewrite Hnul.
    rewrite IH by assumption.
    unfold print. cbn [st_heap st_next st_out map].
    rewrite <- app_assoc. reflexivity.
Qed.

Lemma ksymtab_elf_close_run st ke kev oe ofd :
  st_heap st !! ke = Some (OKe kev) ->
  st_heap st !! ke_elf kev = Some oe ->
  st_heap st !! ke_fd kev = Some ofd ->
  ke_elf kev <> ke_fd kev ->
  ke_elf kev <> ke ->
  ke_fd kev <> ke ->
  ksymtab_elf_close ke st =
  Ok tt (set_heap (fun h => delete ke (delete (ke_fd kev) (delete (ke_elf kev) h))) st).
Proof.
  intros Hke Helf Hfd H1 H2 H3. unfold ksymtab_elf_close.
  unfold bind at 1. rewrite (get_ke_run _ _ _ Hke).
  unfold bind at 1. rewrite (free_block_run _ _ _ Helf).
  unfold bind at 1. rewrite (free_block_run _ _ ofd).
  2:{ simpl. rewrite lookup_delete_ne by congruence. exact Hfd. }
  rewrite (free_block_run _ _ (OKe kev)).
  2:{ simpl. rewrite !lookup_delete_ne by congruence. exact Hke. }
  reflexivity.
Qed.

Lemma ksymtab_elf_for_each_global_sym_enumerate {C} ind ke kev data n
    (fn : ptr -> Z -> Z -> C -> M C) ctx st :
  st_heap st !! ke = Some (OKe kev) ->
  ksymtab_elf_get_section ke SYMTAB st =
    Ok (Some (Buf data 0, Z.of_nat (length data))) st ->
  length data = (24 * n)%nat ->
  keeps_heap fn ->
  ksymtab_elf_for_each_global_sym ind ke fn ctx st =
  enumerate kev fn (tail (symtab_entries data)) ctx st.
Proof.
  intros Hke Hsec Hlen Hfn.
  unfold ksymtab_elf_for_each_global_sym, bind. rewrite Hsec.
  rewrite Nat2Z.id.
  destruct n as [|n'].
  - destruct data; [|discriminate]. reflexivity.
  - assert (Htail : tail (symtab_entries data) = drop 1 (symtab_entries data)).
    { destruct (symtab_entries data); reflexivity. }
    rewrite Htail.
    change sizeof_Elf64_Sym with (Z.of_nat (24 * 1)).
    apply (sym_loop_enumerate ke kev fn data (S n') Hlen Hfn); [lia|lia|exact Hke].
Qed.

Lemma kept_entries_name_nonneg data :
  Forall (fun s => 0 <= st_name s) (kept_entries data).
Proof.
  apply Forall_forall. intros s Hs. unfold kept_entries in Hs.
  apply list_elem_of_filter in Hs as [_ Hs].
  assert (Hin : s ∈ symtab_entries data).
  { destruct (symtab_entries data) as [|s0 l]; [inversion Hs|].
    right. exact Hs. }
  unfold symtab_entries in Hin. apply list_elem_of_fmap in Hin as (k & -> & _).
  apply le_nonneg.
Qed.

Lemma named_passes_check strtab kev ss :
  ke_strtab kev = Buf strtab 0 ->
  ke_strtab_size kev = Z.of_nat (length strtab) ->
  forallb (named strtab) ss = true ->
  forallb (passes_check kev) ss = true.
Proof.
  intros Hs Hsz. rewrite !forallb_forall. intros H s Hin.
  specialize (H s Hin). unfold named in H. apply andb_true_iff in H as [Hle _].
  unfold passes_check. rewrite Hs, Hsz, Hle. reflexivity.
Qed.

(** X12: the extraction on a well-formed module.  For a 64-bit ELF image
    whose __ksymtab_strings section ends in NUL, whose .symtab is a
    whole number of records and whose kept records all name a string
    inside .strtab, [ksymtab_read] returns a registry that maps each
    entry of __ksymtab_strings to its index, prints one line per kept
    record of .symtab, in table order, with the record's name, value and
    binding, and releases the descriptor, the Elf handle and the handle
    structure; no block that existed before the call is touched. *)
Theorem ksymtab_read_extracts e ind filename f img st bs strtab data n :
  env_elf_version e <> EV_NONE ->
  env_fs e filename = Some f ->
  file_elf f = Some img ->
  valid_elf64 img = true ->
  section_data img KSYMTAB_STRINGS = Some bs ->
  last bs = Some NUL ->
  Z.of_nat (length bs) < 2 ^ 64 ->
  section_data img STRTAB = Some strtab ->
  section_data img SYMTAB = Some data ->
  length data = (24 * n)%nat ->
  forallb (named strtab) (kept_entries data) = true ->
  heap_bounded st = true ->
  exists st',
    ksymtab_read e ind filename st = Ok (st_next st + 3)%N st' /\
    registry_view st' (st_next st + 3)%N = Some (index_from (entries bs) 0 ∅) /\
    st_out st' = st_out st ++ map (line_of strtab) (kept_entries data) /\
    (forall x, (x < st_next st + 3)%N -> st_heap st' !! x = st_heap st !! x).
Proof.
  intros Hver Hfs Hf Hvalid Hbs Hlast Hsz Hstrtab Hdata Hlen Hnamed Hb.
  pose proof Hvalid as Hv.
  apply valid_elf64_spec in Hv as (_ & _ & _ & _ & Hread).
  assert (Hload : forall section d, section_data img section = Some d ->
                                    absent_or_loaded img section = true).
  { intros section d Hd. unfold absent_or_loaded. rewrite Hd. apply orb_true_r. }
  set (fd := st_next st).
  set (ke := N.succ (N.succ fd)).
  set (kev := opened_ke ind img fd).
  set (s1 := opened_state ind f img st).
  assert (Hke1 : st_heap s1 !! ke = Some (OKe kev)) by apply lookup_insert_eq.
  assert (Helf1 : st_heap s1 !! N.succ fd = Some (OElf img fd)).
  { unfold s1, opened_state. cbn [st_heap].
    rewrite lookup_insert_ne by lia. apply lookup_insert_eq. }
  assert (Hfd1 : st_heap s1 !! fd = Some (OFd f)).
  { unfold s1, opened_state. cbn [st_heap].
    rewrite !lookup_insert_ne by lia. apply lookup_insert_eq. }
  assert (Hnext1 : st_next s1 = N.succ ke) by reflexivity.
  assert (Hkstr : ke_strtab kev = Buf strtab 0 /\
                  ke_strtab_size kev = Z.of_nat (length strtab)).
  { unfold kev, opened_ke. cbn [ke_strtab ke_strtab_size]. rewrite Hstrtab. auto. }
  destruct Hkstr as [Hkstr Hksize].
  (* the registry *)
  set (t0 := {| kt_hash := hash_new; kt_mark_count := 0 |}).
  set (s1' := {| st_heap := <[st_next s1 := OTab t0]> (st_heap s1);
                 st_next := N.succ (st_next s1);
                 st_out := st_out s1 |}).
  destruct (add_entries_view (st_next s1) (entries bs) 0 s1' t0)
    as (s2 & t2 & Hadd & Ht2 & _ & Hout2 & Hreach & Hview).
  { apply lookup_insert_eq. }
  { simpl. lia. }
  { intros name a Ha. unfold t0, hash_new in Ha. simpl in Ha.
    rewrite lookup_empty in Ha. discriminate. }
  { apply entries_no_nul. }
  assert (Hv0 : view_of s1' t0 = ∅).
  { unfold view_of, t0, hash_new. simpl. apply omap_empty. }
  rewrite Hv0 in Hview.
  destruct (add_entries_frame (st_next s1) (entries bs) 0 s1' t0 s2)
    as [Hframe2 Hnext2]; [apply lookup_insert_eq | simpl; lia | exact Hadd |].
  assert (Hparse : parse_ksymtab_strings (Buf bs 0) (Z.of_nat (length bs)) s1 =
                   Ok (st_next s1) s2).
  { rewrite (parse_ksymtab_strings_run bs s1 Hsz Hlast).
    unfold bind at 1. unfold ksymtab_new, alloc at 1. fold t0. fold s1'.
    unfold bind. rewrite Hadd. reflexivity. }
  assert (Hold2 : forall x, (x < st_next s1)%N -> st_heap s2 !! x = st_heap s1 !! x).
  { intros x Hx. rewrite (Hframe2 x Hx). unfold s1'. cbn [st_heap].
    apply lookup_insert_ne. lia. }
  assert (Hke2 : st_heap s2 !! ke = Some (OKe kev)) by (rewrite Hold2; [exact Hke1 | lia]).
  assert (Helf2 : st_heap s2 !! N.succ fd = Some (OElf img fd))
    by (rewrite Hold2; [exact Helf1 | rewrite Hnext1; unfold ke; lia]).
  assert (Hfd2 : st_heap s2 !! fd = Some (OFd f))
    by (rewrite Hold2; [exact Hfd1 | rewrite Hnext1; unfold ke; lia]).
  (* the enumeration *)
  set (s3 := print (map (line_of strtab) (kept_entries data)) s2).
  assert (Henum : ksymtab_elf_for_each_global_sym ind ke symtab_handler tt s2 =
                  Ok tt s3).
  { rewrite (ksymtab_elf_for_each_global_sym_enumerate ind ke kev data n).
    - rewrite enumerate_visit; fold (kept_entries data).
      + apply (visit_symtab_handler strtab kev Hkstr).
        * apply kept_entries_name_nonneg.
        * exact Hnamed.
      + apply (named_passes_check strtab kev _ Hkstr Hksize Hnamed).
    - exact Hke2.
    - rewrite (ksymtab_elf_get_section_run s2 ke kev img fd SYMTAB Hke2 Helf2 Hread)
        by (apply (Hload _ _ Hdata)).
      rewrite Hdata. reflexivity.
    - exact Hlen.
    - apply keeps_heap_symtab_handler. }
  (* the close *)
  assert (Hclose : ksymtab_elf_close ke s3 =
                   Ok tt (set_heap (fun h => delete ke (delete fd (delete (N.succ fd) h)))
                            s3)).
  { apply (ksymtab_elf_close_run s3 ke kev (OElf img fd) (OFd f));
      try assumption; cbn [ke_elf ke_fd kev opened_ke]; unfold ke; lia. }
  eexists. split.
  { unfold ksymtab_read. unfold bind at 1.
    rewrite (ksymtab_elf_open_run e ind filename f img st Hver Hfs Hf Hvalid
               (Hload _ _ Hstrtab)).
    fold fd. fold ke. fold s1.
    destruct (N.eqb_spec ke 0) as [E|_]; [unfold ke in E; lia|].
    unfold bind at 1.
    rewrite (ksymtab_elf_get_section_run s1 ke kev img fd KSYMTAB_STRINGS
               Hke1 Helf1 Hread (Hload _ _ Hbs)).
    rewrite Hbs. unfold bind at 1. rewrite Hparse.
    unfold bind at 1. unfold bind at 1. rewrite Henum.
    rewrite Hclose. unfold ret.
    replace (st_next s1) with (fd + 3)%N by (rewrite Hnext1; unfold ke; lia).
    reflexivity. }
  assert (Hres : (fd + 3)%N = st_next s1) by (rewrite Hnext1; unfold ke; lia).
  rewrite Hres.
  split.
  { unfold registry_view, tab_at, set_heap, s3, print. cbn [st_heap].
    rewrite !lookup_delete_ne by (rewrite Hnext1; unfold ke; lia).
    rewrite Ht2. cbn [mbind option_bind]. f_equal. rewrite <- Hview.
    unfold view_of. apply map_eq. intros name. rewrite !lookup_omap.
    destruct (kt_hash t2 !! name) as [a|] eqn:Ea; [|reflexivity].
    destruct (Hreach _ _ Ea) as [Hr _]. cbn [mbind option_bind].
    unfold sym_at, set_heap, s3, print. cbn [st_heap].
    rewrite !lookup_delete_ne by (rewrite Hnext1 in Hr; unfold ke in *; lia).
    reflexivity. }
  split.
  { unfold set_heap, s3, print. cbn [st_out]. rewrite Hout2. reflexivity. }
  intros x Hx. unfold set_heap, s3, print. cbn [st_heap].
  destruct (decide (x = ke)) as [->|H2].
  { rewrite lookup_delete_eq. symmetry.
    apply heap_bounded_fresh; [exact Hb | unfold ke, fd; lia]. }
  rewrite lookup_delete_ne by congruence.
  destruct (decide (x = fd)) as [->|H0].
  { rewrite lookup_delete_eq. symmetry.
    apply heap_bounded_fresh; [exact Hb | unfold fd; lia]. }
  rewrite lookup_delete_ne by congruence.
  destruct (decide (x = N.succ fd)) as [->|H1].
  { rewrite lookup_delete_eq. symmetry.
    apply heap_bounded_fresh; [exact Hb | unfold fd; lia]. }
  rewrite lookup_delete_ne by congruence.
  rewrite (Hold2 x Hx). unfold s1, opened_state. cbn [st_heap].
  rewrite !lookup_insert_ne by (unfold ke, fd in *; congruence). reflexivity.
Qed.

Lemma ksymtab_read_extracts_witness :
  exists st',
    ksymtab_read (env_with (Some elf_fixture)) no_ind "module.ko" init_state
      = Ok 4%N st' /\
    registry_view st' 4%N = Some {[ str "alpha" := 0; str "beta" := 1 ]} /\
    st_out st' = [(str "alpha", 8192, STB_GLOBAL); (str "beta", 12288, STB_WEAK)].
Proof.
  destruct (ksymtab_read_extracts (env_with (Some elf_fixture)) no_ind
              "module.ko" {| file_elf := Some elf_fixture |} elf_fixture
              init_state (str "alpha" ++ [NUL] ++ str "beta" ++ [NUL])
              strtab_fixture symtab_fixture 5)
    as (st' & Hrun & Hview & Hout & _).
  - discriminate.
  - reflexivity.
  - reflexivity.
  - vm_compute. reflexivity.
  - vm_compute. reflexivity.
  - reflexivity.
  - vm_compute. reflexivity.
  - vm_compute. reflexivity.
  - vm_compute. reflexivity.
  - reflexivity.
  - vm_compute. reflexivity.
  - vm_compute. reflexivity.
  - exists st'. split; [exact Hrun|]. split.
    + change (st_next init_state + 3)%N with 4%N in Hview.
      rewrite Hview. vm_compute. reflexivity.
    + rewrite Hout. vm_compute. reflexivity.
Defined.

(** ** A missing symbol table *)



(** ** The section text round trip *)

Lemma spans_from_name e : forall cur rest,
  Forall (fun c => is_nul c = false) e ->
  spans_from cur (e ++ NUL :: rest) = (cur ++ e) :: spans_from [] rest.
Proof.
  induction e as [|c e IH]; intros cur rest He.
  - simpl. rewrite app_nil_r. reflexivity.
  - inversion He as [|? ? Hc He']; subst.
    cbn [app spans_from]. rewrite Hc, IH by exact He'.
    rewrite <- app_assoc. reflexivity.
Qed.

Lemma is_name_spec e :
  is_name e = true <-> e <> [] /\ Forall (fun c => is_nul c = false) e.
Proof.
  unfold is_name. rewrite andb_true_iff, negb_true_iff, bool_decide_eq_false.
  rewrite forallb_forall, Forall_forall.
  split; intros [H1 H2]; (split; [exact H1|]); intros c Hc.
  - apply list_elem_of_In in Hc. apply negb_true_iff. apply H2. exact Hc.
  - apply list_elem_of_In in Hc. apply negb_true_iff. apply H2. exact Hc.
Qed.

Lemma entries_strings_of es :
  forallb is_name es = true -> entries (strings_of es) = es.
Proof.
  unfold entries, spans. induction es as [|e es IH]; intros Hes; [reflexivity|].
  cbn [forallb] in Hes. apply andb_true_iff in Hes as [He Hes].
  apply is_name_spec in He as [Hne Hnul].
  cbn [strings_of flat_map]. rewrite <- app_assoc. cbn [app].
  rewrite (spans_from_name e [] _ Hnul). cbn [app].
  rewrite filter_cons_True by exact Hne. f_equal. apply IH. exact Hes.
Qed.

Lemma strings_of_last es :
  es <> [] -> last (strings_of es) = Some NUL.
Proof.
  destruct es as [|e es _] using rev_ind; intros Hne; [contradiction|].
  unfold strings_of. rewrite flat_map_app. cbn [flat_map].
  rewrite app_nil_r, app_assoc. apply last_snoc.
Qed.

(** X14: [parse_ksymtab_strings] inverts the layout of the section: on
    the text made of the given names, each followed by NUL, it returns a
    registry that maps each name to its position in the list (to the
    last one when a name occurs twice); with distinct names the registry
    has one record per name and [ksymtab_find] returns for the [k]-th
    name a record of value [k].  With [d_size = 0] the check of the
    final NUL reads [d_buf[SIZE_MAX]], which is undefined. *)
Theorem parse_ksymtab_strings_round_trip es st :
  forallb is_name es = true ->
  es <> [] ->
  Z.of_nat (length (strings_of es)) < 2 ^ 64 ->
  (exists st',
     parse_ksymtab_strings (Buf (strings_of es) 0)
       (Z.of_nat (length (strings_of es))) st = Ok (st_next st) st' /\
     registry_view st' (st_next st) = Some (index_from es 0 ∅) /\
     (NoDup es ->
      (0 < st_next st)%N ->
      ksymtab_len (st_next st) st' = Ok (Z.of_nat (length es)) st' /\
      forall k e, es !! k = Some e ->
        exists a, ksymtab_find (st_next st) (Buf (e ++ [NUL]) 0) st' = Ok a st' /\
                  ksymtab_ksym_get_value a st' = Ok (Z.of_nat k) st')) /\
  parse_ksymtab_strings (Buf (strings_of es) 0) 0 st = Undef.
Proof.
  intros Hes Hne Hsz.
  pose proof (entries_strings_of es Hes) as Hent.
  pose proof (strings_of_last es Hne) as Hlast.
  split.
  - destruct (parse_ksymtab_strings_result (strings_of es) st Hsz Hlast)
      as (st' & t' & Hrun & Ht' & _ & _ & Hreach & Hview).
    rewrite Hent in Hview.
    exists st'. split; [exact Hrun|].
    assert (Htab : tab_at st' (st_next st) = Some t')
      by (apply tab_at_Some; exact Ht').
    split; [unfold registry_view; rewrite Htab; simpl; rewrite Hview; reflexivity|].
    intros Hnd Hpos.
    assert (Htabne : st_next st <> 0%N) by lia.
    split.
    + rewrite (ksymtab_len_run st' (st_next st) t' Htabne Htab).
      f_equal. f_equal.
      rewrite <- (view_of_size _ _ _ Hreach), Hview.
      rewrite index_from_size; [rewrite map_size_empty; reflexivity | exact Hnd|].
      intros e _. apply lookup_empty.
    + intros k e Hk.
      pose proof (index_from_lookup es 0 ∅ k e Hnd Hk) as Hv.
      rewrite <- Hview in Hv. unfold view_of in Hv. rewrite lookup_omap in Hv.
      destruct (kt_hash t' !! e) as [a|] eqn:Ea; [|discriminate].
      simpl in Hv. destruct (sym_at st' a) as [s|] eqn:Hs; [|discriminate].
      injection Hv as Hv.
      exists a. split.
      * assert (Hname : Forall (fun c => is_nul c = false) e).
        { rewrite forallb_forall in Hes.
          apply (is_name_spec e). apply Hes.
          apply list_elem_of_In. apply (list_elem_of_lookup_2 _ _ _ Hk). }
        rewrite (ksymtab_find_key st' (st_next st) t' (Buf (e ++ [NUL]) 0) e);
          [unfold hash_find; rewrite Ea; reflexivity | exact Htab
          | reflexivity |].
        unfold cstr_at. cbn [chars_of Z.leb Z.compare Z.to_nat].
        rewrite drop_0. unfold c_str. rewrite existsb_is_nul_terminated.
        rewrite (c_prefix_no_nul e []) by exact Hname. reflexivity.
      * unfold ksymtab_ksym_get_value, bind.
        rewrite (get_sym_run st' a s) by (apply sym_at_Some; exact Hs).
        unfold ret. rewrite Hv. reflexivity.
  - unfold parse_ksymtab_strings. unfold bind at 1.
    unfold ksymtab_new, alloc at 1. unfold bind at 1.
    unfold load_byte. cbn [chars_of]. rewrite Z.add_0_l.
    change (wrap64 (0 - 1)) with (2 ^ 64 - 1).
    destruct (2 ^ 64 - 1 <? Z.of_nat (length (strings_of es))) eqn:E; [blia|].
    rewrite andb_false_r. reflexivity.
Qed.

Lemma parse_ksymtab_strings_round_trip_witness :
  exists st',
    parse_ksymtab_strings (Buf (str "foo" ++ [NUL] ++ str "bar" ++ [NUL]) 0) 8
      init_state = Ok 1%N st' /\
    registry_view st' 1%N = Some {[ str "foo" := 0; str "bar" := 1 ]}.
Proof.
  destruct (parse_ksymtab_strings_round_trip [str "foo"; str "bar"] init_state)
    as [(st' & Hrun & Hview & _) _].
  - vm_compute. reflexivity.
  - discriminate.
  - vm_compute. reflexivity.
  - exists st'. split; [exact Hrun|].
    change (st_next init_state) with 1%N in Hview.
    rewrite Hview. vm_compute. reflexivity.
Defined.

(** ** Failures of the reader *)

Lemma ksymtab_elf_get_section_defined st ke kev img fd section :
  st_heap st !! ke = Some (OKe kev) ->
  st_heap st !! ke_elf kev = Some (OElf img fd) ->
  ksymtab_elf_get_section ke section st <> Undef.
Proof.
  intros Hke Helf. unfold ksymtab_elf_get_section.
  unfold bind at 1. rewrite (get_ke_run _ _ _ Hke).
  unfold bind at 1. rewrite (get_elf_run _ _ _ _ Helf).
  unfold bind at 1.
  pose proof (scan_sections_inv section (elf_scns img) st) as Hscan.
  destruct (scan_sections (elf_scns img) section st)
    as [[[scn shdr]|] st1|e1 st1|]; [| | |contradiction]; try discriminate.
  destruct (sh_type shdr =? SHT_NOBITS); [discriminate|].
  destruct (scn_data scn) as [d|]; [|discriminate].
  destruct (Z.of_nat (length d) =? 0); discriminate.
Qed.

Lemma ksymtab_elf_open_inv e ind filename st :
  match ksymtab_elf_open e ind filename st with
  | Ok _ _ => True
  | Fatal err st' =>
      st_out st' = st_out st /\
      (forall x, (x < st_next st)%N -> st_heap st' !! x = st_heap st !! x) /\
      (err = F_elf_version \/ err = F_open \/ err = F_elf_begin \/
       err = F_getehdr \/ err = F_class (elf_class_of e filename) \/
       err = F_getshdrstrndx \/ err = F_getshdr \/ err = F_strptr \/
       err = F_nobits STRTAB \/ err = F_empty STRTAB)
  | Undef => False
  end.
Proof.
  unfold ksymtab_elf_open, elf_class_of.
  destruct (env_elf_version e =? EV_NONE); [unfold fail; auto 12|].
  destruct (env_fs e filename) as [f|]; [|unfold fail; auto 12].
  unfold bind at 1. unfold alloc at 1.
  assert (Hframe1 : forall x, (x < st_next st)%N ->
            <[st_next st := OFd f]> (st_heap st) !! x = st_heap st !! x)
    by (intros x Hx; apply lookup_insert_ne; lia).
  destruct (file_elf f) as [img|]; [|unfold fail; cbn [st_heap st_out]; auto 12].
  unfold bind at 1. unfold alloc at 1. cbn [st_heap st_next st_out].
  assert (Hframe2 : forall x, (x < st_next st)%N ->
            <[N.succ (st_next st) := OElf img (st_next st)]>
              (<[st_next st := OFd f]> (st_heap st)) !! x = st_heap st !! x)
    by (intros x Hx; rewrite lookup_insert_ne by lia; auto).
  destruct (negb (bool_decide (elf_kind img = ELF_K_ELF))); [exact I|].
  destruct (elf_ehdr img) as [ehdr|]; [|unfold fail; cbn [st_heap st_out]; auto 12].
  destruct (negb (bool_decide (take SELFMAG (e_ident ehdr) = ELFMAG))); [exact I|].
  destruct (negb (elf_class img =? ELFCLASS64));
    [unfold fail; cbn [st_heap st_out]; auto 12|].
  destruct (elf_shdrstrndx img) as [ndx|];
    [|unfold fail; cbn [st_heap st_out]; auto 12].
  unfold bind at 1. unfold alloc at 1. cbn [st_heap st_next st_out].
  unfold bind at 1.
  match goal with
  | |- context [ksymtab_elf_get_section ?k ?s ?st2] =>
      pose proof (ksymtab_elf_get_section_inv st2 k s) as Hinv;
      pose proof (ksymtab_elf_get_section_defined st2 k
                    {| ke_elf := N.succ (st_next st); ke_shstrndx := ndx;
                       ke_strtab := NULL; ke_strtab_size := 0;
                       ke_fd := st_next st |} img (st_next st) s) as Hdef;
      destruct (ksymtab_elf_get_section k s st2) as [r st3|e3 st3|]
  end.
  - destruct r as [[p size]|]; exact I.
  - destruct Hinv as [-> He]. cbn [st_heap st_out].
    split; [reflexivity|]. split.
    + intros x Hx. rewrite lookup_insert_ne by lia. auto.
    + tauto.
  - refine (Hdef _ _ eq_refl).
    + cbn [st_heap]. apply lookup_insert_eq.
    + cbn [st_heap ke_elf]. rewrite lookup_insert_ne by lia.
      apply lookup_insert_eq.
Qed.

(** X15: [ksymtab_elf_open] has no undefined behaviour: for every
    environment, file name and state it either returns or stops the
    process with one of its messages, and when it stops nothing was
    printed and no block that existed before was touched.  A 32-bit ELF
    object is not treated like a file that is not ELF: it stops the
    process with "Unsupported elf class". *)
Theorem ksymtab_elf_open_defined e ind filename st :
  ksymtab_elf_open e ind filename st <> Undef /\
  (forall err st',
     ksymtab_elf_open e ind filename st = Fatal err st' ->
     st_out st' = st_out st /\
     (forall x, (x < st_next st)%N -> st_heap st' !! x = st_heap st !! x)) /\
  (forall f img ehdr,
     env_elf_version e <> EV_NONE ->
     env_fs e filename = Some f ->
     file_elf f = Some img ->
     elf_kind img = ELF_K_ELF ->
     elf_ehdr img = Some ehdr ->
     take SELFMAG (e_ident ehdr) = ELFMAG ->
     elf_class img <> ELFCLASS64 ->
     exists st',
       ksymtab_elf_open e ind filename st = Fatal (F_class (elf_class img)) st' /\
       ksymtab_read e ind filename st = Fatal (F_class (elf_class img)) st').
Proof.
  pose proof (ksymtab_elf_open_inv e ind filename st) as Hinv.
  split; [|split].
  - intros Hrun. rewrite Hrun in Hinv. exact Hinv.
  - intros err st' Hrun. rewrite Hrun in Hinv. tauto.
  - intros f img ehdr Hver Hfs Hf Hkind Hehdr Hmag Hclass.
    assert (Hrun : exists st', ksymtab_elf_open e ind filename st =
                               Fatal (F_class (elf_class img)) st').
    { unfold ksymtab_elf_open.
      destruct (env_elf_version e =? EV_NONE) eqn:Ev; [blia|].
      rewrite Hfs. unfold bind at 1. unfold alloc at 1. rewrite Hf.
      unfold bind at 1. unfold alloc at 1.
      rewrite bool_decide_eq_true_2 by exact Hkind. cbn [negb].
      rewrite Hehdr, bool_decide_eq_true_2 by exact Hmag. cbn [negb].
      destruct (elf_class img =? ELFCLASS64) eqn:Ec; [blia|]. cbn [negb].
      unfold fail. eauto. }
    destruct Hrun as [st' Hrun]. exists st'. split; [exact Hrun|].
    unfold ksymtab_read, bind. rewrite Hrun. reflexivity.
Qed.

Lemma ksymtab_elf_open_defined_witness :
  exists st',
    ksymtab_read (env_with (Some elf32_fixture)) no_ind "module.ko" init_state
      = Fatal (F_class 1) st'.
Proof.
  destruct (proj2 (proj2 (ksymtab_elf_open_defined
                            (env_with (Some elf32_fixture)) no_ind "module.ko"
                            init_state))
              {| file_elf := Some elf32_fixture |} elf32_fixture
              {| e_ident := ELFMAG ++ [ascii_of_nat 1; ascii_of_nat 1] |})
    as (st' & _ & Hread); try reflexivity; try discriminate.
  exists st'. exact Hread.
Defined.

Lemma parse_ksymtab_strings_stops bs c st :
  Z.of_nat (length bs) < 2 ^ 64 ->
  last bs = Some c ->
  c <> NUL ->
  (existsb is_nul bs = true ->
   exists st',
     parse_ksymtab_strings (Buf bs 0) (Z.of_nat (length bs)) st =
       Fatal F_malformed_strings st' /\
     st_out st' = st_out st) /\
  (existsb is_nul bs = false ->
   parse_ksymtab_strings (Buf bs 0) (Z.of_nat (length bs)) st = Undef).
Proof.
  intros Hsz Hlast Hc.
  assert (Hlen : (0 < length bs)%nat).
  { destruct bs; [discriminate | simpl; lia]. }
  assert (Hw : wrap64 (Z.of_nat (length bs) - 1) = Z.of_nat (length bs - 1)).
  { unfold wrap64. rewrite Z.mod_small by lia. lia. }
  assert (Hbyte : forall st1, load_byte (Buf bs 0) (Z.of_nat (length bs - 1)) st1
                              = Ok c st1).
  { intros st1. apply load_byte_Buf.
    rewrite last_lookup in Hlast. rewrite <- Hlast. f_equal. lia. }
  assert (Hmsg : forall st1, load_cstr (Buf bs 0) st1 =
                   if existsb is_nul bs then Ok (c_prefix bs) st1 else Undef).
  { intros st1. unfold load_cstr, cstr_at. cbn [chars_of Z.leb Z.compare Z.to_nat].
    rewrite drop_0. unfold c_str. destruct (existsb is_nul bs); reflexivity. }
  split; intros Hnul; unfold parse_ksymtab_strings;
    unfold bind at 1; unfold ksymtab_new, alloc at 1;
    rewrite Hw; unfold bind at 1; rewrite Hbyte;
    unfold is_nul at 1; rewrite bool_decide_eq_false_2 by exact Hc;
    cbn [negb]; unfold bind; rewrite Hmsg, Hnul.
  - eexists. split; reflexivity.
  - reflexivity.
Qed.

(** X16: on a 64-bit ELF image on which the libelf calls succeed, whose
    .strtab section is absent or has contents, and whose
    __ksymtab_strings section does not end in NUL: when the section
    holds a NUL somewhere, [ksymtab_read] stops the process with the
    "Mallformed __ksymtab_strings section" failure, whatever the symbol
    table holds, before any symbol line is printed; when it holds no NUL
    at all, printing that message reads past the end of the section,
    which is undefined. *)
Theorem ksymtab_read_malformed e ind filename f img st bs c :
  env_elf_version e <> EV_NONE ->
  env_fs e filename = Some f ->
  file_elf f = Some img ->
  valid_elf64 img = true ->
  absent_or_loaded img STRTAB = true ->
  section_data img KSYMTAB_STRINGS = Some bs ->
  Z.of_nat (length bs) < 2 ^ 64 ->
  last bs = Some c ->
  c <> NUL ->
  (existsb is_nul bs = true ->
   exists st',
     ksymtab_read e ind filename st = Fatal F_malformed_strings st' /\
     st_out st' = st_out st) /\
  (existsb is_nul bs = false ->
   ksymtab_read e ind filename st = Undef).
Proof.
  intros Hver Hfs Hf Hvalid Hstr Hbs Hsz Hlast Hc.
  pose proof Hvalid as Hv.
  apply valid_elf64_spec in Hv as (_ & _ & _ & _ & Hread).
  destruct (parse_ksymtab_strings_stops bs c (opened_state ind f img st)
              Hsz Hlast Hc) as [Hfatal Hundef].
  assert (Hrun : ksymtab_read e ind filename st =
                 (res <- parse_ksymtab_strings (Buf bs 0) (Z.of_nat (length bs)) ;;
                  ksymtab_elf_for_each_global_sym ind (N.succ (N.succ (st_next st)))
                    symtab_handler tt ;;;
                  ksymtab_elf_close (N.succ (N.succ (st_next st))) ;;;
                  ret res) (opened_state ind f img st)).
  { unfold ksymtab_read. unfold bind at 1.
    rewrite (ksymtab_elf_open_run e ind filename f img st Hver Hfs Hf Hvalid Hstr).
    destruct (N.eqb_spec (N.succ (N.succ (st_next st))) 0) as [E|_]; [lia|].
    unfold bind at 1.
    erewrite ksymtab_elf_get_section_run; cycle 1.
    - unfold opened_state. cbn [st_heap]. apply lookup_insert_eq.
    - unfold opened_state. cbn [st_heap ke_elf opened_ke].
      rewrite lookup_insert_ne by lia. apply lookup_insert_eq.
    - exact Hread.
    - unfold absent_or_loaded. rewrite Hbs. apply orb_true_r.
    - rewrite Hbs. reflexivity. }
  rewrite Hrun. split; intros Hnul.
  - destruct (Hfatal Hnul) as (st' & Hparse & Hout).
    exists st'. split; [|exact Hout].
    unfold bind at 1. rewrite Hparse. reflexivity.
  - unfold bind at 1. rewrite (Hundef Hnul). reflexivity.
Qed.

Lemma ksymtab_read_malformed_witness :
  (exists st',
     ksymtab_read (env_with (Some elf_malformed)) no_ind "module.ko" init_state
       = Fatal F_malformed_strings st' /\
     st_out st' = []) /\
  ksymtab_read (env_with (Some elf_unterminated)) no_ind "module.ko" init_state
    = Undef.
Proof.
  split.
  - refine (proj1 (ksymtab_read_malformed (env_with (Some elf_malformed)) no_ind
                     "module.ko" {| file_elf := Some elf_malformed |}
                     elf_malformed init_state
                     (str "alpha" ++ [NUL] ++ str "beta") "a"%char
                     _ _ _ _ _ _ _ _ _) _);
      first [discriminate | reflexivity | vm_compute; reflexivity].
  - refine (proj2 (ksymtab_read_malformed (env_with (Some elf_unterminated)) no_ind
                     "module.ko" {| file_elf := Some elf_unterminated |}
                     elf_unterminated init_state (str "alpha") "a"%char
                     _ _ _ _ _ _ _ _ _) _);
      first [discriminate | reflexivity | vm_compute; reflexivity].
Defined.

(** ** The absent handle, unguarded *)

(** X17: unlike [ksymtab_len] and the iterators, [ksymtab_find],
    [ksymtab_mark_count] and [ksymtab_add_sym] do not test the registry
    handle: on NULL they read through it, which is undefined;
    [ksymtab_find] does so even for a NULL name, since it reads the hash
    before it tests the name. *)
Theorem ksymtab_null_handle_unguarded st :
  st_heap st !! 0%N = None ->
  (forall name, ksymtab_find 0%N name st = Undef) /\
  ksymtab_mark_count 0%N st = Undef /\
  (forall p len v, ksymtab_add_sym 0%N p len v st = Undef) /\
  (forall ksym res st', ksymtab_copy_sym 0%N ksym st <> Ok res st').
Proof.
  intros H0.
  assert (Htab : get_tab 0%N st = Undef).
  { unfold get_tab, bind, get_obj. rewrite H0. reflexivity. }
  assert (Hadd : forall p len v st1,
            st_heap st1 = st_heap st -> ksymtab_add_sym 0%N p len v st1 = Undef).
  { intros p len v st1 Hst1. unfold ksymtab_add_sym, bind, get_tab, bind, get_obj.
    rewrite Hst1, H0. reflexivity. }
  split; [intros name; unfold ksymtab_find, bind; rewrite Htab; reflexivity|].
  split; [unfold ksymtab_mark_count, bind; rewrite Htab; reflexivity|].
  split; [intros p len v; apply Hadd; reflexivity|].
  intros ksym res st'. unfold ksymtab_copy_sym.
  unfold bind at 1. unfold ksymtab_ksym_get_value, bind at 1, get_sym, bind at 1, get_obj.
  destruct (st_heap st !! ksym) as [[s|?|?|?|? ?|?]|]; try discriminate.
  unfold ret at 1. unfold ret at 1.
  unfold bind at 1. unfold ksymtab_ksym_get_link, bind at 1, get_sym, bind at 1, get_obj.
  destruct (st_heap st !! ksym) as [[s'|?|?|?|? ?|?]|]; try discriminate.
  unfold ret at 1. unfold ret at 1.
  unfold bind at 1. unfold strlen, bind at 1, load_cstr.
  destruct (cstr_at st (ksymtab_ksym_get_name ksym)); [|discriminate].
  unfold ret at 1. unfold bind at 1.
  rewrite Hadd by reflexivity. discriminate.
Qed.

Lemma ksymtab_null_handle_unguarded_witness :
  ksymtab_find 0%N NULL registry_foo_bar = Undef /\
  ksymtab_len 0%N registry_foo_bar = Ok 0 registry_foo_bar.
Proof.
  split; [|reflexivity].
  apply (ksymtab_null_handle_unguarded registry_foo_bar).
  vm_compute. reflexivity.
Defined.

(** ** The second name check *)

Lemma enumerate_no_name {C} kev (fn : ptr -> Z -> Z -> C -> M C) :
  is_object (ke_strtab kev) = true ->
  (forall name value binding ctx st st',
     fn name value binding ctx st <> Fatal F_no_name st') ->
  forall ss ctx st st', enumerate kev fn ss ctx st <> Fatal F_no_name st'.
Proof.
  intros Hobj Hfn. induction ss as [|s ss IH]; intros ctx st st'; [discriminate|].
  cbn [enumerate]. destruct (kept s); [|apply IH].
  destruct (st_name s >? ke_strtab_size kev); [discriminate|].
  assert (Hnn : is_null (ptr_add (ke_strtab kev) (st_name s)) = false).
  { destruct (ke_strtab kev); [discriminate | reflexivity | reflexivity]. }
  rewrite Hnn. unfold bind.
  pose proof (Hfn (ptr_add (ke_strtab kev) (st_name s)) (st_value s)
                (sym_binding s) ctx st) as Hcall.
  destruct (fn (ptr_add (ke_strtab kev) (st_name s)) (st_value s)
              (sym_binding s) ctx st) as [ctx' st1|e st1|].
  - apply IH.
  - intros [= -> ->]. apply (Hcall st'). reflexivity.
  - discriminate.
Qed.

(** X19: the check [name == NULL] of the enumerator cannot fire when the
    handle's string table points into an object: [strtab + st_name] is
    then never NULL, so the "Could not find symbol name" failure does
    not occur, for any symbol table contents. *)
Theorem ksymtab_elf_for_each_global_sym_no_name {C} ind ke kev data n
    (fn : ptr -> Z -> Z -> C -> M C) ctx st :
  st_heap st !! ke = Some (OKe kev) ->
  is_object (ke_strtab kev) = true ->
  ksymtab_elf_get_section ke SYMTAB st =
    Ok (Some (Buf data 0, Z.of_nat (length data))) st ->
  length data = (24 * n)%nat ->
  keeps_heap fn ->
  (forall name value binding ctx st st',
     fn name value binding ctx st <> Fatal F_no_name st') ->
  forall st',
    ksymtab_elf_for_each_global_sym ind ke fn ctx st <> Fatal F_no_name st'.
Proof.
  intros Hke Hobj Hsec Hlen Hkeeps Hfn st'.
  rewrite (ksymtab_elf_for_each_global_sym_enumerate ind ke kev data n fn ctx st
             Hke Hsec Hlen Hkeeps).
  apply enumerate_no_name; assumption.
Qed.

Lemma ksymtab_elf_for_each_global_sym_no_name_witness :
  ksymtab_elf_for_each_global_sym no_ind 3%N record_call []
    (opened (elf_with_symtab symtab_name_past_end) no_ind)
  <> Fatal F_no_name (opened (elf_with_symtab symtab_name_past_end) no_ind).
Proof.
  apply (ksymtab_elf_for_each_global_sym_no_name no_ind 3%N
           {| ke_elf := 2%N; ke_shstrndx := 4;
              ke_strtab := Buf strtab_fixture 0;
              ke_strtab_size := 14; ke_fd := 1%N |}
           symtab_name_past_end 2).
  - vm_compute. reflexivity.
  - reflexivity.
  - vm_compute. reflexivity.
  - vm_compute. reflexivity.
  - apply keeps_heap_record_call.
  - intros name value binding ctx st st'. discriminate.
Defined.

(** * Copies and lookups *)

Lemma copied_state_tab st tab s t :
  (tab < st_next st)%N ->
  tab_at (copied_state tab t s st) tab = Some (copied_tab t s (st_next st)).
Proof.
  intros Htab. apply tab_at_Some. unfold copied_state.
  destruct (is_null (ks_link s)); cbn [st_heap];
    rewrite !lookup_insert_ne by lia; apply lookup_insert_eq.
Qed.

(** X18: the copy [ksymtab_copy_sym] makes is entered in the target
    registry under the source's name: [ksymtab_find] with that name
    returns the copy.  The target's mark count is not changed, and no
    other block that existed before is touched, so every other registry
    and every record, the source included, is as it was. *)
Theorem ksymtab_copy_sym_find st tab src :
  copy_ready st tab src = true ->
  exists new st' n,
    ksymtab_copy_sym tab src st = Ok new st' /\
    new <> src /\
    ksymtab_find tab (ksymtab_ksym_get_name src) st' = Ok new st' /\
    ksymtab_find tab (ksymtab_ksym_get_name new) st' = Ok new st' /\
    ksymtab_mark_count tab st = Ok n st /\
    ksymtab_mark_count tab st' = Ok n st' /\
    ksymtab_ksym_is_marked new st' = Ok false st' /\
    (forall a, (a < st_next st)%N -> a <> tab ->
               st_heap st' !! a = st_heap st !! a) /\
    st_out st' = st_out st.
Proof.
  intros Hready.
  apply copy_ready_spec in Hready
    as (s & t & Hs & Ht & Hbound & Hsrc & Htab & Hkey & Hlink).
  pose proof (copied_state_tab st tab s t Htab) as Ht'.
  destruct (copied_state_name st tab src s t Hs Hkey) as [Hn1 Hn2].
  pose proof (copied_state_src st tab src s t Hs Ht Hsrc Htab) as Hs'.
  exists (st_next st), (copied_state tab t s st), (kt_mark_count t).
  split; [apply ksymtab_copy_sym_run; assumption|].
  split; [lia|].
  split.
  { rewrite (ksymtab_find_key _ tab _ (ksymtab_ksym_get_name src)
               (c_prefix (ks_key s)) Ht' eq_refl).
    - unfold hash_find, copied_tab, hash_add. cbn [kt_hash].
      rewrite lookup_insert_eq. reflexivity.
    - unfold ksymtab_ksym_get_name, cstr_at, chars_of.
      apply sym_at_Some in Hs'. rewrite Hs'.
      cbn [Z.leb Z.compare Z.to_nat]. rewrite drop_0. unfold c_str.
      rewrite Hkey. reflexivity. }
  split.
  { rewrite (ksymtab_find_key _ tab _ (ksymtab_ksym_get_name (st_next st))
               (c_prefix (ks_key s)) Ht' eq_refl Hn1).
    unfold hash_find, copied_tab, hash_add. cbn [kt_hash].
    rewrite lookup_insert_eq. reflexivity. }
  split; [apply ksymtab_mark_count_run; exact Ht|].
  split; [rewrite (ksymtab_mark_count_run _ _ _ Ht'); reflexivity|].
  split.
  { unfold ksymtab_ksym_is_marked, bind.
    rewrite (get_sym_run _ _ (copied_sym tab s (copied_link s (st_next st))));
      [reflexivity|].
    apply sym_at_Some. eapply copied_state_new; eassumption. }
  split; [intros a Ha Hat; eapply copied_state_old; eassumption|].
  unfold copied_state. destruct (is_null (ks_link s)); reflexivity.
Qed.

Lemma ksymtab_copy_sym_find_witness :
  exists new st',
    ksymtab_copy_sym 1%N 2%N registry_linked = Ok new st' /\
    ksymtab_find 1%N (Buf (str "foo" ++ [NUL]) 0) registry_linked
      = Ok 2%N registry_linked /\
    ksymtab_find 1%N (Heap 2%N 0) st' = Ok new st'.
Proof.
  destruct (ksymtab_copy_sym_find registry_linked 1%N 2%N)
    as (new & st' & n & Hrun & _ & Hfind & _).
  - vm_compute. reflexivity.
  - exists new, st'. split; [exact Hrun|].
    split; [vm_compute; reflexivity | exact Hfind].
Defined.
